(** * Seismic Sight: acquisition, filtering, ranking and bucketing core

    A shallow embedding of the earthquake visualizer's data path:
    - [EarthquakeMap.fetchEarthquakes] (chunked fetch loop, magnitude / depth
      filters, count cap, React state updates),
    - [InsightsTable] rows and the click handler's regional ranking
      (haversine distance, sort, [slice(0, 10)]),
    - [EarthquakeVisualize.byMagnitudeBucket], [byDay] and [fetchData],
    - the marker icon, the magnitude colours, the popup's date and time,
      the marker click, the [flyTo] and plate-overlay effects of
      [EarthquakeMap],
    - the handlers of [EarthquakeFilters] and the state and region search
      of [Index].

    Number representations.  A JavaScript [number] is an IEEE-754 double.
    Magnitudes, depths and magnitude bounds are only ever compared, so they
    are primitive binary64 floats ([PrimFloat]) and [>=], [<=], [<] are the
    IEEE comparisons (false on NaN).  A [Date] is its time value, an integer
    count of milliseconds since the epoch, so it is a [Z]; the calendar
    arithmetic follows ECMA-262 (Day, YearFromTime, MakeDay, ...).  The
    haversine distance is computed in binary64 as the code computes it:
    the arithmetic and [Math.sqrt] are the IEEE operations of [PrimFloat];
    [Math.sin], [Math.cos] and [Math.atan2], which ECMA-262 leaves
    implementation-approximated, are a parameter [MathLib] of the
    embedding, instantiated, where a statement evaluates the code, by a
    library of correctly rounded values.  The formula over the real numbers appears only as
    the specification's side of a comparison. *)

From Stdlib Require Import String Ascii ZArith List Bool Lia Floats.
From Stdlib Require Import Reals Lra Sorted Permutation.
From Stdlib Require OrderedTypeEx.
Import ListNotations.

Local Open Scope Z_scope.

(* ================================================================== *)
(** * ECMAScript Date arithmetic (ECMA-262, "Time Values and Time Range") *)
(* ================================================================== *)

(** A valid [Date] is its time value in milliseconds since 1970-01-01T00:00Z.
    Invalid dates (NaN time value) and [TimeClip] are outside this model:
    the dates reaching [fetchEarthquakes] come from a calendar widget. *)
Definition Date := Z.

Definition msPerDay : Z := 86400000.

Definition Day (t : Z) : Z := t / msPerDay.
Definition TimeWithinDay (t : Z) : Z := t mod msPerDay.

Definition isLeapYear (y : Z) : bool :=
  if negb (y mod 4 =? 0) then false
  else if negb (y mod 100 =? 0) then true
  else if negb (y mod 400 =? 0) then false
  else true.

Definition DaysInYear (y : Z) : Z := if isLeapYear y then 366 else 365.

Definition DayFromYear (y : Z) : Z :=
  365 * (y - 1970) + (y - 1969) / 4 - (y - 1901) / 100 + (y - 1601) / 400.

(** [YearFromTime]: the largest [y] with [DayFromYear y <= Day t].  The mean
    Gregorian year has 146097/400 days, so the quotient below is off by at
    most one year, which the two tests repair ([YearFromDay_spec]). *)
Definition YearFromDay (d : Z) : Z :=
  let y := 1970 + (400 * d) / 146097 in
  if d <? DayFromYear y then y - 1
  else if DayFromYear (y + 1) <=? d then y + 1
  else y.

Definition YearFromTime (t : Z) : Z := YearFromDay (Day t).

Definition DayWithinYear (t : Z) : Z := Day t - DayFromYear (YearFromTime t).

Definition InLeapYear (t : Z) : Z := if isLeapYear (YearFromTime t) then 1 else 0.

(** Number of days of the year before the first of month [m] (0 = January). *)
Definition monthStart (leap : Z) (m : Z) : Z :=
  if m <=? 0 then 0
  else if m =? 1 then 31
  else if m =? 2 then 59 + leap
  else if m =? 3 then 90 + leap
  else if m =? 4 then 120 + leap
  else if m =? 5 then 151 + leap
  else if m =? 6 then 181 + leap
  else if m =? 7 then 212 + leap
  else if m =? 8 then 243 + leap
  else if m =? 9 then 273 + leap
  else if m =? 10 then 304 + leap
  else 334 + leap.

Definition MonthFromTime (t : Z) : Z :=
  let d := DayWithinYear t in
  let leap := InLeapYear t in
  if d <? 31 then 0
  else if d <? 59 + leap then 1
  else if d <? 90 + leap then 2
  else if d <? 120 + leap then 3
  else if d <? 151 + leap then 4
  else if d <? 181 + leap then 5
  else if d <? 212 + leap then 6
  else if d <? 243 + leap then 7
  else if d <? 273 + leap then 8
  else if d <? 304 + leap then 9
  else if d <? 334 + leap then 10
  else 11.

Definition DateFromTime (t : Z) : Z :=
  DayWithinYear t + 1 - monthStart (InLeapYear t) (MonthFromTime t).

(** [MakeDay year month date]: the day number of the first of the month
    [month] (carried into the year) plus [date - 1]. *)
Definition MakeDay (year month date : Z) : Z :=
  let ym := year + month / 12 in
  let mn := month mod 12 in
  DayFromYear ym + monthStart (if isLeapYear ym then 1 else 0) mn + date - 1.

Definition MakeDate (day time : Z) : Z := day * msPerDay + time.

(** The UTC calendar date printed by [toISOString().split('T')[0]];
    [isoMonth] is 1-based as in the printed text. *)
Record IsoDate : Set := mkIsoDate { isoYear : Z; isoMonth : Z; isoDay : Z }.

Definition IsoDate_eqb (a b : IsoDate) : bool :=
  (isoYear a =? isoYear b) && (isoMonth a =? isoMonth b) && (isoDay a =? isoDay b).

(** [const formatDate = (date) => date.toISOString().split('T')[0]] *)
Definition formatDate (date : Date) : IsoDate :=
  mkIsoDate (YearFromTime date) (MonthFromTime date + 1) (DateFromTime date).

(** [new Date(Date.UTC(y, m - 1, d))]: midnight UTC of a calendar date. *)
Definition utcMidnight (y m d : Z) : Date := MakeDate (MakeDay y (m - 1) d) 0.

Section LocalTime.

(** The local time zone adjustment in milliseconds, taken as a constant
    offset (no daylight-saving transitions). *)
Variable LocalTZA : Z.

Definition LocalTime (t : Z) : Z := t + LocalTZA.
Definition UTC (t : Z) : Z := t - LocalTZA.

Definition getFullYear (d : Date) : Z := YearFromTime (LocalTime d).
Definition getMonth (d : Date) : Z := MonthFromTime (LocalTime d).
Definition getDate (d : Date) : Z := DateFromTime (LocalTime d).

(** [d.setMonth(month)]: same local year, day of month and time of day. *)
Definition setMonth (d : Date) (month : Z) : Date :=
  let t := LocalTime d in
  UTC (MakeDate (MakeDay (YearFromTime t) month (DateFromTime t)) (TimeWithinDay t)).

(** [d.setDate(date)]: same local year, month and time of day. *)
Definition setDate (d : Date) (date : Z) : Date :=
  let t := LocalTime d in
  UTC (MakeDate (MakeDay (YearFromTime t) (MonthFromTime t) date) (TimeWithinDay t)).

End LocalTime.

(* ================================================================== *)
(** * Data model of [EarthquakeMap] *)
(* ================================================================== *)

(** [EarthquakeFeature], generic in the representation of [number].  The
    fetch path treats features as [any] and tests
    [typeof e?.properties?.mag === 'number'], so [mag] is optional: [None]
    stands for a value that is not a number (the feed's [null]).
    [coordinates] is [[longitude, latitude, depth]]. *)
Record EarthquakeFeature (number : Type) : Type := mkFeature {
  id : string;
  mag : option number;
  place : string;
  time : Z;
  coordinates : number * number * number
}.

Arguments mkFeature {number}.
Arguments id {number}.
Arguments mag {number}.
Arguments place {number}.
Arguments time {number}.
Arguments coordinates {number}.

Definition longitude {number} (e : EarthquakeFeature number) : number :=
  fst (fst (coordinates e)).
Definition latitude {number} (e : EarthquakeFeature number) : number :=
  snd (fst (coordinates e)).
Definition depth {number} (e : EarthquakeFeature number) : number :=
  snd (coordinates e).

(** Features as fetched: IEEE doubles. *)
Definition Feature : Type := EarthquakeFeature float.

(** The props of [EarthquakeMap] that [fetchEarthquakes] reads.
    [maxCount] is an integral count ([parseInt] in the filter panel);
    [None] is [undefined]. *)
Record EarthquakeMapProps : Type := mkProps {
  minMagnitude : float;
  timeWindow : string;
  dateRange : option Date * option Date;
  magRange : option (float * float);
  depthRange : option (float * float);
  maxCount : option Z;
  onEarthquakeCountUpdate : bool
}.

(** The two request shapes issued by [fetchEarthquakes]. *)
Inductive Request : Type :=
| QueryRange (starttime endtime : IsoDate)
             (minmagnitude maxmagnitude : float) (limit : Z)
| SummaryFeed (file : string).

(** What the remote service does with one request. *)
Inductive Response : Type :=
| Thrown (message : option string)
    (* [fetch] rejected or [response.json()] threw; [Some m] when the thrown
       value is an [Error] with message [m] *)
| NotOk
    (* [response.ok] is false *)
| Json (features : option (list Feature)).
    (* the parsed body's [features]; [None] when missing *)

(** The component state written by [fetchEarthquakes]. *)
Record MapState : Type := mkState {
  earthquakes : list Feature;
  loading : bool;
  error : option string
}.

Definition setEarthquakes (v : list Feature) (s : MapState) : MapState :=
  mkState v (loading s) (error s).
Definition setLoading (v : bool) (s : MapState) : MapState :=
  mkState (earthquakes s) v (error s).
Definition setError (v : option string) (s : MapState) : MapState :=
  mkState (earthquakes s) (loading s) v.

(** How a block of statements ends. *)
Inductive completion (A : Type) : Type :=
| Normal (a : A)
| Throw (thrown : option string)
| OutOfFuel.

Arguments Normal {A}.
Arguments Throw {A}.
Arguments OutOfFuel {A}.

(** One pass of the do-while body: the cursor and the chunk end that were
    formatted into the request. *)
Record Chunk : Set := mkChunk { currentStart : Date; chunkEnd : Date }.

(** What one call of [fetchEarthquakes] did: the state it left, the
    requests it issued in order, and the counts it reported. *)
Record Run : Type := mkRun {
  state : MapState;
  issued : list Request;
  countUpdates : list Z
}.

(* ================================================================== *)
(** * [fetchEarthquakes] *)
(* ================================================================== *)

(** [const lowerMag = Array.isArray(magRange) ? magRange[0] : 0] *)
Definition lowerMag (p : EarthquakeMapProps) : float :=
  match magRange p with Some r => fst r | None => 0%float end.

(** [const upperMag = Array.isArray(magRange) ? magRange[1] : minMagnitude] *)
Definition upperMag (p : EarthquakeMapProps) : float :=
  match magRange p with Some r => snd r | None => minMagnitude p end.

(** [typeof m === 'number' && m >= lowerMag && m <= upperMag] *)
Definition magnitudeInRange (lo hi : float) (e : Feature) : bool :=
  match mag e with
  | Some m => (lo <=? m)%float && (m <=? hi)%float
  | None => false
  end.

(** [depth >= minDepth && depth <= maxDepth] *)
Definition depthInRange (minDepth maxDepth : float) (e : Feature) : bool :=
  (minDepth <=? depth e)%float && (depth e <=? maxDepth)%float.

(** [if (depthRange) { filtered = filtered.filter(...) }] *)
Definition filterDepth (p : EarthquakeMapProps) (l : list Feature) : list Feature :=
  match depthRange p with
  | Some (minDepth, maxDepth) => filter (depthInRange minDepth maxDepth) l
  | None => l
  end.

(** [if (typeof maxCount === 'number' && maxCount > 0 &&
        filtered.length > maxCount) filtered = filtered.slice(0, maxCount)] *)
Definition capCount (p : EarthquakeMapProps) (l : list Feature) : list Feature :=
  match maxCount p with
  | Some n =>
      if (n >? 0) && (Z.of_nat (length l) >? n)
      then firstn (Z.to_nat n) l
      else l
  | None => l
  end.

(** Date-range branch, after the loop: depth filter, then the cap. *)
Definition filterRange (p : EarthquakeMapProps) (allEarthquakes : list Feature)
  : list Feature :=
  capCount p (filterDepth p allEarthquakes).

(** Feed branch: magnitude filter, depth filter, then the cap. *)
Definition filterFeed (p : EarthquakeMapProps) (allEarthquakes : list Feature)
  : list Feature :=
  capCount p
    (filterDepth p
       (filter (magnitudeInRange (lowerMag p) (upperMag p)) allEarthquakes)).

(** The feed URL chosen by [switch (timeWindow)]. *)
Definition feedFile (w : string) : string :=
  if String.eqb w "day" then "all_day.geojson"
  else if String.eqb w "week" then "all_week.geojson"
  else "all_day.geojson".

(** [err instanceof Error ? err.message : 'Unknown error occurred'] *)
Definition errorMessage (thrown : option string) : string :=
  match thrown with
  | Some m => m
  | None => "Unknown error occurred"
  end.

Section Fetch.

Variable LocalTZA : Z.
(** The remote service. *)
Variable fetch : Request -> Response.
Variable p : EarthquakeMapProps.

Definition monthDiff (startDate endDate : Date) : Z :=
  (getFullYear LocalTZA endDate - getFullYear LocalTZA startDate) * 12
  + (getMonth LocalTZA endDate - getMonth LocalTZA startDate).

(** [const chunkSize = monthDiff > 1 ? 1 : 0] *)
Definition chunkSizeOf (startDate endDate : Date) : Z :=
  if monthDiff startDate endDate >? 1 then 1 else 0.

(** The chunk end computed at the top of the loop body. *)
Definition chunkEndOf (chunkSize : Z) (endDate cur : Date) : Date :=
  if chunkSize >? 0 then
    let e := setMonth LocalTZA cur (getMonth LocalTZA cur + chunkSize) in
    if e >? endDate then endDate else e
  else endDate.

(** [currentStart = new Date(chunkEnd);
     currentStart.setDate(currentStart.getDate() + 1)] *)
Definition nextStart (e : Date) : Date :=
  setDate LocalTZA e (getDate LocalTZA e + 1).

Definition requestOf (c : Chunk) : Request :=
  QueryRange (formatDate (currentStart c)) (formatDate (chunkEnd c))
             (lowerMag p) (upperMag p) 10000.

(** The do-while loop.  Returns the chunks requested so far and how the
    loop ended.  The 300 ms pause between chunks is not modelled. *)
Fixpoint doWhile (fuel : nat) (chunkSize : Z) (endDate cur : Date)
         (allEarthquakes : list Feature) (sent : list Chunk)
  : list Chunk * completion (list Feature) :=
  match fuel with
  | O => (sent, OutOfFuel)
  | S fuel' =>
      let c := mkChunk cur (chunkEndOf chunkSize endDate cur) in
      let sent' := sent ++ [c] in
      match fetch (requestOf c) with
      | Thrown m => (sent', Throw m)
      | NotOk => (sent', Throw (Some "Failed to fetch earthquake data"%string))
      | Json data =>
          let all' :=
            match data with
            | Some (f :: fs) => allEarthquakes ++ f :: fs
            | _ => allEarthquakes
            end in
          if chunkSize >? 0 then
            let cur' := nextStart (chunkEnd c) in
            if cur' <? endDate
            then doWhile fuel' chunkSize endDate cur' all' sent'
            else (sent', Normal all')
          else (sent', Normal all')
      end
  end.

(** The body of the [try] block: requests issued, and either the list
    handed to [setEarthquakes] or the exception. *)
Definition tryBlock (fuel : nat) : list Request * completion (list Feature) :=
  match dateRange p with
  | (Some startDate, Some endDate) =>
      let '(sent, r) :=
        doWhile fuel (chunkSizeOf startDate endDate) endDate startDate [] [] in
      (map requestOf sent,
       match r with
       | Normal allEarthquakes => Normal (filterRange p allEarthquakes)
       | Throw m => Throw m
       | OutOfFuel => OutOfFuel
       end)
  | _ =>
      let url := SummaryFeed (feedFile (timeWindow p)) in
      ([url],
       match fetch url with
       | Thrown m => Throw m
       | NotOk => Throw (Some "Failed to fetch earthquake data"%string)
       | Json data =>
           Normal (filterFeed p (match data with Some l => l | None => [] end))
       end)
  end.

(** [fetchEarthquakes]: [None] only when the fuel did not suffice. *)
Definition fetchEarthquakes (fuel : nat) (s : MapState) : option Run :=
  let s1 := setError None (setLoading true s) in
  match tryBlock fuel with
  | (reqs, Normal filtered) =>
      Some (mkRun (setLoading false (setEarthquakes filtered s1)) reqs
                  (if onEarthquakeCountUpdate p
                   then [Z.of_nat (length filtered)] else []))
  | (reqs, Throw m) =>
      Some (mkRun (setLoading false (setError (Some (errorMessage m)) s1))
                  reqs [])
  | (_, OutOfFuel) => None
  end.

End Fetch.

(* ================================================================== *)
(** * [EarthquakeVisualize.byMagnitudeBucket] *)
(* ================================================================== *)

(** The feature interface declared in [EarthquakeVisualize]:
    [properties: { mag: number; time: number }]. *)
Record VisFeature : Set := mkVisFeature { vmag : float; vtime : Z }.

Record Bucket : Set := mkBucket {
  key : string;
  label : string;
  min : float;
  max : float
}.

Definition buckets : list Bucket :=
  [ mkBucket "<2" "<2.0" neg_infinity 2;
    mkBucket "2-3.9" "2.0-3.9" 2 4;
    mkBucket "4-5.9" "4.0-5.9" 4 6;
    mkBucket "6+" "6.0+" 6 infinity ].

(** [counts: Record<string, number>], an object used as a map from keys to
    counts, kept as an association list. *)
Definition Counts : Set := list (string * Z).

Fixpoint getCount (k : string) (c : Counts) : option Z :=
  match c with
  | [] => None
  | (k', v) :: c' => if String.eqb k k' then Some v else getCount k c'
  end.

Fixpoint setCount (k : string) (v : Z) (c : Counts) : Counts :=
  match c with
  | [] => [(k, v)]
  | (k', v') :: c' =>
      if String.eqb k k' then (k, v) :: c' else (k', v') :: setCount k v c'
  end.

(** [m >= b.min && m < b.max] *)
Definition inBucket (m : float) (b : Bucket) : bool :=
  (min b <=? m)%float && (m <? max b)%float.

(** [counts[b.key] += 1]; a key that was never initialised stays absent
    (JavaScript would store NaN there), which [countsInit] rules out. *)
Definition increment (k : string) (c : Counts) : Counts :=
  match getCount k c with
  | Some n => setCount k (n + 1) c
  | None => c
  end.

(** The inner [for (const b of buckets)] with its [break]. *)
Fixpoint tally (m : float) (bs : list Bucket) (c : Counts) : Counts :=
  match bs with
  | [] => c
  | b :: bs' => if inBucket m b then increment (key b) c else tally m bs' c
  end.

(** [for (const b of buckets) counts[b.key] = 0] *)
Definition countsInit : Counts :=
  fold_left (fun c b => setCount (key b) 0 c) buckets [].

Definition countsOf (data : list VisFeature) : Counts :=
  fold_left (fun c f => tally (vmag f) buckets c) data countsInit.

(** [buckets.map(b => ({ bucket: b.label, count: counts[b.key] }))];
    [count] is [None] where [counts[b.key]] would be [undefined]. *)
Definition byMagnitudeBucket (data : list VisFeature) : list (string * option Z) :=
  map (fun b => (label b, getCount (key b) (countsOf data))) buckets.

(* ================================================================== *)
(** * Great-circle distance and the nearest-neighbour tables *)
(* ================================================================== *)

(** The functions of [Math] that [haversineKm] calls besides the square
    root.  ECMA-262 fixes their values at special arguments only and
    leaves the others implementation-approximated, so the library of the
    engine is a parameter of the embedding. *)
Record MathLib : Set := mkMath {
  Math_sin : float -> float;
  Math_cos : float -> float;
  Math_atan2 : float -> float -> float
}.

(** [Math.PI], the double nearest to pi. *)
Definition Math_PI : float := 0x1.921fb54442d18p+1.

(** [Array.prototype.sort(comparefn)].  ECMA-262 requires the sort to be
    stable, and for a consistent comparator all stable sorts agree; the
    model inserts from the right, moving [x] behind [y] only when
    [comparefn(x, y) > 0].  (For a comparator that is not consistent, as
    one that returns NaN, ECMA-262 leaves the order to the engine.) *)
Fixpoint insertBy {A : Type} (comparefn : A -> A -> float) (x : A) (l : list A)
  : list A :=
  match l with
  | [] => [x]
  | y :: l' =>
      if (0 <? comparefn x y)%float then y :: insertBy comparefn x l'
      else x :: l
  end.

Definition Array_sort {A : Type} (comparefn : A -> A -> float) (l : list A)
  : list A :=
  fold_right (insertBy comparefn) [] l.

(** [{ e, distKm }] *)
Record Row : Type := mkRow { e : Feature; distKm : float }.

Section Geo.

Variable math : MathLib.

Local Open Scope float_scope.

(** The quantity [a] of [haversineKm], in binary64 as the code computes
    it: products and sums associate to the left. *)
Definition haversineA (lat1 lon1 lat2 lon2 : float) : float :=
  let dLat := (lat2 - lat1) * Math_PI / 180 in
  let dLon := (lon2 - lon1) * Math_PI / 180 in
  Math_sin math (dLat / 2) * Math_sin math (dLat / 2) +
  Math_cos math (lat1 * Math_PI / 180) * Math_cos math (lat2 * Math_PI / 180) *
  Math_sin math (dLon / 2) * Math_sin math (dLon / 2).

(** [haversineKm]; [Math.sqrt] is the IEEE square root. *)
Definition haversineKm (lat1 lon1 lat2 lon2 : float) : float :=
  let R := 6371 in
  let a := haversineA lat1 lon1 lat2 lon2 in
  let c := 2 * Math_atan2 math (PrimFloat.sqrt a) (PrimFloat.sqrt (1 - a)) in
  R * c.

(** [earthquakes.map(e => ({ e, distKm: haversineKm(baseLat, baseLon, lat, lon) }))] *)
Definition withDistance (base : Feature) (l : list Feature) : list Row :=
  map (fun x =>
         mkRow x (haversineKm (latitude base) (longitude base)
                              (latitude x) (longitude x))) l.

(** [.sort((a, b) => a.distKm - b.distKm)] *)
Definition byDistance (base : Feature) (l : list Feature) : list Row :=
  Array_sort (fun a b => distKm a - distKm b) (withDistance base l).

(** The rows of [InsightsTable]: map, sort, [slice(0, 10)]. *)
Definition InsightsTable_rows (base : Feature) (earthquakes : list Feature)
  : list Row :=
  firstn 10 (byDistance base earthquakes).

(** The click handler's ranking of the regional query's features:
    map, sort, [slice(0, 10)], [.map(x => x.f)]. *)
Definition nearestFromApi (base : Feature) (feats : list Feature)
  : list Feature :=
  map e (firstn 10 (byDistance base feats)).

End Geo.

(* ================================================================== *)
(** * Vocabulary of the statements *)
(* ================================================================== *)

(** Length in days of month [m] (0-based) of year [y]. *)
Definition daysInMonth (y m : Z) : Z := MakeDay y (m + 1) 1 - MakeDay y m 1.

(** [Some thrown] when the response makes [fetchEarthquakes] throw. *)
Definition failure (r : Response) : option (option string) :=
  match r with
  | Thrown m => Some m
  | NotOk => Some (Some "Failed to fetch earthquake data"%string)
  | Json _ => None
  end.

(** The features a response contributes to [allEarthquakes]. *)
Definition featuresOf (r : Response) : list Feature :=
  match r with
  | Json (Some l) => l
  | _ => []
  end.

Section ChunkVocabulary.

Variable LocalTZA : Z.

Section Chain.

Variables endOf next : Date -> Date.
Variable continues : Date -> Prop.

(** Successive passes from the cursor [cur]: each pass requests
    [cur .. endOf cur], and a further pass starts at
    [next (endOf cur)], provided [continues] holds of that cursor. *)
Inductive chain : Date -> list Chunk -> Prop :=
| chain_nil (cur : Date) : chain cur []
| chain_cons (cur : Date) (l : list Chunk) :
    (l <> [] -> continues (next (endOf cur))) ->
    chain (next (endOf cur)) l ->
    chain cur (mkChunk cur (endOf cur) :: l).

End Chain.

(** [l] is a run of successive passes of the do-while loop from the
    cursor [cur]: each chunk is the one the body computes from its
    cursor, and a further pass happens only in chunk mode, from the
    previous chunk end plus one day, while that cursor is before
    [endDate]. *)
Definition chunksFrom (cs : Z) (endDate : Date) : Date -> list Chunk -> Prop :=
  chain (chunkEndOf LocalTZA cs endDate) (nextStart LocalTZA)
        (fun d => cs > 0 /\ d < endDate).

(** Number of loop passes that always suffices: every pass but the last
    moves the cursor by at least 29 days. *)
Definition fuelBound (startDate endDate : Date) : nat :=
  S (Z.to_nat ((endDate - startDate) / (29 * msPerDay))).

(** The span from [startDate] to [endDate] in months, rounded up: the
    whole-calendar-month difference, plus one when the end falls later
    within its month (day of month, then time of day) than the start
    does within its own. *)
Definition ceilSpanMonths (startDate endDate : Date) : Z :=
  let ds := getDate LocalTZA startDate in
  let de := getDate LocalTZA endDate in
  let ts := TimeWithinDay (LocalTime LocalTZA startDate) in
  let te := TimeWithinDay (LocalTime LocalTZA endDate) in
  monthDiff LocalTZA startDate endDate
  + (if (de >? ds) || ((de =? ds) && (te >? ts)) then 1 else 0).

(** The chunks start at [startDate] and the last one ends on the
    calendar day of [endDate]. *)
Definition coversRange (startDate endDate : Date) (l : list Chunk) : Prop :=
  exists c pre cN,
    l = c :: pre /\ currentStart c = startDate
    /\ last l c = cN /\ formatDate (chunkEnd cN) = formatDate endDate.

(** Each chunk starts one day after the previous one ended. *)
Definition consecutive (l : list Chunk) : Prop :=
  forall pre a b post,
    l = pre ++ a :: b :: post -> currentStart b = chunkEnd a + msPerDay.

(** Every UTC day from [firstDay] to [lastDay] (days counted from the
    epoch) lies within the days that some chunk requests. *)
Definition coversDays (firstDay lastDay : Z) (l : list Chunk) : Prop :=
  forall d, firstDay <= d <= lastDay ->
            exists c, In c l /\ Day (currentStart c) <= d <= Day (chunkEnd c).

(** Chunking as the specification words it: [ceil(spanMonths)] requests,
    each over at most 31 days, consecutive, covering the whole range. *)
Definition chunkedAsSpecified (startDate endDate : Date) (l : list Chunk) : Prop :=
  Z.of_nat (length l) = ceilSpanMonths startDate endDate
  /\ Forall (fun c => 0 <= Day (chunkEnd c) - Day (currentStart c) <= 31) l
  /\ consecutive l
  /\ coversRange startDate endDate l.

End ChunkVocabulary.

(** The same props without a count cap. *)
Definition uncapped (p : EarthquakeMapProps) : EarthquakeMapProps :=
  mkProps (minMagnitude p) (timeWindow p) (dateRange p) (magRange p)
          (depthRange p) None (onEarthquakeCountUpdate p).

(** The props of a date-range query with the explicit magnitude range
    [0, 5]; the other filters as in [Index]. *)
Definition moderateProps (range : option Date * option Date) : EarthquakeMapProps :=
  mkProps 2 "day" range (Some (0, 5)%float) (Some (0, 800)%float) (Some 1000) true.

(** A magnitude 9.5 event at 10 km depth. *)
Definition greatQuake : Feature :=
  mkFeature "us9" (Some 9.5%float) "offshore" 0 (142.5, 38.25, 10)%float.

(** A service that answers every request with [greatQuake]. *)
Definition greatQuakeService (r : Request) : Response := Json (Some [greatQuake]).

(** A service whose second chunk (the one starting 2024-02-02) is refused. *)
Definition secondChunkFails (r : Request) : Response :=
  match r with
  | QueryRange starttime _ _ _ _ =>
      if IsoDate_eqb starttime (mkIsoDate 2024 2 2) then NotOk
      else Json (Some [mkFeature "us1" (Some 4.5%float) "somewhere" 0
                                 (10, 20, 30)%float])
  | SummaryFeed _ => Json None
  end.

(** A magnitude that is a real number: neither NaN nor an infinity. *)
Definition isReal (m : float) : bool := is_finite m.

(** The run against [secondChunkFails] for 2024-01-01 .. 2024-04-10 from
    [initialState]: two requests, then the error state. *)
Definition failedRun : Run :=
  mkRun (mkState [] false (Some "Failed to fetch earthquake data"%string))
        [QueryRange (mkIsoDate 2024 1 1) (mkIsoDate 2024 2 1) 0 10 10000;
         QueryRange (mkIsoDate 2024 2 2) (mkIsoDate 2024 3 2) 0 10 10000]
        [].

(** The four magnitude bands of [buckets]. *)
Definition band1 : Bucket := mkBucket "<2" "<2.0" neg_infinity 2.
Definition band2 : Bucket := mkBucket "2-3.9" "2.0-3.9" 2 4.
Definition band3 : Bucket := mkBucket "4-5.9" "4.0-5.9" 4 6.
Definition band4 : Bucket := mkBucket "6+" "6.0+" 6 infinity.

(** Number of events of [data] whose magnitude lies in band [b]. *)
Definition inBand (b : Bucket) (data : list VisFeature) : Z :=
  Z.of_nat (length (filter (fun f => inBucket (vmag f) b) data)).

(** The [counts] object with the four keys of [buckets]. *)
Definition counts4 (n1 n2 n3 n4 : Z) : Counts :=
  [("<2"%string, n1); ("2-3.9"%string, n2); ("4-5.9"%string, n3); ("6+"%string, n4)].

(** Events with the magnitudes 1.5, 3.0, 5.5 and 6.2 (the double nearest
    to 6.2). *)
Definition sampleMagnitudes : list VisFeature :=
  map (fun m => mkVisFeature m 0) [1.5; 3; 5.5; 0x1.8cccccccccccdp+2]%float.

(** A feed with one event inside the range [0, 10], one outside, and one
    without a numeric magnitude. *)
Definition smallFeed (r : Request) : Response :=
  Json (Some [mkFeature "a" (Some 4.5%float) "near" 0 (10, 20, 30)%float;
              mkFeature "b" (Some 10.5%float) "far" 0 (11, 21, 31)%float;
              mkFeature "c" None "unknown" 0 (12, 22, 32)%float]).

(** The fuel a run of [fetchEarthquakes] needs at most: the passes of the
    loop for a complete date range, none for a feed. *)
Definition fuelFor (p : EarthquakeMapProps) : nat :=
  match dateRange p with
  | (Some startDate, Some endDate) => fuelBound startDate endDate
  | _ => O
  end.

(** Doubles that are numbers: neither NaN nor infinite. *)
Definition SFreal (x : spec_float) : bool :=
  match x with
  | S754_zero _ | S754_finite _ _ _ => true
  | _ => false
  end.

(** Elements whose sort key equals [d], as doubles compare. *)
Definition hasKey {A : Type} (key : A -> float) (d : float) (a : A) : bool :=
  (key a =? d)%float.

(** Rows at distance [d]. *)
Definition atDistance (d : float) (r : Row) : bool := hasKey distKm d r.

(** Rows in ascending order of distance. *)
Definition ascendingDistance (rows : list Row) : Prop :=
  StronglySorted (fun a b => (distKm a <=? distKm b)%float = true) rows.

(** A row carries the distance [haversineKm] computes from the reference
    to its event. *)
Definition rowOf (math : MathLib) (base : Feature) (r : Row) : Prop :=
  r = mkRow (e r)
        (haversineKm math (latitude base) (longitude base)
                     (latitude (e r)) (longitude (e r))).

(** The candidates whose computed distances from the reference are all
    numbers. *)
Definition distancesAreNumbers (math : MathLib) (base : Feature)
           (l : list Feature) : Prop :=
  Forall (fun r => isReal (distKm r) = true) (withDistance math base l).

(** What ECMA-262 requires of the library where the distance of a point
    from itself takes it: [Math.sin(+0)] is [+0], [Math.atan2(+0, 1)] is
    [+0], and [Math.atan2] of a NaN is NaN. *)
Definition ecma262 (math : MathLib) : Prop :=
  Math_sin math 0 = 0%float
  /\ Math_atan2 math 0 1 = 0%float
  /\ (forall y x, is_nan y || is_nan x = true ->
                  is_nan (Math_atan2 math y x) = true).

(** An event at the given latitude and longitude, at the surface. *)
Definition eventAt (name : string) (lat lon : float) : Feature :=
  mkFeature name None "" 0 (lon, lat, 0)%float.

(** A reference on the equator at the prime meridian; two candidates [X]
    at 20 N 10 E and [Y] at 10 N 20 E, which on the sphere are equally far
    from it; two points near the poles that are antipodal; and an event
    off Ecuador with one in Sumatra at its antipode. *)
Definition origin : Feature := eventAt "ref" 0 0.
Definition pointX : Feature := eventAt "X" 20 10.
Definition pointY : Feature := eventAt "Y" 10 20.
Definition farSouth : Feature := eventAt "south" (-87.5) 0.
Definition farNorth : Feature := eventAt "north" 87.5 180.
Definition ecuador : Feature := eventAt "ecuador" (-2.5) (-80).
Definition sumatra : Feature := eventAt "sumatra" 2.5 100.

(** The value a table records for [x]; NaN where it records none. *)
Definition recorded (table : list (float * float)) (x : float) : float :=
  match find (fun p => (fst p =? x)%float) table with
  | Some p => snd p
  | None => nan
  end.

(** A library for the points above: the correctly rounded doubles of the
    sine, the cosine and the arc tangent at the arguments that the
    distances between these points reach (the values glibc returns; the
    distances they give, 2476.171410620958, 2476.1714106209574 and NaN,
    are those of V8), with the special values ECMA-262 prescribes, and NaN
    at every other argument. *)
Definition recordedMath : MathLib :=
  mkMath
    (fun x =>
       if is_zero x then x
       else recorded
              [ (0x1.657184ae74487p-3, 0x1.63a1a7e0b7389p-3);
                (0x1.657184ae74487p-4, 0x1.64fd6b8c28102p-4);
                (0x1.86f4291ecf2f3p+0, 0x1.ff833f9da45f7p-1);
                (0x1.921fb54442d18p+0, 0x1p+0);
                (0x1.657184ae74487p-5, 0x1.65547c4694e11p-5);
                (-0x1.657184ae74487p-5, -0x1.65547c4694e11p-5);
                (-0x1.921fb54442d18p+0, -0x1p+0) ]%float x)
    (recorded
       [ (0, 0x1p+0);
         (0x1.657184ae74487p-2, 0x1.e11f642522d1cp-1);
         (0x1.657184ae74487p-3, 0x1.f838b8c811c17p-1);
         (-0x1.86f4291ecf2f3p+0, 0x1.65547c4694e32p-5);
         (0x1.86f4291ecf2f3p+0, 0x1.65547c4694e32p-5);
         (-0x1.657184ae74487p-5, 0x1.ff833f9da45f7p-1);
         (0x1.657184ae74487p-5, 0x1.ff833f9da45f7p-1) ]%float)
    (fun y x =>
       if is_nan y || is_nan x then nan
       else if (y =? 0x1.8b7d946807c6ap-3)%float && (x =? 0x1.f65cd4a691922p-1)%float
            then 0x1.8dfda67c2a24ap-3%float
       else if (y =? 0x1.8b7d946807c69p-3)%float && (x =? 0x1.f65cd4a691922p-1)%float
            then 0x1.8dfda67c2a249p-3%float
       else if is_zero y && (0 <? x)%float then y
       else nan).

Section ExactFormula.

Local Open Scope R_scope.

(** [atan2] on real arguments. *)
Definition atan2 (y x : R) : R :=
  if Rlt_dec 0 x then atan (y / x)
  else if Rlt_dec x 0 then
    (if Rle_dec 0 y then atan (y / x) + PI else atan (y / x) - PI)
  else if Rlt_dec 0 y then PI / 2
  else if Rlt_dec y 0 then - (PI / 2)
  else 0.

(** The haversine formula as the specification has it, over the real
    numbers ([distanceKm -> real >= 0] on a sphere of radius 6371 km), to
    compare [haversineKm] with. *)
Definition exactA (lat1 lon1 lat2 lon2 : R) : R :=
  let dLat := (lat2 - lat1) * PI / 180 in
  let dLon := (lon2 - lon1) * PI / 180 in
  sin (dLat / 2) * sin (dLat / 2) +
  cos (lat1 * PI / 180) * cos (lat2 * PI / 180) *
  sin (dLon / 2) * sin (dLon / 2).

Definition distanceKm (lat1 lon1 lat2 lon2 : R) : R :=
  6371 * (2 * atan2 (sqrt (exactA lat1 lon1 lat2 lon2))
                    (sqrt (1 - exactA lat1 lon1 lat2 lon2))).

End ExactFormula.

(** The real number a double stands for (0 for NaN and the infinities). *)
Definition toReal (x : float) : R :=
  match Prim2SF x with
  | S754_finite s m e => (IZR (cond_Zopp s (Zpos m)) * powerRZ 2 e)%R
  | _ => 0%R
  end.

(** The distance on the sphere between the places of two events. *)
Definition sphereKm (a b : Feature) : R :=
  distanceKm (toReal (latitude a)) (toReal (longitude a))
             (toReal (latitude b)) (toReal (longitude b)).


(** The props [Index] passes from its initial state, for a given date range. *)
Definition indexProps (range : option Date * option Date) : EarthquakeMapProps :=
  mkProps 2 "day" range (Some (0, 10)%float) (Some (0, 800)%float) (Some 1000) true.

(** The initial state of the component. *)
Definition initialState : MapState := mkState [] true None.

(** A service with no events. *)
Definition emptyService (r : Request) : Response := Json (Some []).


(* ================================================================== *)
(** * Text of dates: [Date.prototype.toISOString] *)
(* ================================================================== *)

(** The character of a decimal digit. *)
Definition digitChar (d : Z) : ascii := ascii_of_nat (48 + Z.to_nat d).

(** The last [width] decimal digits of [n], zero-padded. *)
Fixpoint pad (width : nat) (n : Z) : string :=
  match width with
  | O => EmptyString
  | S w => (pad w (n / 10) ++ String (digitChar (n mod 10)) EmptyString)%string
  end.

Definition HourFromTime (t : Z) : Z := (t / 3600000) mod 24.
Definition MinFromTime (t : Z) : Z := (t / 60000) mod 60.
Definition SecFromTime (t : Z) : Z := (t / 1000) mod 60.
Definition msFromTime (t : Z) : Z := t mod 1000.

(** The year of the ISO text: four digits for the years 0 to 9999, a sign
    and six digits otherwise. *)
Definition yearText (y : Z) : string :=
  if (0 <=? y) && (y <=? 9999) then pad 4 y
  else if 0 <=? y then ("+" ++ pad 6 y)%string
  else ("-" ++ pad 6 (- y))%string.

(** The date part [YYYY-MM-DD] of the ISO text. *)
Definition isoText (d : IsoDate) : string :=
  (yearText (isoYear d) ++ "-" ++ pad 2 (isoMonth d) ++ "-" ++ pad 2 (isoDay d))%string.

(** [toISOString()] of a valid date: [YYYY-MM-DDTHH:mm:ss.sssZ] in UTC. *)
Definition toISOString (t : Z) : string :=
  (isoText (formatDate t) ++ "T" ++ pad 2 (HourFromTime t) ++ ":"
   ++ pad 2 (MinFromTime t) ++ ":" ++ pad 2 (SecFromTime t) ++ "."
   ++ pad 3 (msFromTime t) ++ "Z")%string.

(** A time value a [Date] can hold; [toISOString] throws a [RangeError] on
    the others. *)
Definition validTime (t : Z) : bool := Z.abs t <=? 8640000000000000.

(** [s.slice(a, b)] for [0 <= a <= b]. *)
Definition slice (a b : nat) (s : string) : string := substring a (b - a) s.

(** [s.split('T')[0]]: the text before the first [T]. *)
Fixpoint beforeT (s : string) : string :=
  match s with
  | EmptyString => EmptyString
  | String c s' => if Ascii.eqb c "T" then EmptyString else String c (beforeT s')
  end.

(** [formatDate] as text: [date.toISOString().split('T')[0]]. *)
Definition formatDateText (date : Date) : string := beforeT (toISOString date).

(** The placeholder shown for a missing time: an em dash (U+2014), as the
    three bytes of its UTF-8 encoding. *)
Definition emDash : string :=
  String (ascii_of_nat 226) (String (ascii_of_nat 128)
    (String (ascii_of_nat 148) EmptyString)).

(** [formatUtcDate(timestamp)]; [None] is a timestamp that is not a finite
    number, and a finite one is taken as integral milliseconds. *)
Definition formatUtcDate (timestamp : option Z) : string :=
  match timestamp with
  | None => emDash
  | Some t => if validTime t then slice 0 10 (toISOString t) else emDash
  end.

(** [formatUtcTime(timestamp)] *)
Definition formatUtcTime (timestamp : option Z) : string :=
  match timestamp with
  | None => emDash
  | Some t =>
      if validTime t then (slice 11 19 (toISOString t) ++ "Z")%string else emDash
  end.

(* ================================================================== *)
(** * [EarthquakeVisualize]: [byDay] and [fetchData] *)
(* ================================================================== *)

(** [new Date(f.properties.time).toISOString().slice(0, 10)] *)
Definition dayOf (f : VisFeature) : string := slice 0 10 (toISOString (vtime f)).

(** [map[day] = (map[day] || 0) + 1] *)
Definition addDay (c : Counts) (f : VisFeature) : Counts :=
  setCount (dayOf f)
           (match getCount (dayOf f) c with Some n => n | None => 0 end + 1) c.

(** The [map] object after the loop over [data]; its entries are in
    insertion order. *)
Definition dayCounts (data : list VisFeature) : Counts :=
  fold_left addDay data [].

(** [(a, b) => (a[0] < b[0] ? -1 : 1)] *)
Definition byLabel (a b : string * Z) : float :=
  if String.ltb (fst a) (fst b) then (-1)%float else 1%float.

(** [byDay]: the pairs [(day, count)] sorted by their day text.  [None]
    when some time value is not one a [Date] can hold ([toISOString]
    throws). *)
Definition byDay (data : list VisFeature) : option (list (string * Z)) :=
  if forallb (fun f => validTime (vtime f)) data
  then Some (Array_sort byLabel (dayCounts data))
  else None.

(** What the service does with the request of [fetchData]: [fetch] or
    [res.json()] throws, or the body is parsed ([res.ok] is not looked
    at); [features] is [None] when the body has none. *)
Inductive VisResponse : Type :=
| VisThrown
| VisJson (features : option (list VisFeature)).

Record VisState : Type := mkVisState {
  visData : list VisFeature;
  visLoading : bool
}.

(** The effect of [EarthquakeVisualize] with its [fetchData]: the requests
    issued and the state left. *)
Definition fetchData (service : Request -> VisResponse)
           (open : bool) (range : option Date * option Date)
           (window : string) (mags : option (float * float)) (s : VisState)
  : list Request * VisState :=
  if negb open then ([], s)
  else
    let url :=
      match range with
      | (Some startDate, Some endDate) =>
          QueryRange (formatDate startDate) (formatDate endDate)
                     (match mags with Some r => fst r | None => 0%float end)
                     (match mags with Some r => snd r | None => 10%float end)
                     20000
      | _ =>
          SummaryFeed (if String.eqb window "week" then "all_week.geojson"
                       else "all_day.geojson")
      end in
    ([url],
     match service url with
     | VisThrown => mkVisState [] false
     | VisJson (Some l) => mkVisState l false
     | VisJson None => mkVisState [] false
     end).

(* ================================================================== *)
(** * Magnitude colours and the marker icon *)
(* ================================================================== *)

(** [getMagnitudeBadgeColor] of [EarthquakeMap]. *)
Definition getMagnitudeBadgeColor (magnitude : float) : string :=
  if (magnitude <? 2)%float then "seismic-low"
  else if (magnitude <? 4)%float then "seismic-medium"
  else if (magnitude <? 6)%float then "seismic-high"
  else "seismic-extreme".

(** [getMagnitudeColor] of [EarthquakeFilters]. *)
Definition getMagnitudeColor (magnitude : float) : string :=
  if (magnitude <? 2)%float then "seismic-low"
  else if (magnitude <? 4)%float then "seismic-medium"
  else if (magnitude <? 6)%float then "seismic-high"
  else "seismic-extreme".

(** [Math.max(a, b)]: NaN when either is, [+0] above [-0]. *)
Definition Math_max (a b : float) : float :=
  if is_nan a || is_nan b then nan
  else if (a <? b)%float then b
  else if (b <? a)%float then a
  else if is_zero a && get_sign a then b
  else a.

(** The numbers and the colour that [createEarthquakeIcon] puts into the
    marker: radius, diameter, fill colour, font size and anchor.  The
    magnitude text ([toFixed(1)]) is not modelled. *)
Record EarthquakeIcon : Set := mkIcon {
  iconColor : string;
  iconRadius : float;
  iconSize : float;
  iconFontSize : float;
  iconAnchor : float
}.

Definition createEarthquakeIcon (magnitude : float) : EarthquakeIcon :=
  let radius := Math_max 4 (2 + magnitude * 2)%float in
  let size := (radius * 2)%float in
  let color :=
    (if (magnitude <? 3)%float then "#22c55e"
     else if (magnitude <? 4)%float then "#38bdf8"
     else if (magnitude <? 6)%float then "#f59e0b"
     else "#ef4444")%string in
  mkIcon color radius size
         (Math_max 8 (size * 0x1.3333333333333p-2)%float) (size / 2)%float.

(* ================================================================== *)
(** * The handlers of [EarthquakeFilters] *)
(* ================================================================== *)

(** The callbacks a handler invoked, each with its argument. *)
Record FilterCalls : Type := mkCalls {
  dateRangeChange : option (option Date * option Date);
  timeWindowChange : option string;
  minMagnitudeChange : option float;
  magRangeChange : option (float * float)
}.

Definition noCalls : FilterCalls := mkCalls None None None None.

(** [handleDateSelect(date)] against the current [dateRange]; the second
    component is the value given to [setTemporaryDate], if any. *)
Definition handleDateSelect (range : option Date * option Date)
           (date : option Date)
  : FilterCalls * option (option Date) :=
  match date with
  | None => (noCalls, None)
  | Some d =>
      match range with
      | (Some start, None) =>
          (mkCalls (Some (if d <? start then (Some d, Some start)
                          else (Some start, Some d)))
                   None None None,
           Some None)
      | _ => (mkCalls (Some (Some d, None)) None None None, Some (Some d))
      end
  end.

(** [handleMagnitudeChange(value)] for the slider value [value = [nextMin]];
    [hasMagRangeChange] tells whether [onMagRangeChange] was passed. *)
Definition handleMagnitudeChange (hasMagRangeChange : bool)
           (mags : option (float * float)) (nextMin : float) : FilterCalls :=
  mkCalls None None (Some nextMin)
          (match mags with
           | Some r =>
               if hasMagRangeChange
               then Some (nextMin, Math_max nextMin (snd r))
               else None
           | None => None
           end).

(** The [onValueChange] of the time-window select. *)
Definition timeWindowSelect (value : string) : FilterCalls :=
  mkCalls (if String.eqb value "custom" then None else Some (None, None))
          (Some value) None None.

Section CalendarHandlers.

Variable LocalTZA : Z.

(** [d.setHours(23, 59, 59, 999)]: the last millisecond of the local day. *)
Definition setHoursEndOfDay (d : Date) : Date :=
  UTC LocalTZA (MakeDate (Day (LocalTime LocalTZA d))
                         (23 * 3600000 + 59 * 60000 + 59 * 1000 + 999)).

(** [maxEndDate]: five months after the start, less one day. *)
Definition maxEndDateOf (startDate : Date) : Date :=
  let m := setMonth LocalTZA startDate (getMonth LocalTZA startDate + 5) in
  setDate LocalTZA m (getDate LocalTZA m - 1).

(** [handleDateRangeSelect(range)], the calendar's [onSelect]; [None] is
    [undefined], for the range and for each of its ends. *)
Definition handleDateRangeSelect (range : option (option Date * option Date))
  : FilterCalls :=
  match range with
  | None => noCalls
  | Some (Some startDate, Some endDate) =>
      mkCalls
        (Some (if monthDiff LocalTZA startDate endDate >? 5
               then (Some startDate, Some (maxEndDateOf startDate))
               else (Some startDate, Some (setHoursEndOfDay endDate))))
        (Some "custom"%string) None None
  | Some (Some startDate, None) =>
      mkCalls (Some (Some startDate, None)) None None None
  | Some (None, _) => noCalls
  end.

End CalendarHandlers.

(* ================================================================== *)
(** * [Index]: the state behind the props, region search, [flyTo] *)
(* ================================================================== *)

(** The target handed to the map: a point with a zoom, or a bounding box
    [[west, south, east, north]]. *)
Record FlyTo : Set := mkFlyTo {
  flyLat : option float;
  flyLng : option float;
  flyZoom : option float;
  flyBbox : option (list float)
}.

(** The filter state of [Index]. *)
Record IndexState : Type := mkIndex {
  ixMinMagnitude : float;
  ixTimeWindow : string;
  ixDateRange : option Date * option Date;
  ixMagRange : float * float;
  ixDepthRange : float * float;
  ixMaxCount : Z;
  ixFlyTo : option FlyTo;
  ixMapKey : Z
}.

(** [useState] initial values. *)
Definition indexInitial : IndexState :=
  mkIndex 2 "day" (None, None) (0, 10)%float (0, 800)%float 1000 None 0.

(** The props [Index] passes to [EarthquakeMap]. *)
Definition mapProps (st : IndexState) : EarthquakeMapProps :=
  mkProps (ixMinMagnitude st) (ixTimeWindow st) (ixDateRange st)
          (Some (ixMagRange st)) (Some (ixDepthRange st))
          (Some (ixMaxCount st)) true.

(** The state setters [Index] passes as callbacks, applied to the calls a
    handler made. *)
Definition applyCalls (c : FilterCalls) (st : IndexState) : IndexState :=
  mkIndex
    (match minMagnitudeChange c with Some v => v | None => ixMinMagnitude st end)
    (match timeWindowChange c with Some v => v | None => ixTimeWindow st end)
    (match dateRangeChange c with Some v => v | None => ixDateRange st end)
    (match magRangeChange c with Some v => v | None => ixMagRange st end)
    (ixDepthRange st) (ixMaxCount st) (ixFlyTo st) (ixMapKey st).

(** One geocoder result ([arr[0]]); [boundingbox] is [None] when it is not
    an array. *)
Record Hit : Set := mkHit {
  hitLat : string;
  hitLon : string;
  hitType : string;
  boundingbox : option (list string)
}.

Inductive GeoRequest : Set :=
| NominatimSearch (q : string)
| MapsCoSearch (q : string).

(** What a geocoder does with a request; [arr] is [None] when the body is
    not an array. *)
Inductive GeoResponse : Set :=
| GeoThrown
| GeoNotOk
| GeoJson (arr : option (list Hit)).

(** What the map is told to do. *)
Inductive MapCommand : Set :=
| FitBounds (south west north east : float)
| SetView (lat lng zoom : float).

(** How a run of the [flyTo] effect ends: the map is left alone; Leaflet's
    [LatLng] refuses a coordinate and throws; or the map is told where to
    go, with coordinates that [LatLng] accepts. *)
Inductive FlyOutcome : Set :=
| NotMoved
| InvalidLatLng
| Told (c : MapCommand).

(** Leaflet's [LatLng] constructor, through which [L.latLngBounds] and
    [setView] pass every corner and centre they are given: it throws
    [Invalid LatLng object] when [isNaN(lat) || isNaN(lng)]. *)
Definition validLatLng (lat lng : float) : bool :=
  negb (is_nan lat || is_nan lng).

(** The [flyTo] effect of [EarthquakeMap]; [mapRef] tells whether the map
    exists.  The corners are built, and may throw, before [fitBounds] is
    called. *)
Definition flyToEffect (mapRef : bool) (flyTo : option FlyTo) : FlyOutcome :=
  if negb mapRef then NotMoved
  else
    match flyTo with
    | None => NotMoved
    | Some f =>
        match flyBbox f with
        | Some [b0; b1; b2; b3] =>
            if validLatLng b1 b0 && validLatLng b3 b2
            then Told (FitBounds b1 b0 b3 b2)
            else InvalidLatLng
        | _ =>
            match flyLat f, flyLng f with
            | Some lat, Some lng =>
                if validLatLng lat lng
                then Told (SetView lat lng
                             (match flyZoom f with Some z => z | None => 5%float end))
                else InvalidLatLng
            | _, _ => NotMoved
            end
        end
    end.

Section RegionSearch.

(** [parseFloat] and [String.prototype.trim]. *)
Variable parseFloat : string -> float.
Variable trim : string -> string.
Variable geocode : GeoRequest -> GeoResponse.

(** [tryGeocode(url)]: [None] when it throws, [Some None] when it returns
    [null]. *)
Definition tryGeocode (url : GeoRequest) : option (option FlyTo) :=
  match geocode url with
  | GeoThrown => None
  | GeoNotOk => Some None
  | GeoJson None => Some None
  | GeoJson (Some []) => Some None
  | GeoJson (Some (hit :: _)) =>
      match boundingbox hit with
      | Some [south; north; west; east] =>
          Some (Some (mkFlyTo None None None
                        (Some [parseFloat west; parseFloat south;
                               parseFloat east; parseFloat north])))
      | _ =>
          Some (Some (mkFlyTo (Some (parseFloat (hitLat hit)))
                              (Some (parseFloat (hitLon hit)))
                              (Some (if String.eqb (hitType hit) "country"
                                     then 4%float else 6%float))
                              None))
      end
  end.

(** [onRegionSearch(q)]: the requests sent and the state left. *)
Definition onRegionSearch (q : option string) (st : IndexState)
  : list GeoRequest * IndexState :=
  let query := trim (match q with Some s => s | None => EmptyString end) in
  if String.eqb query EmptyString then ([], st)
  else
    let found (r : FlyTo) :=
      mkIndex (ixMinMagnitude st) (ixTimeWindow st) (ixDateRange st)
              (ixMagRange st) (ixDepthRange st) (ixMaxCount st)
              (Some r) (ixMapKey st + 1) in
    match tryGeocode (NominatimSearch query) with
    | None => ([NominatimSearch query], st)
    | Some (Some r) => ([NominatimSearch query], found r)
    | Some None =>
        match tryGeocode (MapsCoSearch query) with
        | Some (Some r) => ([NominatimSearch query; MapsCoSearch query], found r)
        | _ => ([NominatimSearch query; MapsCoSearch query], st)
        end
    end.

End RegionSearch.

(* ================================================================== *)
(** * Plate boundaries and the marker click of [EarthquakeMap] *)
(* ================================================================== *)

Section Plates.

(** The overlay data: any JSON value; [truthy] is JavaScript's truthiness
    of it ([false] for [null], [0], [false] and the empty string). *)
Variable PlateData : Type.
Variable truthy : PlateData -> bool.

(** What the overlay service does: throws, answers not-ok, or gives data. *)
Inductive PlateResponse : Type :=
| PlateThrown
| PlateNotOk
| PlateJson (gj : PlateData).

(** [plateData] counts as loaded when it is truthy; [None] is the initial
    [null]. *)
Definition loaded (plateData : option PlateData) : bool :=
  match plateData with
  | Some gj => truthy gj
  | None => false
  end.

(** One run of the plate effect with its [fetchPlates]: whether a request
    was sent, and the [plateData] state left. *)
Definition fetchPlates (showPlates : bool) (plateData : option PlateData)
           (cancelled : bool) (answer : PlateResponse)
  : bool * option PlateData :=
  if negb showPlates || loaded plateData then (false, plateData)
  else
    (true,
     match answer with
     | PlateJson gj => if cancelled then plateData else Some gj
     | _ => plateData
     end).

(** The effect run once per render in [steps], each with the current
    [showPlates], whether it is cancelled before the answer arrives, and
    the answer it would get: requests sent so far, and the state. *)
Fixpoint plateRuns (steps : list (bool * bool * PlateResponse))
         (sent : nat) (plateData : option PlateData) : nat * option PlateData :=
  match steps with
  | [] => (sent, plateData)
  | (showPlates, cancelled, answer) :: rest =>
      let '(asked, pd) := fetchPlates showPlates plateData cancelled answer in
      plateRuns rest (if asked then S sent else sent) pd
  end.

End Plates.

Arguments PlateThrown {PlateData}.
Arguments PlateNotOk {PlateData}.
Arguments PlateJson {PlateData}.

Section MarkerClick.

Variable math : MathLib.

(** The regional query of the click handler. *)
Record RegionalQuery : Type := mkRegional {
  regLatitude : float;
  regLongitude : float;
  maxradiuskm : Z;
  regLimit : Z;
  orderby : string
}.

Inductive RegionalResponse : Type :=
| RegionalThrown
| RegionalNotOk
| RegionalJson (features : option (list Feature)).

(** The dialog state written by the click handler. *)
Record InsightsState : Type := mkInsights {
  selectedEq : option Feature;
  insightsOpen : bool;
  nearestState : option (list Feature)
}.

Variable regional : RegionalQuery -> RegionalResponse.

(** The [click] handler of a marker. *)
Definition markerClick (earthquake : Feature) (s : InsightsState)
  : list RegionalQuery * InsightsState :=
  let q := mkRegional (latitude earthquake) (longitude earthquake) 500 200 "time" in
  ([q],
   mkInsights (Some earthquake) true
     (match regional q with
      | RegionalJson data =>
          Some (nearestFromApi math earthquake
                  (match data with Some l => l | None => [] end))
      | _ => None
      end)).

(** The rows of the dialog: [InsightsTable] over
    [nearestFromApi ?? earthquakes], shown when an event is selected. *)
Definition dialogRows (s : InsightsState) (earthquakes : list Feature)
  : option (list Row) :=
  match selectedEq s with
  | Some base =>
      Some (InsightsTable_rows math base
              (match nearestState s with Some l => l | None => earthquakes end))
  | None => None
  end.

End MarkerClick.

(* ================================================================== *)
(** * Vocabulary of the further statements *)
(* ================================================================== *)

(** Texts without the letter T. *)
Fixpoint noT (s : string) : bool :=
  match s with
  | EmptyString => true
  | String c s' => negb (Ascii.eqb c "T") && noT s'
  end.

(** Lexicographic comparison of calendar dates. *)
Definition IsoDate_compare (a b : IsoDate) : comparison :=
  match isoYear a ?= isoYear b with
  | Eq => match isoMonth a ?= isoMonth b with
          | Eq => isoDay a ?= isoDay b
          | c => c
          end
  | c => c
  end.

(** The month (from 0) of the [n]-th day (from 0) of a year. *)
Definition monthOfDay (leap n : Z) : Z :=
  if n <? 31 then 0
  else if n <? 59 + leap then 1
  else if n <? 90 + leap then 2
  else if n <? 120 + leap then 3
  else if n <? 151 + leap then 4
  else if n <? 181 + leap then 5
  else if n <? 212 + leap then 6
  else if n <? 243 + leap then 7
  else if n <? 273 + leap then 8
  else if n <? 304 + leap then 9
  else if n <? 334 + leap then 10
  else 11.

(** Time values of the years 0 to 9999, whose ISO text has a four-digit
    year. *)
Definition fourDigitYear (t : Z) : Prop := 0 <= YearFromTime t <= 9999.

(** The number of events of [data] on the day with text [day]. *)
Definition eventsOn (day : string) (data : list VisFeature) : Z :=
  Z.of_nat (length (filter (fun f => String.eqb (dayOf f) day) data)).

(** The number of events of [data] on the UTC day [d], days counted from
    the epoch. *)
Definition eventsOnDay (d : Z) (data : list VisFeature) : Z :=
  Z.of_nat (length (filter (fun f => Day (vtime f) =? d) data)).

(** The sum of the counts of a table. *)
Definition total (c : list (string * Z)) : Z :=
  fold_right (fun kv acc => snd kv + acc) 0 c.

(** Rows in strictly ascending order of their labels. *)
Definition ascending (rows : list (string * Z)) : Prop :=
  StronglySorted (fun a b => String.ltb (fst a) (fst b) = true) rows.

(** Rows in chronological order: of two rows, the events of [data] that
    give the earlier row its label are on an earlier UTC day than those
    that give the later row its label. *)
Definition chronological (data : list VisFeature) (rows : list (string * Z))
  : Prop :=
  StronglySorted
    (fun a b => forall f g, In f data -> In g data ->
                            dayOf f = fst a -> dayOf g = fst b ->
                            Day (vtime f) < Day (vtime g))
    rows.

(** Four events on three days, not in order of time: 2024-03-01 12:34,
    2024-02-29 12:34, 2024-01-01 00:00 and 2024-03-01 00:00 UTC. *)
Definition sampleDays : list VisFeature :=
  [mkVisFeature 3 1709296496789; mkVisFeature 1.5 1709210096789;
   mkVisFeature 2 1704067200000; mkVisFeature 5 1709251200000].

(** The same props with another [minMagnitude]. *)
Definition withMinMagnitude (v : float) (p : EarthquakeMapProps)
  : EarthquakeMapProps :=
  mkProps v (timeWindow p) (dateRange p) (magRange p) (depthRange p)
          (maxCount p) (onEarthquakeCountUpdate p).

(** [parseFloat] at the texts of a sample hit; NaN for any other text, as
    for one that does not start with a number. *)
Definition sampleParseFloat (s : string) : float :=
  if String.eqb s "24.5" then 24.5%float
  else if String.eqb s "45.5" then 45.5%float
  else if String.eqb s "122.75" then 122.75%float
  else if String.eqb s "153.75" then 153.75%float
  else if String.eqb s "36.5" then 36.5%float
  else if String.eqb s "138.25" then 138.25%float
  else nan.

(** A hit with a bounding box [[south, north, west, east]], and one whose
    box has a text that is no number. *)
Definition sampleHit : Hit :=
  mkHit "36.5" "138.25" "country" (Some ["24.5"; "45.5"; "122.75"; "153.75"]%string).
Definition brokenHit : Hit :=
  mkHit "36.5" "138.25" "country" (Some ["24.5"; "north"; "122.75"; "153.75"]%string).

(* ================================================================== *)
(** * Calendar facts *)
(* ================================================================== *)

Lemma DayFromYear_succ (y : Z) :
  DayFromYear (y + 1) = DayFromYear y + DaysInYear y.
Proof.
  unfold DayFromYear, DaysInYear, isLeapYear.
  destruct (y mod 4 =? 0) eqn:H4; destruct (y mod 100 =? 0) eqn:H100;
    destruct (y mod 400 =? 0) eqn:H400; cbn [negb];
    rewrite ?Z.eqb_eq, ?Z.eqb_neq in *;
    Z.div_mod_to_equations; lia.
Qed.

(** [YearFromDay d] is the year whose days contain day number [d]. *)
Lemma YearFromDay_spec (d : Z) :
  DayFromYear (YearFromDay d) <= d < DayFromYear (YearFromDay d + 1).
Proof.
  unfold YearFromDay.
  set (y := 1970 + 400 * d / 146097).
  destruct (d <? DayFromYear y) eqn:H1;
    [ | destruct (DayFromYear (y + 1) <=? d) eqn:H2 ];
    rewrite ?Z.ltb_lt, ?Z.ltb_ge, ?Z.leb_le, ?Z.leb_gt in *.
  - replace (y - 1 + 1) with y by lia. split; [ | lia ].
    clear H1. subst y. unfold DayFromYear. Z.div_mod_to_equations. lia.
  - split; [ lia | ].
    clear H1 H2. subst y. unfold DayFromYear. Z.div_mod_to_equations. lia.
  - lia.
Qed.

Lemma DayWithinYear_range (t : Z) :
  0 <= DayWithinYear t < DaysInYear (YearFromTime t).
Proof.
  unfold DayWithinYear, YearFromTime.
  pose proof (YearFromDay_spec (Day t)) as H.
  rewrite DayFromYear_succ in H. lia.
Qed.

Lemma MonthFromTime_range (t : Z) : 0 <= MonthFromTime t <= 11.
Proof.
  unfold MonthFromTime.
  repeat match goal with
         | |- context [if ?b then _ else _] => destruct b
         end; lia.
Qed.

Lemma DateFromTime_range (t : Z) : 1 <= DateFromTime t <= 31.
Proof.
  pose proof (DayWithinYear_range t) as H.
  unfold DateFromTime, MonthFromTime, monthStart, InLeapYear, DaysInYear in *.
  destruct (isLeapYear (YearFromTime t));
    repeat match goal with
           | |- context [if ?a <? ?b then _ else _] =>
               destruct (Z.ltb_spec a b)
           end; cbn; lia.
Qed.

(** The calendar fields of a time value give back its day number. *)
Lemma MakeDay_fields (t : Z) :
  MakeDay (YearFromTime t) (MonthFromTime t) (DateFromTime t) = Day t.
Proof.
  pose proof (MonthFromTime_range t) as Hm.
  unfold MakeDay.
  rewrite Z.div_small, Z.mod_small, Z.add_0_r by lia.
  unfold DateFromTime, InLeapYear, DayWithinYear. lia.
Qed.

Lemma MakeDay_date (y m d k : Z) : MakeDay y m (d + k) = MakeDay y m d + k.
Proof. unfold MakeDay. lia. Qed.

Lemma daysInMonth_range (y m : Z) :
  0 <= m <= 11 -> 28 <= daysInMonth y m <= 31.
Proof.
  intros Hm. unfold daysInMonth, MakeDay.
  assert (Hc : m = 11 \/ 0 <= m <= 10) by lia.
  destruct Hc as [-> | Hc].
  - change ((11 + 1) / 12) with 1. change ((11 + 1) mod 12) with 0.
    change (11 / 12) with 0. change (11 mod 12) with 11.
    change (monthStart (if isLeapYear (y + 1) then 1 else 0) 0) with 0.
    rewrite !Z.add_0_r, DayFromYear_succ. unfold DaysInYear.
    change (monthStart (if isLeapYear y then 1 else 0) 11)
      with (334 + (if isLeapYear y then 1 else 0)).
    destruct (isLeapYear y); lia.
  - rewrite !Z.div_small, !Z.mod_small, Z.add_0_r by lia.
    unfold monthStart.
    destruct (isLeapYear y);
      repeat match goal with
             | |- context [if ?a <=? ?b then _ else _] =>
                 destruct (Z.leb_spec a b)
             | |- context [if ?a =? ?b then _ else _] =>
                 destruct (Z.eqb_spec a b)
             end; lia.
Qed.

Lemma MakeDay_next_month (y m d : Z) :
  MakeDay y (m + 1) d = MakeDay y m d + daysInMonth y m.
Proof. unfold daysInMonth, MakeDay. lia. Qed.

Lemma Day_split (t : Z) : MakeDate (Day t) (TimeWithinDay t) = t.
Proof.
  unfold MakeDate, Day, TimeWithinDay, msPerDay.
  pose proof (Z.div_mod t 86400000). lia.
Qed.

(** Known dates: the epoch, a leap day given by its time value, the day
    before the epoch, and century years. *)
Example formatDate_known :
  formatDate 0 = mkIsoDate 1970 1 1
  /\ formatDate 1709164800000 = mkIsoDate 2024 2 29
  /\ formatDate (-1) = mkIsoDate 1969 12 31
  /\ formatDate (utcMidnight 1900 3 1 - 1) = mkIsoDate 1900 2 28
  /\ formatDate (utcMidnight 2000 3 1 - 1) = mkIsoDate 2000 2 29
  /\ utcMidnight 2024 1 1 = 1704067200000.
Proof. vm_compute. repeat split. Qed.

(** [setMonth] carries a day that the target month does not have into the
    next month, and December into January. *)
Example setMonth_overflow :
  formatDate (setMonth 0 (utcMidnight 2023 1 31) 1) = mkIsoDate 2023 3 3
  /\ formatDate (setMonth 0 (utcMidnight 2024 1 31) 1) = mkIsoDate 2024 3 2
  /\ formatDate (setMonth 0 (utcMidnight 2023 12 15) 12) = mkIsoDate 2024 1 15
  /\ formatDate (setDate 0 (utcMidnight 2023 12 31) 32) = mkIsoDate 2024 1 1.
Proof. vm_compute. repeat split. Qed.

(** [formatDate] prints the UTC date, the getters read local time: local
    midnight of 2024-01-01 at UTC+05:30 is still 2023-12-31 in UTC. *)
Example formatDate_is_utc :
  let tz := 19800000 in
  let d := UTC tz (utcMidnight 2024 1 1) in
  (getFullYear tz d, getMonth tz d, getDate tz d) = (2024, 0, 1)
  /\ formatDate d = mkIsoDate 2023 12 31.
Proof. vm_compute. split; reflexivity. Qed.

Section LocalTimeFacts.

Variable LocalTZA : Z.

(** [d.setDate(d.getDate() + 1)] is one day later. *)
Lemma setDate_next (d : Date) :
  setDate LocalTZA d (getDate LocalTZA d + 1) = d + msPerDay.
Proof.
  unfold setDate, getDate, UTC.
  rewrite MakeDay_date, MakeDay_fields.
  pose proof (Day_split (LocalTime LocalTZA d)) as H.
  unfold MakeDate, LocalTime in *. lia.
Qed.

(** [d.setMonth(d.getMonth() + 1)] is one month length later. *)
Lemma setMonth_next (d : Date) :
  setMonth LocalTZA d (getMonth LocalTZA d + 1)
  = d + daysInMonth (getFullYear LocalTZA d) (getMonth LocalTZA d) * msPerDay.
Proof.
  unfold setMonth, getMonth, getFullYear, UTC.
  rewrite MakeDay_next_month, MakeDay_fields.
  pose proof (Day_split (LocalTime LocalTZA d)) as H.
  unfold MakeDate, LocalTime in *. lia.
Qed.

Lemma setMonth_next_bounds (d : Date) :
  d + 28 * msPerDay <= setMonth LocalTZA d (getMonth LocalTZA d + 1)
  <= d + 31 * msPerDay.
Proof.
  rewrite setMonth_next.
  pose proof (daysInMonth_range (getFullYear LocalTZA d) (getMonth LocalTZA d)
                (MonthFromTime_range _)).
  unfold msPerDay. lia.
Qed.

End LocalTimeFacts.

(* ================================================================== *)
(** * The chunk loop *)
(* ================================================================== *)

Section LoopFacts.

Variable LocalTZA : Z.
Variable fetch : Request -> Response.
Variable p : EarthquakeMapProps.

Local Abbreviation cEnd := (chunkEndOf LocalTZA).
Local Abbreviation next := (nextStart LocalTZA).
Local Abbreviation req := (requestOf p).
Local Abbreviation loop := (doWhile LocalTZA fetch p).

Lemma nextStart_eq (d : Date) : next d = d + msPerDay.
Proof. apply setDate_next. Qed.

Lemma chunkEndOf_single (endDate cur : Date) : cEnd 0 endDate cur = endDate.
Proof. reflexivity. Qed.

(** In chunk mode the chunk end is the range end, or a whole month after
    the cursor and not past the range end. *)
Lemma chunkEndOf_chunked (endDate cur : Date) :
  (cEnd 1 endDate cur = endDate /\ endDate < cur + 31 * msPerDay)
  \/ (cur + 28 * msPerDay <= cEnd 1 endDate cur <= cur + 31 * msPerDay
      /\ cEnd 1 endDate cur <= endDate).
Proof.
  unfold chunkEndOf. change (1 >? 0) with true. cbv iota.
  pose proof (setMonth_next_bounds LocalTZA cur) as H.
  destruct (Z.gtb_spec (setMonth LocalTZA cur (getMonth LocalTZA cur + 1)) endDate);
    [ left | right ]; lia.
Qed.

(** What the loop did, by the way it ended. *)
Lemma doWhile_outcome (fuel : nat) :
  forall cs endDate cur all sent,
  exists l,
    fst (loop fuel cs endDate cur all sent) = sent ++ l
    /\ chunksFrom LocalTZA cs endDate cur l
    /\ match snd (loop fuel cs endDate cur all sent) with
       | Normal all' =>
           Forall (fun c => failure (fetch (req c)) = None) l
           /\ all' = all ++ flat_map (fun c => featuresOf (fetch (req c))) l
           /\ exists pre c,
               l = pre ++ [c] /\ (cs > 0 -> endDate <= next (chunkEnd c))
       | Throw m =>
           exists pre c,
             l = pre ++ [c]
             /\ Forall (fun c => failure (fetch (req c)) = None) pre
             /\ failure (fetch (req c)) = Some m
       | OutOfFuel =>
           Forall (fun c => failure (fetch (req c)) = None) l
           /\ length l = fuel
       end.
Proof.
  induction fuel as [ | fuel IH ]; intros cs endDate cur all sent.
  - exists []. cbn [doWhile fst snd]. rewrite app_nil_r.
    repeat split; auto. constructor.
  - cbn [doWhile].
    set (c := mkChunk cur (cEnd cs endDate cur)).
    assert (Hc1 : chunksFrom LocalTZA cs endDate cur [c]).
    { apply chain_cons; [ congruence | constructor ]. }
    destruct (fetch (req c)) as [ m | | data ] eqn:Hf.
    + exists [c]. cbn [fst snd]. split; [ reflexivity | ]. split; [ exact Hc1 | ].
      exists [], c. rewrite Hf. auto.
    + exists [c]. cbn [fst snd]. split; [ reflexivity | ]. split; [ exact Hc1 | ].
      exists [], c. rewrite Hf. auto.
    + assert (Hok : failure (fetch (req c)) = None) by now rewrite Hf.
      assert (Hall : forall a : list Feature,
                 match data with Some (f :: fs) => a ++ f :: fs | _ => a end
                 = a ++ featuresOf (fetch (req c))).
      { intros a. rewrite Hf. destruct data as [ [ | f fs ] | ]; cbn;
          now rewrite ?app_nil_r. }
      rewrite Hall.
      assert (Hflat : all ++ featuresOf (fetch (req c))
                      = all ++ flat_map (fun c => featuresOf (fetch (req c))) [c]).
      { cbn. now rewrite app_nil_r. }
      destruct (Z.gtb_spec cs 0) as [Hcs | Hcs].
      * destruct (Z.ltb_spec (next (chunkEnd c)) endDate) as [Hlt | Hge].
        -- destruct (IH cs endDate (next (chunkEnd c))
                       (all ++ featuresOf (fetch (req c))) (sent ++ [c]))
             as (l & Hl & Hch & Hr).
           exists (c :: l). rewrite Hl, <- app_assoc. split; [ reflexivity | ].
           split.
           { apply chain_cons; [ intros _; split; [ lia | exact Hlt ] | exact Hch ]. }
           destruct (snd (loop fuel cs endDate (next (chunkEnd c))
                            (all ++ featuresOf (fetch (req c))) (sent ++ [c])))
             as [ all' | m | ].
           ++ destruct Hr as (Hfa & Hall' & pre & c' & -> & Hlast).
              split; [ now constructor | ]. split.
              ** rewrite Hall', <- app_assoc. reflexivity.
              ** exists (c :: pre), c'. split; [ reflexivity | exact Hlast ].
           ++ destruct Hr as (pre & c' & -> & Hpre & Hfail).
              exists (c :: pre), c'. repeat split; auto.
           ++ destruct Hr as (Hfa & Hlen). split; [ now constructor | ].
              cbn [length]. now rewrite Hlen.
        -- exists [c]. cbn [fst snd]. split; [ reflexivity | ].
           split; [ exact Hc1 | ]. split; [ now constructor | ].
           split; [ exact Hflat | ].
           exists [], c. split; [ reflexivity | intros _; exact Hge ].
      * exists [c]. cbn [fst snd]. split; [ reflexivity | ].
        split; [ exact Hc1 | ]. split; [ now constructor | ].
        split; [ exact Hflat | ].
        exists [], c. split; [ reflexivity | lia ].
Qed.

(** Once the loop has ended, more fuel changes nothing. *)
Lemma doWhile_fuel_mono (fuel : nat) :
  forall fuel' cs endDate cur all sent,
  snd (loop fuel cs endDate cur all sent) <> OutOfFuel ->
  (fuel <= fuel')%nat ->
  loop fuel' cs endDate cur all sent = loop fuel cs endDate cur all sent.
Proof.
  induction fuel as [ | fuel IH ]; intros fuel' cs endDate cur all sent Hr Hle.
  - cbn [doWhile snd] in Hr. congruence.
  - destruct fuel' as [ | fuel' ]; [ lia | ].
    cbn [doWhile] in *.
    destruct (fetch (req (mkChunk cur (cEnd cs endDate cur)))); try reflexivity.
    destruct (cs >? 0); try reflexivity.
    destruct (_ <? endDate); try reflexivity.
    apply IH; [ exact Hr | lia ].
Qed.

(** Every pass that is followed by another one moves the cursor by at
    least 29 days, so [fuelBound] passes are enough. *)
Lemma doWhile_fuel_enough (fuel : nat) :
  forall cs endDate cur all sent,
  cs = 0 \/ cs = 1 ->
  (Z.to_nat ((endDate - cur) / (29 * msPerDay)) < fuel)%nat ->
  snd (loop fuel cs endDate cur all sent) <> OutOfFuel.
Proof.
  induction fuel as [ | fuel IH ]; intros cs endDate cur all sent Hcs Hlt.
  - lia.
  - cbn [doWhile].
    destruct (fetch (req (mkChunk cur (cEnd cs endDate cur)))); cbn [snd];
      try discriminate.
    destruct Hcs as [-> | ->].
    + change (0 >? 0) with false. cbv iota. discriminate.
    + change (1 >? 0) with true. cbv iota. cbn [chunkEnd].
      rewrite nextStart_eq.
      destruct (Z.ltb_spec (cEnd 1 endDate cur + msPerDay) endDate) as [Hnext | Hnext];
        [ | discriminate ].
      apply IH; [ now right | ].
      destruct (chunkEndOf_chunked endDate cur) as [ [He _] | [Hb _] ].
      * rewrite He in Hnext. unfold msPerDay in Hnext. lia.
      * revert Hlt Hnext Hb. unfold msPerDay.
        generalize (cEnd 1 endDate cur). intros z Hlt Hnext Hb.
        assert (H1 : (endDate - (z + 86400000)) / (29 * 86400000)
                     <= (endDate - cur) / (29 * 86400000) - 1)
          by (Z.div_mod_to_equations; lia).
        assert (H2 : 0 <= (endDate - (z + 86400000)) / (29 * 86400000))
          by (Z.div_mod_to_equations; lia).
        lia.
Qed.

(** The chunks of the do-while loop in chunk mode. *)
Lemma chunksFrom_chunked_bounds (endDate cur : Date) (l : list Chunk) :
  chunksFrom LocalTZA 1 endDate cur l ->
  cur <= endDate ->
  Forall (fun c => currentStart c <= chunkEnd c <= endDate
                   /\ chunkEnd c - currentStart c <= 31 * msPerDay) l.
Proof.
  induction 1 as [ cur | cur l Hcont Hch IH ]; intros Hle; constructor.
  - cbn [currentStart chunkEnd].
    destruct (chunkEndOf_chunked endDate cur) as [ [He Hb] | [Hb He] ];
      unfold msPerDay in *; lia.
  - destruct l as [ | c l ]; [ constructor | ].
    apply IH. destruct Hcont as [_ Hcont]; [ discriminate | lia ].
Qed.

Lemma chunksFrom_head (cs : Z) (endDate cur : Date) (c : Chunk) (l : list Chunk) :
  chunksFrom LocalTZA cs endDate cur (c :: l) -> currentStart c = cur.
Proof. inversion 1; reflexivity. Qed.

Lemma chunksFrom_consecutive (cs : Z) (endDate cur : Date) (l : list Chunk) :
  chunksFrom LocalTZA cs endDate cur l ->
  forall pre a b post,
    l = pre ++ a :: b :: post -> currentStart b = chunkEnd a + msPerDay.
Proof.
  induction 1 as [ cur | cur l Hcont Hch IH ]; intros pre a b post Heq.
  - destruct pre; discriminate.
  - destruct pre as [ | x pre ]; cbn in Heq.
    + injection Heq as <- ->. apply chunksFrom_head in Hch.
      rewrite Hch. cbn [chunkEnd]. apply nextStart_eq.
    + injection Heq as _ ->. eapply IH. reflexivity.
Qed.

Lemma chunksFrom_chunked_length (endDate cur : Date) (l : list Chunk) :
  chunksFrom LocalTZA 1 endDate cur l ->
  (length l <= fuelBound cur endDate)%nat.
Proof.
  unfold fuelBound.
  induction 1 as [ cur | cur l Hcont Hch IH ]; cbn [length]; [ lia | ].
  destruct l as [ | c l ]; [ cbn; lia | ].
  destruct Hcont as [_ Hnext]; [ discriminate | ].
  cbn [chunkEnd] in *. rewrite nextStart_eq in *.
  destruct (chunkEndOf_chunked endDate cur) as [ [He _] | [Hb _] ].
  - rewrite He in Hnext. unfold msPerDay in Hnext. lia.
  - revert IH Hnext Hb. unfold msPerDay.
    generalize (cEnd 1 endDate cur). intros z IH Hnext Hb.
    assert (H1 : (endDate - (z + 86400000)) / (29 * 86400000)
                 <= (endDate - cur) / (29 * 86400000) - 1)
      by (Z.div_mod_to_equations; lia).
    assert (H2 : 0 <= (endDate - (z + 86400000)) / (29 * 86400000))
      by (Z.div_mod_to_equations; lia).
    lia.
Qed.

(** A pass moves the cursor by at most 32 days. *)
Lemma chunksFrom_chunked_reach (endDate cur : Date) (l : list Chunk) :
  chunksFrom LocalTZA 1 endDate cur l ->
  Forall (fun c => chunkEnd c + msPerDay
                   <= cur + Z.of_nat (length l) * (32 * msPerDay)) l.
Proof.
  induction 1 as [ cur | cur l Hcont Hch IH ]; constructor.
  - cbn [chunkEnd length].
    destruct (chunkEndOf_chunked endDate cur) as [ [He Hb] | [Hb He] ];
      unfold msPerDay in *; lia.
  - eapply Forall_impl; [ | exact IH ]. cbv beta. intros c Hc.
    rewrite nextStart_eq in Hc. cbn [length].
    destruct (chunkEndOf_chunked endDate cur) as [ [He Hb] | [Hb He] ];
      unfold msPerDay in *; lia.
Qed.

Lemma Day_next (d : Date) : Day (d + msPerDay) = Day d + 1.
Proof. unfold Day, msPerDay. Z.div_mod_to_equations. lia. Qed.

Lemma Day_mono (a b : Date) : a <= b -> Day a <= Day b.
Proof. unfold Day, msPerDay. intros H. Z.div_mod_to_equations. lia. Qed.

(** The chunks leave no day out between the cursor and the end of the
    last chunk. *)
Lemma chunksFrom_covers (cs : Z) (endDate cur : Date) (l : list Chunk) (c0 : Chunk) :
  chunksFrom LocalTZA cs endDate cur l ->
  l <> [] ->
  coversDays (Day cur) (Day (chunkEnd (last l c0))) l.
Proof.
  induction 1 as [ cur | cur l Hcont Hch IH ]; intros Hne; [ congruence | ].
  intros d Hd. destruct l as [ | c l ].
  - cbn [last] in Hd. eexists. split; [ left; reflexivity | exact Hd ].
  - change (last (mkChunk cur (cEnd cs endDate cur) :: c :: l) c0)
      with (last (c :: l) c0) in Hd.
    destruct (Z.le_gt_cases d (Day (cEnd cs endDate cur))) as [Hle | Hgt].
    + eexists. split; [ left; reflexivity | ]. cbn [currentStart chunkEnd]. lia.
    + destruct (IH ltac:(discriminate) d) as (c' & Hin & Hc').
      * rewrite nextStart_eq, Day_next. lia.
      * exists c'. split; [ now right | exact Hc' ].
Qed.

Lemma chunksFrom_single (endDate cur : Date) (l : list Chunk) :
  chunksFrom LocalTZA 0 endDate cur l ->
  l = [] \/ l = [mkChunk cur endDate].
Proof.
  inversion 1 as [ | cur' l' Hcont Hch ]; [ now left | right ].
  destruct l' as [ | c l' ]; [ reflexivity | ].
  destruct Hcont as [Hcs _]; [ discriminate | lia ].
Qed.

(** The [try] block, by the way it ended (date-range branch). *)
Lemma tryBlock_range (fuel : nat) (startDate endDate : Date) :
  dateRange p = (Some startDate, Some endDate) ->
  exists l,
    fst (tryBlock LocalTZA fetch p fuel) = map req l
    /\ chunksFrom LocalTZA (chunkSizeOf LocalTZA startDate endDate)
                  endDate startDate l
    /\ match snd (tryBlock LocalTZA fetch p fuel) with
       | Normal filtered =>
           Forall (fun c => failure (fetch (req c)) = None) l
           /\ filtered
              = filterRange p (flat_map (fun c => featuresOf (fetch (req c))) l)
           /\ l <> []
       | Throw m =>
           exists pre c,
             l = pre ++ [c]
             /\ Forall (fun c => failure (fetch (req c)) = None) pre
             /\ failure (fetch (req c)) = Some m
       | OutOfFuel => length l = fuel
       end.
Proof.
  intros Hp. unfold tryBlock. rewrite Hp.
  destruct (doWhile_outcome fuel (chunkSizeOf LocalTZA startDate endDate)
              endDate startDate [] []) as (l & Hl & Hch & Hr).
  destruct (loop fuel (chunkSizeOf LocalTZA startDate endDate)
                 endDate startDate [] []) as [sent r].
  cbn [fst snd] in *. subst sent. exists l. cbn [app].
  split; [ reflexivity | ]. split; [ exact Hch | ].
  destruct r as [ all' | m | ].
  - destruct Hr as (Hfa & -> & pre & c & -> & _). repeat split; auto.
    destruct pre; discriminate.
  - exact Hr.
  - apply Hr.
Qed.

(** The [try] block of the feed branch. *)
Lemma tryBlock_feed (fuel : nat) :
  (forall startDate endDate, dateRange p <> (Some startDate, Some endDate)) ->
  tryBlock LocalTZA fetch p fuel
  = (let url := SummaryFeed (feedFile (timeWindow p)) in
     ([url],
      match failure (fetch url) with
      | Some m => Throw m
      | None =>
          Normal (filterFeed p
                    (match fetch url with Json (Some l) => l | _ => [] end))
      end)).
Proof.
  intros Hp. unfold tryBlock.
  destruct (dateRange p) as [ [ s | ] [ e | ] ];
    try (now destruct (fetch (SummaryFeed (feedFile (timeWindow p))))).
  now elim (Hp s e).
Qed.

End LoopFacts.

Lemma Day_span (a b : Date) :
  a <= b -> b - a <= 31 * msPerDay -> 0 <= Day b - Day a <= 31.
Proof.
  unfold Day, msPerDay. intros H1 H2. Z.div_mod_to_equations. lia.
Qed.

Lemma chunkSizeOf_cases (tz : Z) (startDate endDate : Date) :
  (chunkSizeOf tz startDate endDate = 1 /\ monthDiff tz startDate endDate > 1)
  \/ (chunkSizeOf tz startDate endDate = 0 /\ monthDiff tz startDate endDate <= 1).
Proof.
  unfold chunkSizeOf.
  destruct (Z.gtb_spec (monthDiff tz startDate endDate) 1); [ left | right ];
    split; try reflexivity; lia.
Qed.

(* ================================================================== *)
(** * The orchestrator *)
(* ================================================================== *)





(** The scenario of the specification: the range 2024-01-01 .. 2024-04-10
    is fetched in four requests, the last one ending on 2024-04-10. *)
Example four_chunks :
  option_map issued
    (fetchEarthquakes 0 emptyService
       (indexProps (Some (utcMidnight 2024 1 1), Some (utcMidnight 2024 4 10)))
       4 initialState)
  = Some [QueryRange (mkIsoDate 2024 1 1) (mkIsoDate 2024 2 1) 0 10 10000;
          QueryRange (mkIsoDate 2024 2 2) (mkIsoDate 2024 3 2) 0 10 10000;
          QueryRange (mkIsoDate 2024 3 3) (mkIsoDate 2024 4 3) 0 10 10000;
          QueryRange (mkIsoDate 2024 4 4) (mkIsoDate 2024 4 10) 0 10 10000].
Proof. vm_compute. reflexivity. Qed.

(** A range of 58 days within two adjacent calendar months is fetched in
    one request. *)
Example adjacent_months_single_request :
  monthDiff 0 (utcMidnight 2023 1 1) (utcMidnight 2023 2 28) = 1%Z
  /\ option_map issued
       (fetchEarthquakes 0 emptyService
          (indexProps (Some (utcMidnight 2023 1 1), Some (utcMidnight 2023 2 28)))
          1 initialState)
     = Some [QueryRange (mkIsoDate 2023 1 1) (mkIsoDate 2023 2 28) 0 10 10000].
Proof. vm_compute. split; reflexivity. Qed.




(** With [fuelFor p] passes of fuel every call of [fetchEarthquakes]
    completes. *)
Lemma fetchEarthquakes_runs
  (tz : Z) (fetch : Request -> Response) (p : EarthquakeMapProps)
  (fuel : nat) (s : MapState) :
  (fuelFor p <= fuel)%nat ->
  exists run, fetchEarthquakes tz fetch p fuel s = Some run.
Proof.
  intros Hfuel. unfold fetchEarthquakes, tryBlock. unfold fuelFor in Hfuel.
  destruct (dateRange p) as [ [ startDate | ] [ endDate | ] ];
    try solve [ destruct (fetch (SummaryFeed (feedFile (timeWindow p))));
                eexists; reflexivity ].
  assert (Hend : snd (doWhile tz fetch p fuel (chunkSizeOf tz startDate endDate)
                        endDate startDate [] []) <> OutOfFuel).
  { apply doWhile_fuel_enough.
    - destruct (chunkSizeOf_cases tz startDate endDate) as [ [H _] | [H _] ]; auto.
    - unfold fuelBound in Hfuel. lia. }
  destruct (doWhile tz fetch p fuel (chunkSizeOf tz startDate endDate)
              endDate startDate [] []) as [sent [ all | m | ] ];
    cbn [snd] in Hend; [ eexists; reflexivity | eexists; reflexivity | congruence ].
Qed.

(** A run in which a request failed. *)
Lemma failure_aborts
  (tz : Z) (fetch : Request -> Response) (p : EarthquakeMapProps)
  (fuel : nat) (s : MapState) (run : Run) :
  fetchEarthquakes tz fetch p fuel s = Some run ->
  (exists r, In r (issued run) /\ failure (fetch r) <> None) ->
  exists pre r m,
    issued run = pre ++ [r]
    /\ Forall (fun q => failure (fetch q) = None) pre
    /\ failure (fetch r) = Some m
    /\ error (state run) = Some (errorMessage m)
    /\ loading (state run) = false
    /\ earthquakes (state run) = earthquakes s
    /\ countUpdates run = [].
Proof.
  intros Hrun (r & Hin & Hfail).
  unfold fetchEarthquakes in Hrun.
  assert (Hcases :
    (exists startDate endDate, dateRange p = (Some startDate, Some endDate))
    \/ (forall startDate endDate, dateRange p <> (Some startDate, Some endDate))).
  { destruct (dateRange p) as [ [ a | ] [ b | ] ]; eauto; right; congruence. }
  destruct Hcases as [ (startDate & endDate & Hp) | Hp ].
  - destruct (tryBlock_range tz fetch p fuel startDate endDate Hp)
      as (l & Hl & _ & Hr).
    destruct (tryBlock tz fetch p fuel) as [reqs res]. cbn [fst snd] in *.
    subst reqs. destruct res as [ filtered | m | ]; [ | | discriminate ].
    + exfalso. injection Hrun as <-. cbn [issued] in Hin.
      destruct Hr as (Hok & _). apply in_map_iff in Hin.
      destruct Hin as (c & <- & Hc). rewrite Forall_forall in Hok.
      apply Hfail. now apply Hok.
    + injection Hrun as <-. cbn [issued state countUpdates].
      destruct Hr as (pre & c & -> & Hpre & Hc).
      exists (map (requestOf p) pre), (requestOf p c), m.
      rewrite map_app. cbn [map]. repeat split; auto.
      now apply Forall_map.
  - rewrite (tryBlock_feed tz fetch p fuel Hp) in Hrun. cbv zeta in Hrun.
    destruct (failure (fetch (SummaryFeed (feedFile (timeWindow p)))))
      as [ m | ] eqn:Hm.
    + injection Hrun as <-. cbn [issued state countUpdates].
      exists [], (SummaryFeed (feedFile (timeWindow p))), m.
      repeat split; auto.
    + exfalso. injection Hrun as <-. cbn [issued] in Hin.
      destruct Hin as [ <- | [] ]. now apply Hfail.
Qed.

(** C7.  With fuel for every pass, [fetchEarthquakes] completes, and if
    any request it issued fails (the response is not ok, or [fetch] /
    [json()] throws), the failing request is the last one issued and every
    earlier one had succeeded (nothing is retried or sent after the
    failure); the error state carries the failure's message, [loading] is
    reset, the working set [earthquakes] is left exactly as it was before
    the call (the events of the chunks already fetched are dropped), and no
    count is reported. *)
Theorem fetchEarthquakes_failure
  (tz : Z) (fetch : Request -> Response) (p : EarthquakeMapProps)
  (fuel : nat) (s : MapState) :
  (fuelFor p <= fuel)%nat ->
  exists run,
    fetchEarthquakes tz fetch p fuel s = Some run
    /\ ((exists r, In r (issued run) /\ failure (fetch r) <> None) ->
        exists pre r m,
          issued run = pre ++ [r]
          /\ Forall (fun q => failure (fetch q) = None) pre
          /\ failure (fetch r) = Some m
          /\ error (state run) = Some (errorMessage m)
          /\ loading (state run) = false
          /\ earthquakes (state run) = earthquakes s
          /\ countUpdates run = []).
Proof.
  intros Hfuel.
  destruct (fetchEarthquakes_runs tz fetch p fuel s Hfuel) as (run & Hrun).
  exists run. split; [ exact Hrun | ].
  now apply (failure_aborts tz fetch p fuel s run).
Qed.

Lemma fetchEarthquakes_failure_witness :
  (fuelFor (indexProps (Some (utcMidnight 2024 1 1), Some (utcMidnight 2024 4 10)))
   <= 4)%nat
  /\ fetchEarthquakes 0 secondChunkFails
       (indexProps (Some (utcMidnight 2024 1 1), Some (utcMidnight 2024 4 10)))
       4 initialState = Some failedRun
  /\ exists pre r m,
       issued failedRun = pre ++ [r]
       /\ Forall (fun q => failure (secondChunkFails q) = None) pre
       /\ failure (secondChunkFails r) = Some m
       /\ error (state failedRun) = Some (errorMessage m)
       /\ loading (state failedRun) = false
       /\ earthquakes (state failedRun) = earthquakes initialState
       /\ countUpdates failedRun = [].
Proof.
  assert (Hfuel : (fuelFor (indexProps (Some (utcMidnight 2024 1 1),
                                        Some (utcMidnight 2024 4 10))) <= 4)%nat)
    by (vm_compute; apply le_n).
  assert (Hrun : fetchEarthquakes 0 secondChunkFails
                   (indexProps (Some (utcMidnight 2024 1 1),
                                Some (utcMidnight 2024 4 10)))
                   4 initialState = Some failedRun)
    by (vm_compute; reflexivity).
  split; [ exact Hfuel | ]. split; [ exact Hrun | ].
  destruct (fetchEarthquakes_failure 0 secondChunkFails
              (indexProps (Some (utcMidnight 2024 1 1), Some (utcMidnight 2024 4 10)))
              4 initialState Hfuel) as (run & Hrun' & Hfail).
  rewrite Hrun in Hrun'. injection Hrun' as <-.
  apply Hfail.
  exists (QueryRange (mkIsoDate 2024 2 2) (mkIsoDate 2024 3 2) 0 10 10000).
  split; [ right; left; reflexivity | vm_compute; discriminate ].
Defined.
(* ================================================================== *)
(** * The filters *)
(* ================================================================== *)

Lemma capCount_incl (p : EarthquakeMapProps) (l : list Feature) :
  incl (capCount p l) l.
Proof.
  unfold capCount. destruct (maxCount p) as [ n | ]; [ | apply incl_refl ].
  destruct (_ && _); [ | apply incl_refl ].
  intros x Hx. rewrite <- (firstn_skipn (Z.to_nat n) l).
  apply in_or_app. now left.
Qed.

Lemma filterDepth_incl (p : EarthquakeMapProps) (l : list Feature) :
  incl (filterDepth p l) l.
Proof.
  unfold filterDepth. destruct (depthRange p) as [ [lo hi] | ];
    [ apply incl_filter | apply incl_refl ].
Qed.

Lemma filterDepth_bounds (p : EarthquakeMapProps) (l : list Feature)
      (lo hi : float) (x : Feature) :
  depthRange p = Some (lo, hi) ->
  In x (filterDepth p l) ->
  (lo <=? depth x)%float = true /\ (depth x <=? hi)%float = true.
Proof.
  unfold filterDepth. intros ->. rewrite filter_In. unfold depthInRange.
  intros [_ H]. now apply andb_true_iff in H.
Qed.

Lemma magnitudeInRange_iff (lo hi : float) (x : Feature) :
  magnitudeInRange lo hi x = true
  <-> exists m, mag x = Some m
                /\ (lo <=? m)%float = true /\ (m <=? hi)%float = true.
Proof.
  unfold magnitudeInRange. destruct (mag x) as [ m | ]; split.
  - intros H. apply andb_true_iff in H. eauto.
  - intros (m' & Hm & H1 & H2). injection Hm as <-. now rewrite H1, H2.
  - discriminate.
  - intros (m' & Hm & _). discriminate.
Qed.

(** What a successful run stores: the date-range branch keeps
    [filterRange] of the chunk results in fetch order, the feed branch
    [filterFeed] of the feed. *)
Lemma fetchEarthquakes_success
  (tz : Z) (fetch : Request -> Response) (p : EarthquakeMapProps)
  (fuel : nat) (s : MapState) (run : Run) :
  fetchEarthquakes tz fetch p fuel s = Some run ->
  error (state run) = None ->
  loading (state run) = false
  /\ countUpdates run
     = (if onEarthquakeCountUpdate p
        then [Z.of_nat (length (earthquakes (state run)))] else [])
  /\ Forall (fun r => failure (fetch r) = None) (issued run)
  /\ earthquakes (state run)
     = match dateRange p with
       | (Some _, Some _) =>
           filterRange p (flat_map (fun r => featuresOf (fetch r)) (issued run))
       | _ =>
           filterFeed p (flat_map (fun r => featuresOf (fetch r)) (issued run))
       end.
Proof.
  intros Hrun Herr. unfold fetchEarthquakes in Hrun.
  assert (Hcases :
    (exists startDate endDate, dateRange p = (Some startDate, Some endDate))
    \/ (forall startDate endDate, dateRange p <> (Some startDate, Some endDate))).
  { destruct (dateRange p) as [ [ a | ] [ b | ] ]; eauto; right; congruence. }
  destruct Hcases as [ (startDate & endDate & Hp) | Hp ].
  - destruct (tryBlock_range tz fetch p fuel startDate endDate Hp)
      as (l & Hl & _ & Hr).
    destruct (tryBlock tz fetch p fuel) as [reqs res]. cbn [fst snd] in *.
    subst reqs. rewrite Hp.
    destruct res as [ filtered | m | ]; [ | | discriminate ].
    + injection Hrun as <-. cbn [issued state countUpdates earthquakes loading
                                 setLoading setEarthquakes].
      destruct Hr as (Hok & -> & _). repeat split.
      * now apply Forall_map.
      * f_equal. clear. induction l as [ | c l IH ]; cbn [flat_map map];
          [ reflexivity | now rewrite IH ].
    + injection Hrun as <-. discriminate Herr.
  - rewrite (tryBlock_feed tz fetch p fuel Hp) in Hrun. cbv zeta in Hrun.
    assert (Hd : match dateRange p with
                 | (Some _, Some _) => False | _ => True end).
    { destruct (dateRange p) as [ [ a | ] [ b | ] ]; auto. now elim (Hp a b). }
    destruct (failure (fetch (SummaryFeed (feedFile (timeWindow p)))))
      as [ m | ] eqn:Hm.
    + injection Hrun as <-. discriminate Herr.
    + injection Hrun as <-. cbn [issued state countUpdates earthquakes loading
                                 setLoading setEarthquakes flat_map].
      rewrite app_nil_r. repeat split.
      * constructor; [ exact Hm | constructor ].
      * destruct (dateRange p) as [ [ a | ] [ b | ] ]; try contradiction;
          f_equal; now destruct (fetch _) as [ | | [ | ] ].
Qed.

(** C1, as the specification states it, fails.  With a date range and the
    magnitude range [0, 5], an event of magnitude 9.5 returned by the
    service ends up in the working set: the date-range branch applies no
    magnitude filter of its own. *)
Lemma range_branch_keeps_magnitude_out_of_range :
  let p := moderateProps (Some (utcMidnight 2024 1 1), Some (utcMidnight 2024 1 15)) in
  exists run,
    fetchEarthquakes 0 greatQuakeService p 1 initialState = Some run
    /\ error (state run) = None
    /\ earthquakes (state run) = [greatQuake]
    /\ filterRange p [greatQuake] = [greatQuake]
    /\ mag greatQuake = Some 9.5%float
    /\ upperMag p = 5%float
    /\ (9.5 <=? 5)%float = false
    /\ magnitudeInRange (lowerMag p) (upperMag p) greatQuake = false.
Proof.
  intros p. eexists. split; [ vm_compute; reflexivity | ].
  repeat split; vm_compute; reflexivity.
Qed.

(** C1, amended.  Both filtering pipelines return a subset of their input,
    and every event they retain satisfies the depth bounds when a depth
    range is configured.  The feed pipeline (named window) moreover retains
    only events with a numeric magnitude within [lowerMag .. upperMag].
    The date-range pipeline is exactly the depth filter followed by the
    cap: it has no magnitude filter, the bounds being sent to the service
    as [minmagnitude] / [maxmagnitude]. *)
Theorem filtering_pipeline_sound (p : EarthquakeMapProps) (raw : list Feature) :
  (incl (filterRange p raw) raw /\ incl (filterFeed p raw) raw)
  /\ (forall lo hi x,
        depthRange p = Some (lo, hi) ->
        In x (filterRange p raw) \/ In x (filterFeed p raw) ->
        (lo <=? depth x)%float = true /\ (depth x <=? hi)%float = true)
  /\ (forall x,
        In x (filterFeed p raw) ->
        exists m, mag x = Some m
                  /\ (lowerMag p <=? m)%float = true
                  /\ (m <=? upperMag p)%float = true)
  /\ filterRange p raw = capCount p (filterDepth p raw).
Proof.
  unfold filterRange, filterFeed.
  split; [ split | split; [ | split; [ | reflexivity ] ] ].
  - eapply incl_tran; [ apply capCount_incl | apply filterDepth_incl ].
  - eapply incl_tran; [ apply capCount_incl | ].
    eapply incl_tran; [ apply filterDepth_incl | apply incl_filter ].
  - intros lo hi x Hd [Hx | Hx]; apply capCount_incl in Hx;
      exact (filterDepth_bounds p _ lo hi x Hd Hx).
  - intros x Hx. apply capCount_incl, filterDepth_incl in Hx.
    apply filter_In in Hx. now apply magnitudeInRange_iff.
Qed.

Lemma capCount_positive (p : EarthquakeMapProps) (l : list Feature) (n : Z) :
  maxCount p = Some n -> 1 <= n -> capCount p l = firstn (Z.to_nat n) l.
Proof.
  intros Hn Hpos. unfold capCount. rewrite Hn.
  destruct (Z.gtb_spec n 0); [ | lia ]. cbn [andb].
  destruct (Z.gtb_spec (Z.of_nat (length l)) n); [ reflexivity | ].
  symmetry. apply firstn_all2. lia.
Qed.

Lemma capCount_off (p : EarthquakeMapProps) (l : list Feature) :
  maxCount p = None \/ (exists n, maxCount p = Some n /\ n <= 0) ->
  capCount p l = l.
Proof.
  unfold capCount. intros [-> | (n & -> & Hn)]; [ reflexivity | ].
  destruct (Z.gtb_spec n 0); [ lia | reflexivity ].
Qed.

(** C4.  The cap is the last step of both pipelines.  With a cap
    [N >= 1] the output is exactly the first [N] elements of the uncapped
    filtered sequence, in the same order, hence of size at most [N]; with
    no cap, or a cap [<= 0], it is the uncapped filtered sequence. *)
Theorem count_cap_is_prefix (p : EarthquakeMapProps) (raw : list Feature) :
  (forall n,
     maxCount p = Some n -> 1 <= n ->
     filterRange p raw = firstn (Z.to_nat n) (filterRange (uncapped p) raw)
     /\ filterFeed p raw = firstn (Z.to_nat n) (filterFeed (uncapped p) raw)
     /\ Z.of_nat (length (filterRange p raw)) <= n
     /\ Z.of_nat (length (filterFeed p raw)) <= n)
  /\ (maxCount p = None \/ (exists n, maxCount p = Some n /\ n <= 0) ->
      filterRange p raw = filterRange (uncapped p) raw
      /\ filterFeed p raw = filterFeed (uncapped p) raw)
  /\ filterRange (uncapped p) raw = filterDepth p raw
  /\ filterFeed (uncapped p) raw
     = filterDepth p (filter (magnitudeInRange (lowerMag p) (upperMag p)) raw).
Proof.
  assert (HR : filterRange (uncapped p) raw = filterDepth p raw) by reflexivity.
  assert (HF : filterFeed (uncapped p) raw
               = filterDepth p
                   (filter (magnitudeInRange (lowerMag p) (upperMag p)) raw))
    by reflexivity.
  rewrite HR, HF. unfold filterRange, filterFeed.
  split; [ | split; [ | split; reflexivity ] ].
  - intros n Hn Hpos. rewrite !(capCount_positive p _ n Hn Hpos).
    repeat split; try reflexivity.
    + pose proof (firstn_le_length (Z.to_nat n) (filterDepth p raw)). lia.
    + pose proof (firstn_le_length (Z.to_nat n)
                    (filterDepth p
                       (filter (magnitudeInRange (lowerMag p) (upperMag p)) raw))).
      lia.
  - intros Hoff. now rewrite !(capCount_off p _ Hoff).
Qed.

(** C5.  In the named-window mode (no complete date range), when the feed
    answers with [fetched], the magnitude filter keeps an event exactly
    when its magnitude is a number [m] with [lower <= m <= upper], where
    [lower] and [upper] are the two ends of [magRange] if it is set and
    [0] and [minMagnitude] otherwise; the working set is the depth filter
    and the cap applied to the events so kept. *)
Theorem feed_magnitude_filter
  (tz : Z) (fetch : Request -> Response) (p : EarthquakeMapProps)
  (fuel : nat) (s : MapState) (fetched : list Feature) :
  (forall startDate endDate, dateRange p <> (Some startDate, Some endDate)) ->
  fetch (SummaryFeed (feedFile (timeWindow p))) = Json (Some fetched) ->
  let lower := match magRange p with Some (lo, _) => lo | None => 0%float end in
  let upper := match magRange p with Some (_, hi) => hi | None => minMagnitude p end in
  exists kept run,
    (forall x, In x kept <->
               In x fetched
               /\ exists m, mag x = Some m
                            /\ (lower <=? m)%float = true
                            /\ (m <=? upper)%float = true)
    /\ kept = filter (magnitudeInRange lower upper) fetched
    /\ fetchEarthquakes tz fetch p fuel s = Some run
    /\ earthquakes (state run) = capCount p (filterDepth p kept).
Proof.
  intros Hp Hf lower upper.
  assert (Hlo : lowerMag p = lower).
  { unfold lowerMag, lower. now destruct (magRange p) as [ [lo hi] | ]. }
  assert (Hhi : upperMag p = upper).
  { unfold upperMag, upper. now destruct (magRange p) as [ [lo hi] | ]. }
  exists (filter (magnitudeInRange lower upper) fetched).
  unfold fetchEarthquakes. rewrite (tryBlock_feed tz fetch p fuel Hp).
  cbv zeta. rewrite Hf. cbn [failure]. eexists. split; [ | split; [ reflexivity | ] ].
  - intros x. rewrite filter_In, magnitudeInRange_iff. reflexivity.
  - split; [ reflexivity | ]. cbn [state earthquakes setLoading setEarthquakes].
    unfold filterFeed. now rewrite Hlo, Hhi.
Qed.

Lemma feed_magnitude_filter_witness :
  exists kept run,
    (forall x, In x kept <->
               In x [mkFeature "a" (Some 4.5%float) "near" 0 (10, 20, 30)%float;
                     mkFeature "b" (Some 10.5%float) "far" 0 (11, 21, 31)%float;
                     mkFeature "c" None "unknown" 0 (12, 22, 32)%float]
               /\ exists m, mag x = Some m
                            /\ (0 <=? m)%float = true
                            /\ (m <=? 10)%float = true)
    /\ kept = filter (magnitudeInRange 0 10)
                [mkFeature "a" (Some 4.5%float) "near" 0 (10, 20, 30)%float;
                 mkFeature "b" (Some 10.5%float) "far" 0 (11, 21, 31)%float;
                 mkFeature "c" None "unknown" 0 (12, 22, 32)%float]
    /\ fetchEarthquakes 0 smallFeed (indexProps (None, None)) 0 initialState = Some run
    /\ earthquakes (state run)
       = capCount (indexProps (None, None))
           (filterDepth (indexProps (None, None)) kept).
Proof.
  apply (feed_magnitude_filter 0 smallFeed (indexProps (None, None)) 0 initialState).
  - intros startDate endDate. discriminate.
  - reflexivity.
Defined.

(* ================================================================== *)
(** * Comparisons of doubles *)
(* ================================================================== *)

Lemma SFcompare_antisym (x y : spec_float) :
  SFcompare y x = option_map CompOpp (SFcompare x y).
Proof.
  destruct x as [ sx | sx | | sx mx ex ], y as [ sy | sy | | sy my ey ];
    try destruct sx; try destruct sy; try reflexivity; cbn [SFcompare option_map];
    rewrite (Z.compare_antisym ex ey); destruct (ex ?= ey); cbn [CompOpp];
    try reflexivity;
    rewrite <- (Pos.compare_cont_antisym _ _ Eq); cbn [CompOpp];
    now destruct (Pos.compare_cont Eq _ _).
Qed.

Lemma SFltb_trans (x y z : spec_float) :
  SFltb x y = true -> SFltb y z = true -> SFltb x z = true.
Proof.
  unfold SFltb.
  destruct x as [ sx | sx | | sx mx ex ], y as [ sy | sy | | sy my ey ],
           z as [ sz | sz | | sz mz ez ];
    try destruct sx; try destruct sy; try destruct sz;
    cbn [SFcompare]; try discriminate; try reflexivity;
    rewrite ?Pos.compare_cont_spec; cbn [Pos.switch_Eq];
    destruct (Z.compare_spec ex ey), (Z.compare_spec ey ez), (Z.compare_spec ex ez);
    try discriminate; try reflexivity; try lia;
    destruct (Pos.compare_spec mx my), (Pos.compare_spec my mz),
             (Pos.compare_spec mx mz);
    cbn [CompOpp]; try discriminate; try reflexivity; try lia.
Qed.

Lemma ltb_trans (x y z : float) :
  (x <? y)%float = true -> (y <? z)%float = true -> (x <? z)%float = true.
Proof. rewrite !ltb_spec. apply SFltb_trans. Qed.

(** Of [x < y] and [y <= x] at most one holds. *)
Lemma ltb_leb_false (x y : float) :
  (x <? y)%float = true -> (y <=? x)%float = false.
Proof.
  rewrite ltb_spec, leb_spec. unfold SFltb, SFleb.
  rewrite (SFcompare_antisym (Prim2SF x) (Prim2SF y)).
  now destruct (SFcompare (Prim2SF x) (Prim2SF y)) as [ [ | | ] | ].
Qed.

Lemma is_nan_false (x : float) : is_nan x = false -> Prim2SF x <> S754_nan.
Proof.
  unfold is_nan. rewrite eqb_spec. intros H E. rewrite E in H. discriminate.
Qed.

Lemma is_infinity_false (x : float) :
  is_infinity x = false -> forall s, Prim2SF x <> S754_infinity s.
Proof.
  unfold is_infinity. rewrite eqb_spec, abs_spec. intros H s E.
  rewrite E in H. discriminate.
Qed.

Lemma isReal_spec (x : float) :
  isReal x = true ->
  Prim2SF x <> S754_nan /\ forall s, Prim2SF x <> S754_infinity s.
Proof.
  unfold isReal, is_finite. intros H. apply negb_true_iff, orb_false_iff in H.
  destruct H as [H1 H2]. split; [ now apply is_nan_false | now apply is_infinity_false ].
Qed.

(** For numbers, [x < y] or [y <= x]. *)
Lemma ltb_false_leb (x y : float) :
  Prim2SF x <> S754_nan -> Prim2SF y <> S754_nan ->
  (x <? y)%float = false -> (y <=? x)%float = true.
Proof.
  rewrite ltb_spec, leb_spec. unfold SFltb, SFleb.
  rewrite (SFcompare_antisym (Prim2SF x) (Prim2SF y)).
  destruct (Prim2SF x) as [ sx | sx | | sx mx ex ],
           (Prim2SF y) as [ sy | sy | | sy my ey ];
    try congruence; intros _ _;
    now destruct (SFcompare _ _) as [ [ | | ] | ] eqn:E.
Qed.

Lemma real_below_infinity (x : float) :
  isReal x = true -> (x <? infinity)%float = true.
Proof.
  intros H. destruct (isReal_spec x H) as [Hn Hi].
  rewrite ltb_spec. change (Prim2SF infinity) with (S754_infinity false).
  destruct (Prim2SF x) as [ sx | sx | | sx mx ex ];
    try reflexivity; [ now elim (Hi sx) | congruence ].
Qed.

Lemma number_above_neg_infinity (x : float) :
  Prim2SF x <> S754_nan -> (neg_infinity <=? x)%float = true.
Proof.
  intros Hn. rewrite leb_spec.
  change (Prim2SF neg_infinity) with (S754_infinity true).
  destruct (Prim2SF x) as [ sx | sx | | sx mx ex ];
    try reflexivity; [ now destruct sx | congruence ].
Qed.

Lemma buckets_bands : buckets = [band1; band2; band3; band4].
Proof. reflexivity. Qed.

Lemma countsInit_counts4 : countsInit = counts4 0 0 0 0.
Proof. reflexivity. Qed.

(** A magnitude is in at most one band. *)
Lemma bands_disjoint (m : float) :
  (inBucket m band1 = true ->
     inBucket m band2 = false /\ inBucket m band3 = false /\ inBucket m band4 = false)
  /\ (inBucket m band2 = true ->
        inBucket m band3 = false /\ inBucket m band4 = false)
  /\ (inBucket m band3 = true -> inBucket m band4 = false).
Proof.
  unfold inBucket, band1, band2, band3, band4. cbn [min max].
  assert (H24 : (2 <? 4)%float = true) by reflexivity.
  assert (H46 : (4 <? 6)%float = true) by reflexivity.
  split; [ | split ]; intros H; apply andb_true_iff in H; destruct H as [_ H];
    repeat split.
  - now rewrite (ltb_leb_false _ _ H).
  - now rewrite (ltb_leb_false _ _ (ltb_trans m 2 4 H H24)).
  - now rewrite (ltb_leb_false _ _ (ltb_trans m 4 6 (ltb_trans m 2 4 H H24) H46)).
  - now rewrite (ltb_leb_false _ _ H).
  - now rewrite (ltb_leb_false _ _ (ltb_trans m 4 6 H H46)).
  - now rewrite (ltb_leb_false _ _ H).
Qed.

(** A real magnitude is in some band. *)
Lemma bands_cover (m : float) :
  isReal m = true ->
  inBucket m band1 = (m <? 2)%float
  /\ inBucket m band4 = (6 <=? m)%float
  /\ (inBucket m band1 = true \/ inBucket m band2 = true
      \/ inBucket m band3 = true \/ inBucket m band4 = true).
Proof.
  intros Hr. destruct (isReal_spec m Hr) as [Hn _].
  unfold inBucket, band1, band2, band3, band4. cbn [min max].
  rewrite (real_below_infinity m Hr), (number_above_neg_infinity m Hn).
  rewrite andb_true_r. cbn [andb]. split; [ reflexivity | ]. split; [ reflexivity | ].
  assert (Hc : forall c : float, Prim2SF c <> S754_nan ->
                 (m <? c)%float = false -> (c <=? m)%float = true).
  { intros c Hcn. now apply ltb_false_leb. }
  destruct (m <? 2)%float eqn:H2; [ now left | right ].
  rewrite (Hc 2%float) by (discriminate || assumption).
  destruct (m <? 4)%float eqn:H4; [ now left | right ].
  rewrite (Hc 4%float) by (discriminate || assumption).
  destruct (m <? 6)%float eqn:H6; [ now left | right ].
  now rewrite (Hc 6%float) by (discriminate || assumption).
Qed.

Lemma tally_counts4 (m : float) (n1 n2 n3 n4 : Z) :
  tally m buckets (counts4 n1 n2 n3 n4)
  = if inBucket m band1 then counts4 (n1 + 1) n2 n3 n4
    else if inBucket m band2 then counts4 n1 (n2 + 1) n3 n4
    else if inBucket m band3 then counts4 n1 n2 (n3 + 1) n4
    else if inBucket m band4 then counts4 n1 n2 n3 (n4 + 1)
    else counts4 n1 n2 n3 n4.
Proof.
  rewrite buckets_bands. cbn [tally].
  destruct (inBucket m band1); [ reflexivity | ].
  destruct (inBucket m band2); [ reflexivity | ].
  destruct (inBucket m band3); [ reflexivity | ].
  destruct (inBucket m band4); reflexivity.
Qed.

Lemma inBand_cons (b : Bucket) (f : VisFeature) (data : list VisFeature) :
  inBand b (f :: data)
  = (if inBucket (vmag f) b then 1 else 0) + inBand b data.
Proof.
  unfold inBand. cbn [filter]. destruct (inBucket (vmag f) b); cbn [length]; lia.
Qed.

Lemma fold_tally (data : list VisFeature) :
  forall n1 n2 n3 n4,
  fold_left (fun c f => tally (vmag f) buckets c) data (counts4 n1 n2 n3 n4)
  = counts4 (n1 + inBand band1 data) (n2 + inBand band2 data)
            (n3 + inBand band3 data) (n4 + inBand band4 data).
Proof.
  induction data as [ | f data IH ]; intros n1 n2 n3 n4.
  - cbn [fold_left]. unfold inBand. cbn. now rewrite !Z.add_0_r.
  - cbn [fold_left]. rewrite tally_counts4, !inBand_cons.
    destruct (bands_disjoint (vmag f)) as (D1 & D2 & D3).
    destruct (inBucket (vmag f) band1).
    { destruct D1 as (-> & -> & ->); [ reflexivity | ].
      rewrite IH. cbv iota. now rewrite ?Z.add_0_l, ?Z.add_assoc. }
    destruct (inBucket (vmag f) band2).
    { destruct D2 as (-> & ->); [ reflexivity | ].
      rewrite IH. cbv iota. now rewrite ?Z.add_0_l, ?Z.add_assoc. }
    destruct (inBucket (vmag f) band3).
    { rewrite D3 by reflexivity.
      rewrite IH. cbv iota. now rewrite ?Z.add_0_l, ?Z.add_assoc. }
    destruct (inBucket (vmag f) band4);
      rewrite IH; cbv iota; now rewrite ?Z.add_0_l, ?Z.add_assoc.
Qed.

Lemma byMagnitudeBucket_bands (data : list VisFeature) :
  byMagnitudeBucket data
  = [("<2.0"%string, Some (inBand band1 data));
     ("2.0-3.9"%string, Some (inBand band2 data));
     ("4.0-5.9"%string, Some (inBand band3 data));
     ("6.0+"%string, Some (inBand band4 data))].
Proof.
  unfold byMagnitudeBucket, countsOf.
  rewrite countsInit_counts4, fold_tally. reflexivity.
Qed.

Lemma bands_total (data : list VisFeature) :
  Forall (fun f => isReal (vmag f) = true) data ->
  inBand band1 data + inBand band2 data + inBand band3 data + inBand band4 data
  = Z.of_nat (length data).
Proof.
  induction 1 as [ | f data Hf _ IH ]; [ reflexivity | ].
  rewrite !inBand_cons. cbn [length]. rewrite Nat2Z.inj_succ, <- IH.
  destruct (bands_disjoint (vmag f)) as (D1 & D2 & D3).
  destruct (bands_cover (vmag f) Hf) as (_ & _ & Hc).
  destruct (inBucket (vmag f) band1).
  { destruct D1 as (-> & -> & ->); [ reflexivity | lia ]. }
  destruct (inBucket (vmag f) band2).
  { destruct D2 as (-> & ->); [ reflexivity | lia ]. }
  destruct (inBucket (vmag f) band3).
  { rewrite D3 by reflexivity. lia. }
  destruct (inBucket (vmag f) band4); [ lia | ].
  destruct Hc as [ Hc | [ Hc | [ Hc | Hc ] ] ]; discriminate.
Qed.

(** The inner loop counts an event for the first band that contains its
    magnitude, and for none if no band does. *)
Lemma tally_first_match (m : float) (bs : list Bucket) (c : Counts) :
  tally m bs c
  = match find (inBucket m) bs with
    | Some b => increment (key b) c
    | None => c
    end.
Proof.
  induction bs as [ | b bs IH ]; cbn [tally find]; [ reflexivity | ].
  now destruct (inBucket m b).
Qed.

(** C8.  For events whose magnitudes are real numbers (neither NaN nor
    infinite), [byMagnitudeBucket] returns exactly the four bands in the
    fixed order [<2.0], [2.0-3.9], [4.0-5.9], [6.0+], each with the number
    of events in that band (zero included); the bands are [m < 2],
    [2 <= m < 4], [4 <= m < 6] and [6 <= m]; every event is in exactly one
    of them; and the four counts add up to the number of events. *)
Theorem byMagnitudeBucket_counts (data : list VisFeature) :
  Forall (fun f => isReal (vmag f) = true) data ->
  byMagnitudeBucket data
  = [("<2.0"%string, Some (inBand band1 data));
     ("2.0-3.9"%string, Some (inBand band2 data));
     ("4.0-5.9"%string, Some (inBand band3 data));
     ("6.0+"%string, Some (inBand band4 data))]
  /\ (forall f, In f data ->
        length (filter (inBucket (vmag f)) buckets) = 1%nat
        /\ inBucket (vmag f) band1 = (vmag f <? 2)%float
        /\ inBucket (vmag f) band2 = ((2 <=? vmag f) && (vmag f <? 4))%float
        /\ inBucket (vmag f) band3 = ((4 <=? vmag f) && (vmag f <? 6))%float
        /\ inBucket (vmag f) band4 = (6 <=? vmag f)%float)
  /\ inBand band1 data + inBand band2 data + inBand band3 data + inBand band4 data
     = Z.of_nat (length data).
Proof.
  intros Hreal. split; [ apply byMagnitudeBucket_bands | ].
  split; [ | now apply bands_total ].
  intros f Hf. rewrite Forall_forall in Hreal. specialize (Hreal f Hf).
  destruct (bands_cover (vmag f) Hreal) as (H1 & H4 & Hc).
  destruct (bands_disjoint (vmag f)) as (D1 & D2 & D3).
  split; [ | repeat split; assumption ].
  rewrite buckets_bands. cbn [filter].
  destruct (inBucket (vmag f) band1).
  { destruct D1 as (-> & -> & ->); reflexivity. }
  destruct (inBucket (vmag f) band2).
  { destruct D2 as (-> & ->); reflexivity. }
  destruct (inBucket (vmag f) band3).
  { now rewrite D3. }
  destruct (inBucket (vmag f) band4); [ reflexivity | ].
  destruct Hc as [ Hc | [ Hc | [ Hc | Hc ] ] ]; discriminate.
Qed.

Lemma byMagnitudeBucket_counts_witness :
  byMagnitudeBucket sampleMagnitudes
  = [("<2.0"%string, Some (inBand band1 sampleMagnitudes));
     ("2.0-3.9"%string, Some (inBand band2 sampleMagnitudes));
     ("4.0-5.9"%string, Some (inBand band3 sampleMagnitudes));
     ("6.0+"%string, Some (inBand band4 sampleMagnitudes))]
  /\ (forall f, In f sampleMagnitudes ->
        length (filter (inBucket (vmag f)) buckets) = 1%nat
        /\ inBucket (vmag f) band1 = (vmag f <? 2)%float
        /\ inBucket (vmag f) band2 = ((2 <=? vmag f) && (vmag f <? 4))%float
        /\ inBucket (vmag f) band3 = ((4 <=? vmag f) && (vmag f <? 6))%float
        /\ inBucket (vmag f) band4 = (6 <=? vmag f)%float)
  /\ inBand band1 sampleMagnitudes + inBand band2 sampleMagnitudes
     + inBand band3 sampleMagnitudes + inBand band4 sampleMagnitudes
     = Z.of_nat (length sampleMagnitudes).
Proof.
  apply (byMagnitudeBucket_counts sampleMagnitudes).
  repeat constructor.
Defined.

(** The scenario of the specification: one event per band. *)
Example byMagnitudeBucket_sample :
  byMagnitudeBucket sampleMagnitudes
  = [("<2.0"%string, Some 1); ("2.0-3.9"%string, Some 1);
     ("4.0-5.9"%string, Some 1); ("6.0+"%string, Some 1)].
Proof. vm_compute. reflexivity. Qed.

(** Magnitudes that are not real numbers: NaN and [+Infinity] are in no
    band, so they are not counted. *)
Example byMagnitudeBucket_not_real :
  byMagnitudeBucket [mkVisFeature nan 0; mkVisFeature infinity 0]
  = [("<2.0"%string, Some 0); ("2.0-3.9"%string, Some 0);
     ("4.0-5.9"%string, Some 0); ("6.0+"%string, Some 0)].
Proof. vm_compute. reflexivity. Qed.

(* ================================================================== *)
(** * Rounding and subtraction of doubles *)
(* ================================================================== *)

(** The number of binary digits of a positive number. *)
Lemma digits2_pos_bounds (p : positive) :
  2 ^ (Zpos (digits2_pos p) - 1) <= Zpos p < 2 ^ Zpos (digits2_pos p).
Proof.
  induction p as [ p IH | p IH | ]; cbn [digits2_pos].
  - rewrite Pos2Z.inj_succ, Z.pow_succ_r by lia.
    replace (Z.succ (Zpos (digits2_pos p)) - 1) with (Z.succ (Zpos (digits2_pos p) - 1)) by lia.
    rewrite Z.pow_succ_r by lia. lia.
  - rewrite Pos2Z.inj_succ, Z.pow_succ_r by lia.
    replace (Z.succ (Zpos (digits2_pos p)) - 1) with (Z.succ (Zpos (digits2_pos p) - 1)) by lia.
    rewrite Z.pow_succ_r by lia. lia.
  - cbn. lia.
Qed.

Lemma shr_1_half (mrs : shr_record) :
  0 <= shr_m mrs -> shr_m (shr_1 mrs) = shr_m mrs / 2.
Proof.
  destruct mrs as [m r s]. cbn [shr_m shr_1]. intros Hm.
  destruct m as [ | [ p | p | ] | p ]; cbn [shr_m]; try lia.
  - reflexivity.
  - rewrite Pos2Z.inj_xI. Z.div_mod_to_equations. lia.
  - rewrite Pos2Z.inj_xO. Z.div_mod_to_equations. lia.
  - reflexivity.
Qed.

Lemma iter_shr_1 (p : positive) :
  forall mrs, 0 <= shr_m mrs ->
  shr_m (SpecFloat.iter_pos shr_1 p mrs) = shr_m mrs / 2 ^ Zpos p.
Proof.
  induction p as [ p IH | p IH | ]; intros mrs Hm; cbn [SpecFloat.iter_pos].
  - assert (H1 : 0 <= shr_m (shr_1 mrs))
      by (rewrite shr_1_half by exact Hm; apply Z.div_pos; lia).
    assert (H2 : 0 <= shr_m (SpecFloat.iter_pos shr_1 p (shr_1 mrs)))
      by (rewrite IH by exact H1; apply Z.div_pos; [ lia | apply Z.pow_pos_nonneg; lia ]).
    rewrite IH, IH, shr_1_half by assumption.
    rewrite !Z.div_div by (try apply Z.pow_pos_nonneg; lia).
    f_equal. replace (Zpos p~1) with (Zpos p + Zpos p + 1) by lia.
    rewrite !Z.pow_add_r by lia. ring.
  - assert (H2 : 0 <= shr_m (SpecFloat.iter_pos shr_1 p mrs))
      by (rewrite IH by exact Hm; apply Z.div_pos; [ lia | apply Z.pow_pos_nonneg; lia ]).
    rewrite IH, IH by assumption.
    rewrite !Z.div_div by (try apply Z.pow_pos_nonneg; lia).
    f_equal. replace (Zpos p~0) with (Zpos p + Zpos p) by lia.
    rewrite !Z.pow_add_r by lia. ring.
  - rewrite shr_1_half by exact Hm. reflexivity.
Qed.

Lemma shr_record_of_loc_m (m : Z) (l : location) : shr_m (shr_record_of_loc m l) = m.
Proof. now destruct l as [ | [ | | ] ]. Qed.

(** Shifting a positive mantissa to its format keeps it positive, provided
    its exponent is not below the smallest one. *)
Lemma shr_fexp_positive (m e : Z) (l : location) :
  0 < m -> SpecFloat.emin prec emax <= e ->
  0 < shr_m (fst (shr_fexp prec emax m e l))
  /\ SpecFloat.emin prec emax <= snd (shr_fexp prec emax m e l).
Proof.
  intros Hm He. unfold shr_fexp, shr.
  destruct (fexp prec emax (Zdigits2 m + e) - e) as [ | n | n ] eqn:En;
    cbn [fst snd]; rewrite ?shr_record_of_loc_m; try (split; lia).
  rewrite iter_shr_1 by (rewrite shr_record_of_loc_m; lia).
  rewrite shr_record_of_loc_m.
  destruct m as [ | p | p ]; try lia. cbn [Zdigits2] in En.
  pose proof (digits2_pos_bounds p) as [Hlo _].
  unfold fexp, SpecFloat.emin, prec, emax in *.
  assert (Hn : Zpos n = Zpos (digits2_pos p) - 53) by lia.
  split; [ | lia ].
  apply Z.div_str_pos. split; [ apply Z.pow_pos_nonneg; lia | ].
  eapply Z.le_trans; [ | exact Hlo ].
  apply Z.pow_le_mono_r; lia.
Qed.

Lemma round_nearest_even_ge (m : Z) (l : location) : m <= round_nearest_even m l.
Proof.
  destruct l as [ | [ | | ] ]; cbn [round_nearest_even]; try lia.
  destruct (Z.even m); lia.
Qed.

(** Rounding a positive mantissa gives a number of the given sign, never a
    zero and never NaN. *)
Lemma binary_round_aux_positive (sx : bool) (m e : Z) (l : location) :
  0 < m -> SpecFloat.emin prec emax <= e ->
  (exists m' e', binary_round_aux prec emax sx m e l = S754_finite sx m' e')
  \/ binary_round_aux prec emax sx m e l = S754_infinity sx.
Proof.
  intros Hm He. unfold binary_round_aux.
  pose proof (shr_fexp_positive m e l Hm He) as [H1 H1e].
  destruct (shr_fexp prec emax m e l) as [mrs' e']. cbn [fst snd] in *.
  pose proof (round_nearest_even_ge (shr_m mrs') (loc_of_shr_record mrs')) as Hr.
  pose proof (shr_fexp_positive (round_nearest_even (shr_m mrs') (loc_of_shr_record mrs'))
                e' loc_Exact ltac:(lia) H1e) as [H2 _].
  destruct (shr_fexp prec emax _ e' loc_Exact) as [mrs'' e'']. cbn [fst snd] in *.
  destruct (shr_m mrs'') as [ | q | q ]; try lia.
  destruct (e'' <=? emax - prec); eauto.
Qed.

Lemma Pos_iter_xO (d m : positive) : Zpos (Pos.iter xO m d) = Zpos m * 2 ^ Zpos d.
Proof.
  induction d as [ | d IH ] using Pos.peano_ind.
  - cbn. lia.
  - rewrite Pos.iter_succ, Pos2Z.inj_xO, IH, Pos2Z.inj_succ, Z.pow_succ_r by lia. ring.
Qed.

Lemma shl_align_value (m : positive) (e e' : Z) :
  e' <= e ->
  Zpos (fst (shl_align m e e')) = Zpos m * 2 ^ (e - e')
  /\ snd (shl_align m e e') = e'.
Proof.
  intros H. unfold shl_align.
  destruct (e' - e) as [ | d | d ] eqn:E; cbn [fst snd]; try lia.
  - replace (e - e') with 0 by lia. cbn. lia.
  - rewrite Pos_iter_xO. replace (e - e') with (Zpos d) by lia. split; lia.
Qed.

Lemma binary_round_positive (sx : bool) (m : positive) (e : Z) :
  SpecFloat.emin prec emax <= e ->
  (exists m' e', binary_round prec emax sx m e = S754_finite sx m' e')
  \/ binary_round prec emax sx m e = S754_infinity sx.
Proof.
  intros He. unfold binary_round.
  destruct (shl_align m e (fexp prec emax (Zpos (digits2_pos m) + e)))
    as [mz ez] eqn:E.
  apply binary_round_aux_positive; [ lia | ].
  unfold shl_align in E.
  destruct (fexp prec emax (Zpos (digits2_pos m) + e) - e) eqn:En;
    injection E as <- <-; try lia.
  unfold fexp. lia.
Qed.

(** Validity of a finite number: its exponent is not below the smallest
    one, its mantissa has at most 53 digits, and exactly 53 above the
    smallest exponent. *)
Lemma bounded_canonical (m : positive) (e : Z) :
  SpecFloat.bounded prec emax m e = true ->
  SpecFloat.emin prec emax <= e
  /\ Zpos m < 2 ^ 53
  /\ (SpecFloat.emin prec emax < e -> 2 ^ 52 <= Zpos m).
Proof.
  unfold SpecFloat.bounded, canonical_mantissa. intros H.
  apply andb_true_iff in H. destruct H as [H _]. apply Z.eqb_eq in H.
  pose proof (digits2_pos_bounds m) as [Hlo Hhi].
  unfold fexp, SpecFloat.emin, prec, emax in *.
  split; [ lia | ]. split.
  - eapply Z.lt_le_trans; [ exact Hhi | ]. apply Z.pow_le_mono_r; lia.
  - intros He. replace 52 with (Zpos (digits2_pos m) - 1) by lia. exact Hlo.
Qed.

(** Two valid finite numbers, aligned to their smaller exponent, compare as
    integers the way they compare by exponent and then by mantissa. *)
Lemma aligned_compare (mx my : positive) (ex ey : Z) :
  SpecFloat.bounded prec emax mx ex = true -> SpecFloat.bounded prec emax my ey = true ->
  (Zpos (fst (shl_align mx ex (Z.min ex ey)))
   ?= Zpos (fst (shl_align my ey (Z.min ex ey))))
  = match ex ?= ey with
    | Lt => Lt
    | Gt => Gt
    | Eq => Pos.compare_cont Eq mx my
    end.
Proof.
  intros Hx Hy.
  destruct (bounded_canonical mx ex Hx) as (Hex & Hmx & Hnx).
  destruct (bounded_canonical my ey Hy) as (Hey & Hmy & Hny).
  destruct (shl_align_value mx ex (Z.min ex ey) ltac:(lia)) as [-> _].
  destruct (shl_align_value my ey (Z.min ex ey) ltac:(lia)) as [-> _].
  destruct (Z.compare_spec ex ey) as [E | Hlt | Hgt].
  - subst ey. rewrite Z.min_id, Z.sub_diag. cbn [Z.pow]. rewrite !Z.mul_1_r.
    reflexivity.
  - rewrite Z.min_l, Z.sub_diag by lia. cbn [Z.pow]. rewrite Z.mul_1_r.
    apply Z.compare_lt_iff.
    assert (2 ^ 1 <= 2 ^ (ey - ex)) by (apply Z.pow_le_mono_r; lia).
    specialize (Hny ltac:(lia)). change (2 ^ 1) with 2 in *.
    change (2 ^ 53) with (2 ^ 52 * 2) in Hmx. nia.
  - rewrite Z.min_r, Z.sub_diag by lia. cbn [Z.pow]. rewrite Z.mul_1_r.
    apply Z.compare_gt_iff.
    assert (2 ^ 1 <= 2 ^ (ex - ey)) by (apply Z.pow_le_mono_r; lia).
    specialize (Hnx ltac:(lia)). change (2 ^ 1) with 2 in *.
    change (2 ^ 53) with (2 ^ 52 * 2) in Hmy. nia.
Qed.

(** The difference of two real numbers compares with zero as the numbers
    compare with each other. *)
Lemma SFsub_compare (x y : spec_float) :
  valid_binary x = true -> valid_binary y = true ->
  SFreal x = true -> SFreal y = true ->
  SFcompare (SFsub prec emax x y) (S754_zero false) = SFcompare x y.
Proof.
  intros Vx Vy Rx Ry.
  destruct x as [ sx | sx | | sx mx ex ]; try discriminate;
    destruct y as [ sy | sy | | sy my ey ]; try discriminate.
  - now destruct sx, sy.
  - now destruct sy.
  - reflexivity.
  - cbn [valid_binary] in Vx, Vy. cbn [SFsub].
    pose proof (aligned_compare mx my ex ey Vx Vy) as Hc.
    destruct (bounded_canonical mx ex Vx) as (Hex & _).
    destruct (bounded_canonical my ey Vy) as (Hey & _).
    set (X := Zpos (fst (shl_align mx ex (Z.min ex ey)))) in *.
    set (Y := Zpos (fst (shl_align my ey (Z.min ex ey)))) in *.
    assert (HX : 0 < X) by (unfold X; lia).
    assert (HY : 0 < Y) by (unfold Y; lia).
    unfold binary_normalize.
    destruct (cond_Zopp sx X - cond_Zopp sy Y) as [ | q | q ] eqn:EM.
    + assert (sx = sy /\ X = Y) as [-> EXY]
        by (destruct sx, sy; cbn [cond_Zopp] in EM; split; try reflexivity; lia).
      rewrite EXY, Z.compare_refl in Hc.
      destruct sy; cbn [SFcompare]; destruct (ex ?= ey); try discriminate;
        rewrite <- Hc; reflexivity.
    + destruct (binary_round_positive false q (Z.min ex ey) ltac:(lia))
        as [ (m' & e' & ->) | -> ];
        destruct sx, sy; cbn [cond_Zopp SFcompare] in *; try lia; try reflexivity;
        destruct (Z.compare_spec X Y) as [ EXY | HXY | HXY ]; try lia;
        destruct (ex ?= ey); try discriminate;
        try reflexivity; rewrite <- Hc; reflexivity.
    + destruct (binary_round_positive true q (Z.min ex ey) ltac:(lia))
        as [ (m' & e' & ->) | -> ];
        destruct sx, sy; cbn [cond_Zopp SFcompare] in *; try lia; try reflexivity;
        destruct (Z.compare_spec X Y) as [ EXY | HXY | HXY ]; try lia;
        destruct (ex ?= ey); try discriminate;
        try reflexivity; rewrite <- Hc; reflexivity.
Qed.

Lemma isReal_SFreal (x : float) : isReal x = true -> SFreal (Prim2SF x) = true.
Proof.
  intros H. destruct (isReal_spec x H) as [Hn Hi].
  destruct (Prim2SF x) as [ s | s | | s m e' ]; try reflexivity;
    [ now elim (Hi s) | now elim Hn ].
Qed.

(** [x - y > 0] exactly when [y < x], for doubles that are numbers. *)
Lemma sub_positive (x y : float) :
  isReal x = true -> isReal y = true ->
  (0 <? x - y)%float = (y <? x)%float.
Proof.
  intros Hx Hy. rewrite !ltb_spec, sub_spec. unfold SFltb.
  change (Prim2SF 0) with (S754_zero false).
  rewrite (SFcompare_antisym (SF64sub (Prim2SF x) (Prim2SF y)) (S754_zero false)).
  unfold SF64sub.
  rewrite (SFsub_compare (Prim2SF x) (Prim2SF y) (Prim2SF_valid x) (Prim2SF_valid y)
             (isReal_SFreal x Hx) (isReal_SFreal y Hy)).
  rewrite (SFcompare_antisym (Prim2SF x) (Prim2SF y)).
  now destruct (SFcompare (Prim2SF x) (Prim2SF y)) as [ [ | | ] | ].
Qed.

(** [x - y < 0] exactly when [x < y], for doubles that are numbers. *)
Lemma sub_negative (x y : float) :
  isReal x = true -> isReal y = true ->
  (x - y <? 0)%float = (x <? y)%float.
Proof.
  intros Hx Hy. rewrite !ltb_spec, sub_spec. unfold SFltb.
  change (Prim2SF 0) with (S754_zero false). unfold SF64sub.
  now rewrite (SFsub_compare (Prim2SF x) (Prim2SF y) (Prim2SF_valid x)
                 (Prim2SF_valid y) (isReal_SFreal x Hx) (isReal_SFreal y Hy)).
Qed.

Lemma SFleb_trans (x y z : spec_float) :
  SFleb x y = true -> SFleb y z = true -> SFleb x z = true.
Proof.
  unfold SFleb.
  destruct x as [ sx | sx | | sx mx ex ], y as [ sy | sy | | sy my ey ],
           z as [ sz | sz | | sz mz ez ];
    try destruct sx; try destruct sy; try destruct sz;
    cbn [SFcompare]; try discriminate; try reflexivity;
    rewrite ?Pos.compare_cont_spec; cbn [Pos.switch_Eq];
    destruct (Z.compare_spec ex ey), (Z.compare_spec ey ez), (Z.compare_spec ex ez);
    try discriminate; try reflexivity; try lia;
    destruct (Pos.compare_spec mx my), (Pos.compare_spec my mz),
             (Pos.compare_spec mx mz);
    cbn [CompOpp]; try discriminate; try reflexivity; try lia.
Qed.

Lemma leb_trans (x y z : float) :
  (x <=? y)%float = true -> (y <=? z)%float = true -> (x <=? z)%float = true.
Proof. rewrite !leb_spec. apply SFleb_trans. Qed.

(** Two doubles equal to a third are not one below the other. *)
Lemma SFeqb_not_ltb (x y d : spec_float) :
  SFeqb x d = true -> SFeqb y d = true -> SFltb y x = false.
Proof.
  unfold SFeqb, SFltb.
  destruct x as [ sx | sx | | sx mx ex ], y as [ sy | sy | | sy my ey ],
           d as [ sd | sd | | sd md ed ];
    try destruct sx; try destruct sy; try destruct sd;
    cbn [SFcompare]; try discriminate; try reflexivity;
    rewrite ?Pos.compare_cont_spec; cbn [Pos.switch_Eq];
    destruct (Z.compare_spec ex ed), (Z.compare_spec ey ed), (Z.compare_spec ey ex);
    try discriminate; try reflexivity; try lia;
    destruct (Pos.compare_spec mx md), (Pos.compare_spec my md),
             (Pos.compare_spec my mx);
    cbn [CompOpp]; try discriminate; try reflexivity; try lia.
Qed.

Lemma eqb_not_ltb (x y d : float) :
  (x =? d)%float = true -> (y =? d)%float = true -> (y <? x)%float = false.
Proof. rewrite !eqb_spec, ltb_spec. apply SFeqb_not_ltb. Qed.

Lemma ltb_leb (x y : float) : (x <? y)%float = true -> (x <=? y)%float = true.
Proof.
  rewrite ltb_spec, leb_spec. unfold SFltb, SFleb.
  now destruct (SFcompare (Prim2SF x) (Prim2SF y)) as [ [ | | ] | ].
Qed.

Lemma leb_refl (x : float) : Prim2SF x <> S754_nan -> (x <=? x)%float = true.
Proof.
  intros Hx. apply ltb_false_leb; try assumption.
  destruct (x <? x)%float eqn:E; [ | reflexivity ].
  pose proof (ltb_leb_false x x E) as H1. pose proof (ltb_leb x x E) as H2.
  congruence.
Qed.

Lemma is_nan_spec (x : float) : is_nan x = true <-> Prim2SF x = S754_nan.
Proof.
  unfold is_nan. rewrite eqb_spec. unfold SFeqb.
  destruct (Prim2SF x) as [ s | s | | s m e' ] eqn:E.
  - cbn. split; discriminate.
  - destruct s; cbn; split; discriminate.
  - cbn. split; reflexivity.
  - pose proof (SFcompare_antisym (S754_finite s m e') (S754_finite s m e')) as H.
    destruct (SFcompare (S754_finite s m e') (S754_finite s m e')) as [ [ | | ] | ]
      eqn:Ec; cbn in H |- *; try discriminate H; try (split; discriminate).
Qed.
(* ================================================================== *)
(** * Distance and ranking *)
(* ================================================================== *)

Section ExactFacts.

Local Open Scope R_scope.

Lemma exactA_sym (lat1 lon1 lat2 lon2 : R) :
  exactA lat1 lon1 lat2 lon2 = exactA lat2 lon2 lat1 lon1.
Proof.
  unfold exactA. cbv zeta.
  replace ((lat1 - lat2) * PI / 180 / 2) with (- ((lat2 - lat1) * PI / 180 / 2))
    by lra.
  replace ((lon1 - lon2) * PI / 180 / 2) with (- ((lon2 - lon1) * PI / 180 / 2))
    by lra.
  rewrite !sin_neg. ring.
Qed.

Lemma unit_product (a b : R) : 0 <= a <= 1 -> 0 <= b <= 1 -> 0 <= a * b <= 1.
Proof.
  intros Ha Hb. split; [ apply Rmult_le_pos; lra | ].
  replace 1 with (1 * 1) by ring. apply Rmult_le_compat; lra.
Qed.

(** Over the real numbers [a] stays within the domain of the two square
    roots. *)
Lemma exactA_range (lat1 lon1 lat2 lon2 : R) :
  0 <= exactA lat1 lon1 lat2 lon2 <= 1.
Proof.
  unfold exactA. cbv zeta.
  set (h := (lat2 - lat1) * PI / 180 / 2).
  set (m := (lat1 + lat2) * PI / 180 / 2).
  set (u := sin ((lon2 - lon1) * PI / 180 / 2)).
  replace (lat1 * PI / 180) with (m - h) by (unfold m, h; lra).
  replace (lat2 * PI / 180) with (m + h) by (unfold m, h; lra).
  rewrite cos_minus, cos_plus.
  pose proof (sin2_cos2 h) as Hh. pose proof (sin2_cos2 m) as Hm.
  pose proof (sin2_cos2 ((lon2 - lon1) * PI / 180 / 2)) as Hu. fold u in Hu.
  unfold Rsqr in *.
  generalize dependent (cos ((lon2 - lon1) * PI / 180 / 2)).
  generalize dependent (sin h). generalize dependent (cos h).
  generalize dependent (sin m). generalize dependent (cos m).
  generalize dependent u. clear.
  intros u cm sm Hm ch sh Hh cu Hu.
  assert (Hu2 : 0 <= u * u <= 1) by nra.
  assert (Hsh : 0 <= sh * sh <= 1) by nra.
  assert (Hsm : 0 <= sm * sm <= 1) by nra.
  assert (Hcm : 0 <= cm * cm <= 1) by nra.
  assert (Hch : 0 <= ch * ch <= 1) by nra.
  pose proof (unit_product _ _ Hsm Hu2) as Hsu.
  pose proof (unit_product _ _ Hcm Hu2) as Hcu.
  assert (Ha : 0 <= (sh * sh) * (1 - (sm * sm) * (u * u)))
    by (apply Rmult_le_pos; lra).
  assert (Hb : 0 <= (ch * ch) * (1 - (cm * cm) * (u * u)))
    by (apply Rmult_le_pos; lra).
  assert (Hc : 0 <= (cm * cm) * (u * u) * (ch * ch))
    by (apply Rmult_le_pos; lra).
  assert (Hd : 0 <= (sm * sm) * (u * u) * (sh * sh))
    by (apply Rmult_le_pos; lra).
  split; nra.
Qed.

Lemma atan2_nonneg (y x : R) : 0 <= y -> 0 <= x -> 0 <= atan2 y x <= PI / 2.
Proof.
  intros Hy Hx. unfold atan2. pose proof PI_RGT_0 as Hpi.
  destruct (Rlt_dec 0 x) as [Hpos | Hnpos].
  - assert (Hq : 0 <= y / x).
    { unfold Rdiv. apply Rmult_le_pos; [ assumption | ].
      left. now apply Rinv_0_lt_compat. }
    pose proof (atan_bound (y / x)) as Hb.
    split; [ | lra ].
    destruct Hq as [Hq | <-]; [ | rewrite atan_0; lra ].
    apply atan_increasing in Hq. rewrite atan_0 in Hq. lra.
  - destruct (Rlt_dec x 0); [ lra | ].
    destruct (Rlt_dec 0 y); [ lra | ].
    destruct (Rlt_dec y 0); lra.
Qed.

(** The distance of the specification is never negative. *)
Lemma distanceKm_nonneg (lat1 lon1 lat2 lon2 : R) :
  0 <= distanceKm lat1 lon1 lat2 lon2.
Proof.
  unfold distanceKm.
  pose proof (atan2_nonneg (sqrt (exactA lat1 lon1 lat2 lon2))
                (sqrt (1 - exactA lat1 lon1 lat2 lon2))
                (sqrt_pos _) (sqrt_pos _)).
  lra.
Qed.

(** Seen from the point at 0 N 0 E, a point is as far as the point with
    its latitude and longitude exchanged. *)
Lemma exactA_exchange (lat lon : R) : exactA 0 0 lat lon = exactA 0 0 lon lat.
Proof.
  unfold exactA. cbv zeta.
  replace (0 * PI / 180) with 0 by lra. rewrite cos_0, !Rminus_0_r.
  assert (Hlat : cos (lat * PI / 180) =
                 1 - 2 * sin (lat * PI / 180 / 2) * sin (lat * PI / 180 / 2)).
  { rewrite <- cos_2a_sin. f_equal. lra. }
  assert (Hlon : cos (lon * PI / 180) =
                 1 - 2 * sin (lon * PI / 180 / 2) * sin (lon * PI / 180 / 2)).
  { rewrite <- cos_2a_sin. f_equal. lra. }
  rewrite Hlat, Hlon. ring.
Qed.

Lemma distanceKm_exchange (lat lon : R) :
  distanceKm 0 0 lat lon = distanceKm 0 0 lon lat.
Proof. unfold distanceKm. now rewrite exactA_exchange. Qed.

End ExactFacts.

Lemma insertBy_perm {A : Type} (comparefn : A -> A -> float) (x : A) (l : list A) :
  Permutation (insertBy comparefn x l) (x :: l).
Proof.
  induction l as [ | y l IH ]; cbn [insertBy]; [ reflexivity | ].
  destruct (0 <? comparefn x y)%float; [ | reflexivity ].
  rewrite IH. apply perm_swap.
Qed.

(** Sorting, with any comparator, rearranges. *)
Lemma Array_sort_perm {A : Type} (comparefn : A -> A -> float) (l : list A) :
  Permutation (Array_sort comparefn l) l.
Proof.
  induction l as [ | x l IH ]; cbn [Array_sort fold_right]; [ reflexivity | ].
  fold (Array_sort comparefn l). rewrite insertBy_perm. now constructor.
Qed.

Lemma isReal_not_nan (x : float) : isReal x = true -> Prim2SF x <> S754_nan.
Proof. intros H. now destruct (isReal_spec x H). Qed.

Section SortFacts.

Context {A : Type} (key : A -> float).

Local Abbreviation comparefn := (fun a b : A => (key a - key b)%float).
Local Abbreviation number := (fun a : A => isReal (key a) = true).
Local Abbreviation ascendingKey :=
  (StronglySorted (fun a b : A => (key a <=? key b)%float = true)).

Lemma insertBy_sorted (x : A) (l : list A) :
  number x -> Forall number l ->
  ascendingKey l -> ascendingKey (insertBy comparefn x l).
Proof.
  intros Hx Hl Hs. induction Hs as [ | y l Hs IH Hy ]; cbn [insertBy].
  - repeat constructor.
  - inversion Hl as [ | ? ? Hny Hnl ]; subst.
    rewrite (sub_positive (key x) (key y) Hx Hny).
    destruct (key y <? key x)%float eqn:E.
    + constructor; [ now apply IH | ].
      eapply Permutation_Forall; [ symmetry; apply insertBy_perm | ].
      constructor; [ now apply ltb_leb | exact Hy ].
    + assert (Hxy : (key x <=? key y)%float = true)
        by (apply ltb_false_leb; auto using isReal_not_nan).
      constructor; [ now constructor | ].
      constructor; [ exact Hxy | ].
      eapply Forall_impl; [ | exact Hy ]. cbv beta. intros a Ha.
      now apply (leb_trans (key x) (key y) (key a)).
Qed.

(** Insertion never moves an element past one with the same key. *)
Lemma insertBy_stable (d : float) (x : A) (l : list A) :
  number x -> Forall number l ->
  filter (hasKey key d) (insertBy comparefn x l) = filter (hasKey key d) (x :: l).
Proof.
  intros Hx Hl. induction Hl as [ | y l Hy Hl IH ]; cbn [insertBy];
    [ reflexivity | ].
  rewrite (sub_positive (key x) (key y) Hx Hy).
  destruct (key y <? key x)%float eqn:E; [ | reflexivity ].
  cbn [filter] in *. rewrite IH. unfold hasKey.
  destruct (key x =? d)%float eqn:Ex, (key y =? d)%float eqn:Ey; try reflexivity.
  rewrite (eqb_not_ltb (key x) (key y) d Ex Ey) in E. discriminate.
Qed.

Lemma Array_sort_numbers (l : list A) :
  Forall number l -> Forall number (Array_sort comparefn l).
Proof.
  intros H. eapply Permutation_Forall; [ symmetry; apply Array_sort_perm | exact H ].
Qed.

Lemma Array_sort_sorted (l : list A) :
  Forall number l -> ascendingKey (Array_sort comparefn l).
Proof.
  induction 1 as [ | x l Hx Hl IH ]; cbn [Array_sort fold_right]; [ constructor | ].
  apply insertBy_sorted; [ exact Hx | now apply Array_sort_numbers | exact IH ].
Qed.

Lemma Array_sort_stable (d : float) (l : list A) :
  Forall number l ->
  filter (hasKey key d) (Array_sort comparefn l) = filter (hasKey key d) l.
Proof.
  induction 1 as [ | x l Hx Hl IH ]; cbn [Array_sort fold_right]; [ reflexivity | ].
  fold (Array_sort comparefn l).
  rewrite insertBy_stable by (try apply Array_sort_numbers; assumption).
  cbn [filter]. now rewrite IH.
Qed.

(** Sorting a sorted list of numbers leaves it as it is. *)
Lemma Array_sort_sorted_id (l : list A) :
  Forall number l -> ascendingKey l -> Array_sort comparefn l = l.
Proof.
  intros Hl Hs. induction Hs as [ | x l Hs IH Hx ];
    cbn [Array_sort fold_right]; [ reflexivity | ].
  inversion Hl as [ | ? ? Hnx Hnl ]; subst.
  fold (Array_sort comparefn l). rewrite (IH Hnl).
  destruct l as [ | y l ]; cbn [insertBy]; [ reflexivity | ].
  inversion Hx as [ | ? ? Hy _ ]; subst. inversion Hnl as [ | ? ? Hny _ ]; subst.
  rewrite (sub_positive (key x) (key y) Hnx Hny).
  destruct (key y <? key x)%float eqn:E; [ | reflexivity ].
  apply ltb_leb_false in E. congruence.
Qed.

End SortFacts.

Lemma StronglySorted_firstn {A : Type} (rel : A -> A -> Prop) (n : nat) (l : list A) :
  StronglySorted rel l -> StronglySorted rel (firstn n l).
Proof.
  intros H. revert n. induction H as [ | x l Hs IH Hx ]; intros [ | n ];
    cbn [firstn]; try constructor.
  - apply IH.
  - rewrite Forall_forall in *. intros y Hy. apply Hx.
    rewrite <- (firstn_skipn n l). apply in_or_app. now left.
Qed.

Lemma firstn_subset {A : Type} (n : nat) (l : list A) : incl (firstn n l) l.
Proof.
  intros x Hx. rewrite <- (firstn_skipn n l). apply in_or_app. now left.
Qed.

Lemma sub_self (x : float) : isReal x = true -> (x - x)%float = 0%float.
Proof.
  intros H. apply Prim2SF_inj. rewrite sub_spec.
  pose proof (isReal_SFreal x H) as Hr.
  destruct (Prim2SF x) as [ s | s | | s m e ]; try discriminate.
  - now destruct s.
  - unfold SF64sub, SFsub. rewrite Z.sub_diag. reflexivity.
Qed.

Lemma mul_nan_l (x y : float) : is_nan x = true -> is_nan (x * y)%float = true.
Proof.
  rewrite !is_nan_spec, mul_spec. intros ->. reflexivity.
Qed.

Lemma mul_nan_r (x y : float) : is_nan y = true -> is_nan (x * y)%float = true.
Proof.
  rewrite !is_nan_spec, mul_spec. intros ->. now destruct (Prim2SF x).
Qed.

Lemma add_nan_r (x y : float) : is_nan y = true -> is_nan (x + y)%float = true.
Proof.
  rewrite !is_nan_spec, add_spec. intros ->. now destruct (Prim2SF x).
Qed.

Lemma sub_nan_r (x y : float) : is_nan y = true -> is_nan (x - y)%float = true.
Proof.
  rewrite !is_nan_spec, sub_spec. intros ->. now destruct (Prim2SF x).
Qed.

Lemma sqrt_nan (x : float) : is_nan x = true -> is_nan (PrimFloat.sqrt x) = true.
Proof.
  rewrite !is_nan_spec, sqrt_spec. intros ->. reflexivity.
Qed.

(** A product with zero is a zero or NaN. *)
Lemma mul_zero (p : float) :
  (p * 0 = 0 \/ p * 0 = -0 \/ is_nan (p * 0) = true)%float.
Proof.
  rewrite is_nan_spec.
  assert (H : Prim2SF (p * 0) = S754_zero false \/
              Prim2SF (p * 0) = S754_zero true \/
              Prim2SF (p * 0) = S754_nan).
  { rewrite mul_spec. change (Prim2SF 0) with (S754_zero false).
    destruct (Prim2SF p) as [ [ | ] | s | | [ | ] m e ]; cbn; auto. }
  destruct H as [ H | [ H | H ] ]; [ left | right; left | right; right; exact H ];
    apply Prim2SF_inj; rewrite H; reflexivity.
Qed.

Section SamePlace.

Variable math : MathLib.
Hypothesis conforming : ecma262 math.

Local Open Scope float_scope.

Lemma haversineA_same (lat lon : float) :
  isReal lat = true -> isReal lon = true ->
  haversineA math lat lon lat lon = 0 \/ is_nan (haversineA math lat lon lat lon) = true.
Proof.
  intros Hlat Hlon. destruct conforming as (Hsin & _ & _).
  unfold haversineA. cbv zeta. rewrite (sub_self lat Hlat), (sub_self lon Hlon).
  change (0 * Math_PI / 180 / 2) with 0. rewrite Hsin.
  change (0 * 0) with 0.
  set (p := Math_cos math (lat * Math_PI / 180) * Math_cos math (lat * Math_PI / 180)).
  destruct (mul_zero p) as [ -> | [ -> | H ] ].
  - left. reflexivity.
  - left. reflexivity.
  - right. apply add_nan_r. now apply mul_nan_l.
Qed.

(** The distance of a point from itself is 0, unless the library's cosine
    makes it NaN. *)
Lemma haversineKm_same (lat lon : float) :
  isReal lat = true -> isReal lon = true ->
  haversineKm math lat lon lat lon = 0 \/ is_nan (haversineKm math lat lon lat lon) = true.
Proof.
  intros Hlat Hlon. destruct conforming as (_ & Hatan & Hnan).
  unfold haversineKm. cbv zeta.
  destruct (haversineA_same lat lon Hlat Hlon) as [ -> | H ].
  - left. change (PrimFloat.sqrt 0) with 0. change (PrimFloat.sqrt (1 - 0)) with 1.
    rewrite Hatan. reflexivity.
  - right. apply mul_nan_r, mul_nan_r, Hnan.
    rewrite (sqrt_nan _ H). reflexivity.
Qed.

Lemma haversineKm_same_number (lat lon : float) :
  isReal lat = true -> isReal lon = true ->
  isReal (haversineKm math lat lon lat lon) = true ->
  haversineKm math lat lon lat lon = 0.
Proof.
  intros Hlat Hlon Hd. destruct (haversineKm_same lat lon Hlat Hlon) as [ H | H ];
    [ exact H | ].
  apply isReal_spec in Hd. apply is_nan_spec in H. tauto.
Qed.

End SamePlace.

Lemma withDistance_rowOf (math : MathLib) (base : Feature) (l : list Feature) :
  Forall (rowOf math base) (withDistance math base l).
Proof.
  unfold withDistance. apply Forall_map, Forall_forall. intros x _. reflexivity.
Qed.

Lemma sqrt_negative (x : float) :
  (x <? 0)%float = true -> is_nan (PrimFloat.sqrt x) = true.
Proof.
  rewrite is_nan_spec, sqrt_spec, ltb_spec.
  change (Prim2SF 0) with (S754_zero false).
  destruct (Prim2SF x) as [ [ | ] | [ | ] | | [ | ] m e ]; cbn;
    try discriminate; reflexivity.
Qed.

Lemma one_minus_negative (a : float) :
  (1 <? a)%float = true -> (1 - a <? 0)%float = true.
Proof.
  intros H. destruct (isReal a) eqn:Ha.
  - now rewrite sub_negative.
  - revert H. rewrite !ltb_spec, sub_spec.
    assert (Hr : SFreal (Prim2SF a) = false).
    { destruct (SFreal (Prim2SF a)) eqn:E; [ | reflexivity ].
      rewrite <- Ha. unfold isReal, is_finite, is_nan, is_infinity.
      rewrite !eqb_spec, abs_spec.
      destruct (Prim2SF a) as [ [ | ] | | | [ | ] m e ]; try discriminate;
        cbn; try reflexivity.
      all: rewrite Pos.compare_refl, Z.compare_refl; reflexivity. }
    destruct (Prim2SF a) as [ s | [ | ] | | s m e ]; try discriminate;
      intros H; try discriminate; reflexivity.
Qed.

(** Once [a] exceeds 1 the distance is NaN, whatever the library. *)
Lemma haversineKm_above_one (math : MathLib) (lat1 lon1 lat2 lon2 : float) :
  ecma262 math ->
  (1 <? haversineA math lat1 lon1 lat2 lon2)%float = true ->
  is_nan (haversineKm math lat1 lon1 lat2 lon2) = true.
Proof.
  intros (_ & _ & Hnan) Ha. unfold haversineKm. cbv zeta.
  apply mul_nan_r, mul_nan_r, Hnan.
  rewrite (sqrt_negative _ (one_minus_negative _ Ha)). apply orb_true_r.
Qed.

Lemma recordedMath_ecma262 : ecma262 recordedMath.
Proof.
  split; [ reflexivity | ]. split; [ reflexivity | ].
  intros y x H. cbn [Math_atan2 recordedMath]. rewrite H. reflexivity.
Qed.

Lemma toReal_zero : toReal 0 = 0%R.
Proof. unfold toReal. now change (Prim2SF 0) with (S754_zero false). Qed.

Lemma sorted_prefix_below {A : Type} (rel : A -> A -> Prop) (l : list A) :
  StronglySorted rel l ->
  forall n x, In x (skipn n l) -> Forall (fun a => rel a x) (firstn n l).
Proof.
  induction 1 as [ | a l Hs IH Ha ]; intros [ | n ] x Hx; cbn [firstn skipn] in *;
    try constructor; try contradiction.
  - rewrite Forall_forall in Ha. apply Ha.
    rewrite <- (firstn_skipn n l). apply in_or_app. now right.
  - now apply IH.
Qed.

(** C6.  The rows of [InsightsTable] are the first ten of the ranking
    [byDistance], which rearranges the candidates, each with the distance
    [haversineKm] computes from the reference to it; there are [min 10 n]
    rows for [n] candidates.  When every computed distance is a number,
    the ranking is in ascending order of that distance, candidates at the
    same distance keeping their arrival order, and so are the rows.  With
    a library as ECMA-262 requires it, a candidate at the reference's own
    coordinates then gets distance 0 and is part of the ranking; the first
    row has no greater distance, the candidate itself is among the rows
    unless ten rows of no greater distance fill them, and so it is
    whenever there are at most ten candidates.  The click handler's
    regional ranking is the same pipeline. *)
Theorem InsightsTable_rows_ranked
        (math : MathLib) (base : Feature) (earthquakes : list Feature) :
  let rows := InsightsTable_rows math base earthquakes in
  let ranked := byDistance math base earthquakes in
  rows = firstn 10 ranked
  /\ length rows = Nat.min 10 (length earthquakes)
  /\ Forall (rowOf math base) rows
  /\ Permutation ranked (withDistance math base earthquakes)
  /\ nearestFromApi math base earthquakes = map e rows
  /\ (distancesAreNumbers math base earthquakes ->
      ascendingDistance rows
      /\ ascendingDistance ranked
      /\ (forall d, filter (atDistance d) ranked
                    = filter (atDistance d) (withDistance math base earthquakes))
      /\ (ecma262 math ->
          isReal (latitude base) = true -> isReal (longitude base) = true ->
          forall x,
            In x earthquakes ->
            latitude x = latitude base -> longitude x = longitude base ->
            In (mkRow x 0) ranked
            /\ (exists r rest, rows = r :: rest /\ (distKm r <=? 0)%float = true)
            /\ (In (mkRow x 0) rows
                \/ (length rows = 10%nat
                    /\ Forall (fun r => (distKm r <=? 0)%float = true) rows))
            /\ ((length earthquakes <= 10)%nat -> In (mkRow x 0) rows))).
Proof.
  intros rows ranked.
  assert (Hperm : Permutation ranked (withDistance math base earthquakes))
    by apply Array_sort_perm.
  assert (Hlen : length ranked = length earthquakes).
  { rewrite (Permutation_length Hperm). unfold withDistance. apply length_map. }
  assert (Hrow : Forall (rowOf math base) ranked).
  { eapply Permutation_Forall; [ symmetry; exact Hperm | ].
    apply withDistance_rowOf. }
  split; [ reflexivity | ].
  split; [ unfold rows, InsightsTable_rows; fold ranked;
           now rewrite length_firstn, Hlen | ].
  split.
  { rewrite Forall_forall in *. intros r Hr. apply Hrow.
    now apply (firstn_subset 10). }
  split; [ exact Hperm | ].
  split; [ reflexivity | ].
  intros Hnum.
  assert (Hsorted : ascendingDistance ranked)
    by (apply (Array_sort_sorted distKm); exact Hnum).
  split; [ now apply StronglySorted_firstn | ].
  split; [ exact Hsorted | ].
  split; [ intros d; apply (Array_sort_stable distKm); exact Hnum | ].
  intros Hlib Hblat Hblon x Hx Hlat Hlon.
  assert (Hzero : haversineKm math (latitude base) (longitude base)
                              (latitude x) (longitude x) = 0%float).
  { rewrite Hlat, Hlon. apply haversineKm_same_number; try assumption.
    unfold distancesAreNumbers, withDistance in Hnum.
    rewrite Forall_map, Forall_forall in Hnum. specialize (Hnum x Hx).
    cbn [distKm] in Hnum. now rewrite Hlat, Hlon in Hnum. }
  assert (Hin : In (mkRow x 0) ranked).
  { eapply Permutation_in; [ symmetry; exact Hperm | ].
    unfold withDistance. apply in_map_iff. exists x. split; [ | exact Hx ].
    now rewrite Hzero. }
  assert (Hcases : In (mkRow x 0) rows \/ In (mkRow x 0) (skipn 10 ranked)).
  { apply in_app_or. unfold rows, InsightsTable_rows. fold ranked.
    now rewrite firstn_skipn. }
  split; [ exact Hin | ]. split; [ | split ].
  - unfold rows, InsightsTable_rows. fold ranked.
    destruct ranked as [ | r rest ]; [ contradiction | ].
    exists r, (firstn 9 rest). split; [ reflexivity | ].
    inversion Hsorted as [ | ? ? _ Hr ].
    destruct Hin as [ -> | Hin ]; [ reflexivity | ].
    rewrite Forall_forall in Hr. exact (Hr _ Hin).
  - destruct Hcases as [ Hrows | Hrest ]; [ now left | right ].
    split.
    + unfold rows, InsightsTable_rows. fold ranked. rewrite length_firstn.
      assert (Hlong : (10 < length ranked)%nat).
      { destruct (Nat.lt_ge_cases 10 (length ranked)) as [ H | H ];
          [ exact H | ].
        rewrite skipn_all2 in Hrest by exact H. contradiction. }
      lia.
    + exact (sorted_prefix_below _ ranked Hsorted 10 _ Hrest).
  - intros Hten. unfold rows, InsightsTable_rows. fold ranked.
    rewrite firstn_all2; [ exact Hin | now rewrite Hlen ].
Qed.

Lemma InsightsTable_rows_ranked_witness :
  distancesAreNumbers recordedMath origin [pointX; pointY; origin]
  /\ InsightsTable_rows recordedMath origin [pointX; pointY; origin]
     = [mkRow origin 0; mkRow pointY 0x1.35857c3220666p+11;
        mkRow pointX 0x1.35857c3220667p+11]
  /\ ascendingDistance (InsightsTable_rows recordedMath origin [pointX; pointY; origin])
  /\ In (mkRow origin 0) (InsightsTable_rows recordedMath origin [pointX; pointY; origin]).
Proof.
  assert (Hnum : distancesAreNumbers recordedMath origin [pointX; pointY; origin])
    by (repeat constructor).
  pose proof (InsightsTable_rows_ranked recordedMath origin [pointX; pointY; origin])
    as (_ & _ & _ & _ & _ & Hranked).
  destruct (Hranked Hnum) as (Hs & _ & _ & Hsame).
  split; [ exact Hnum | ].
  split; [ vm_compute; reflexivity | ].
  split; [ exact Hs | ].
  destruct (Hsame recordedMath_ecma262 eq_refl eq_refl origin)
    as (_ & _ & _ & Hin);
    [ right; right; left; reflexivity | reflexivity | reflexivity | ].
  apply Hin. cbn. lia.
Defined.

(** C6, as the specification states it, fails.  On the sphere [X]
    (20 N 10 E) and [Y] (10 N 20 E) are equally far from
    the reference at 0 N 0 E, so by arrival order [X] comes first; the
    computed distances differ in the last bit and the rows list [Y] first.
    And between the two points near the poles, whose distance on the
    sphere is a number like any other, [a] comes out above 1, the computed
    distance is NaN, the comparator answers NaN, and the rows stay as they
    arrived, in either order of arrival: with a NaN among them they are
    not in ascending order. *)
Lemma ranking_follows_computed_distance :
  sphereKm origin pointX = sphereKm origin pointY
  /\ InsightsTable_rows recordedMath origin [pointX; pointY]
     = [mkRow pointY 0x1.35857c3220666p+11; mkRow pointX 0x1.35857c3220667p+11]
  /\ (0 <= sphereKm farSouth farNorth)%R
  /\ InsightsTable_rows recordedMath farSouth [farNorth; farSouth]
     = [mkRow farNorth nan; mkRow farSouth 0]
  /\ (ascendingDistance (InsightsTable_rows recordedMath farSouth [farNorth; farSouth])
      -> False)
  /\ InsightsTable_rows recordedMath farSouth [farSouth; farNorth]
     = [mkRow farSouth 0; mkRow farNorth nan]
  /\ (ascendingDistance (InsightsTable_rows recordedMath farSouth [farSouth; farNorth])
      -> False).
Proof.
  split.
  { unfold sphereKm. cbn [latitude longitude coordinates origin pointX pointY
                            eventAt fst snd].
    rewrite toReal_zero. apply distanceKm_exchange. }
  split; [ vm_compute; reflexivity | ].
  split; [ apply distanceKm_nonneg | ].
  assert (Hrows : InsightsTable_rows recordedMath farSouth [farNorth; farSouth]
                  = [mkRow farNorth nan; mkRow farSouth 0])
    by (vm_compute; reflexivity).
  assert (Hrows' : InsightsTable_rows recordedMath farSouth [farSouth; farNorth]
                   = [mkRow farSouth 0; mkRow farNorth nan])
    by (vm_compute; reflexivity).
  split; [ exact Hrows | ].
  split.
  { rewrite Hrows. intros Hs. inversion Hs as [ | ? ? _ Hr ].
    inversion Hr as [ | ? ? Hle _ ]. cbn [distKm] in Hle. discriminate Hle. }
  split; [ exact Hrows' | ].
  rewrite Hrows'. intros Hs. inversion Hs as [ | ? ? _ Hr ].
  inversion Hr as [ | ? ? Hle _ ]. cbn [distKm] in Hle. discriminate Hle.
Qed.

(** C9.  The distance on the sphere between an event off Ecuador at
    2.5 S 80 W and one in Sumatra at 2.5 N 100 E is a real number that is
    not negative, the exact [a] being within [[0, 1]].  [haversineKm]
    computes [a] with rounding and arrives at [1.0000000000000002]; the
    square root of [1 - a] is then NaN and so is the result, which is
    neither [>= 0] nor a distance.  The same happens between 87.5 S 0 E
    and 87.5 N 180 E, and with any library once the computed [a] exceeds
    1. *)
Theorem haversineKm_near_antipodes :
  (0 <= exactA (toReal (-2.5)) (toReal (-80)) (toReal 2.5) (toReal 100) <= 1)%R
  /\ (0 <= sphereKm ecuador sumatra)%R
  /\ haversineA recordedMath (-2.5) (-80) 2.5 100 = 0x1.0000000000001p+0%float
  /\ is_nan (PrimFloat.sqrt (1 - haversineA recordedMath (-2.5) (-80) 2.5 100)) = true
  /\ is_nan (haversineKm recordedMath (-2.5) (-80) 2.5 100) = true
  /\ (0 <=? haversineKm recordedMath (-2.5) (-80) 2.5 100)%float = false
  /\ is_nan (haversineKm recordedMath 2.5 100 (-2.5) (-80)) = true
  /\ withDistance recordedMath ecuador [sumatra; ecuador]
     = [mkRow sumatra nan; mkRow ecuador 0]
  /\ (0 <= sphereKm farSouth farNorth)%R
  /\ haversineA recordedMath (-87.5) 0 87.5 180 = 0x1.0000000000001p+0%float
  /\ is_nan (haversineKm recordedMath (-87.5) 0 87.5 180) = true
  /\ (forall math lat1 lon1 lat2 lon2,
        ecma262 math ->
        (1 <? haversineA math lat1 lon1 lat2 lon2)%float = true ->
        is_nan (haversineKm math lat1 lon1 lat2 lon2) = true).
Proof.
  split; [ apply exactA_range | ].
  split; [ apply distanceKm_nonneg | ].
  split; [ vm_compute; reflexivity | ].
  split; [ vm_compute; reflexivity | ].
  split; [ vm_compute; reflexivity | ].
  split; [ vm_compute; reflexivity | ].
  split; [ vm_compute; reflexivity | ].
  split; [ vm_compute; reflexivity | ].
  split; [ apply distanceKm_nonneg | ].
  split; [ vm_compute; reflexivity | ].
  split; [ vm_compute; reflexivity | ].
  exact haversineKm_above_one.
Qed.
(* ================================================================== *)
(** * Text of dates *)
(* ================================================================== *)

Lemma append_assoc (a b c : string) : ((a ++ b) ++ c = a ++ (b ++ c))%string.
Proof. induction a as [ | x a IH ]; cbn; [ reflexivity | now rewrite IH ]. Qed.

Lemma length_append (a b : string) :
  String.length (a ++ b) = (String.length a + String.length b)%nat.
Proof. induction a as [ | x a IH ]; cbn; [ reflexivity | now rewrite IH ]. Qed.

Lemma length_pad (w : nat) (n : Z) : String.length (pad w n) = w.
Proof.
  revert n. induction w as [ | w IH ]; intros n; cbn [pad]; [ reflexivity | ].
  rewrite length_append, IH. cbn. lia.
Qed.

Lemma substring_prefix (s r : string) :
  substring 0 (String.length s) (s ++ r) = s.
Proof. induction s as [ | x s IH ]; cbn; [ now destruct r | now rewrite IH ]. Qed.

Lemma substring_skip (s r : string) (m : nat) :
  substring (String.length s) m (s ++ r) = substring 0 m r.
Proof. induction s as [ | x s IH ]; cbn; [ reflexivity | exact IH ]. Qed.

(** The code of a digit character. *)
Lemma digitChar_code (d : Z) :
  0 <= d <= 9 -> nat_of_ascii (digitChar d) = (48 + Z.to_nat d)%nat.
Proof. intros Hd. unfold digitChar. apply nat_ascii_embedding. lia. Qed.

Lemma digitChar_not_T (d : Z) : 0 <= d <= 9 -> Ascii.eqb (digitChar d) "T" = false.
Proof.
  intros Hd. apply Ascii.eqb_neq. intros E.
  apply (f_equal nat_of_ascii) in E. rewrite digitChar_code in E by exact Hd.
  cbn in E. lia.
Qed.

Lemma noT_append (a b : string) : noT (a ++ b) = noT a && noT b.
Proof.
  induction a as [ | x a IH ]; cbn; [ reflexivity | ].
  now rewrite IH, andb_assoc.
Qed.

Lemma noT_pad (w : nat) (n : Z) : noT (pad w n) = true.
Proof.
  revert n. induction w as [ | w IH ]; intros n; cbn [pad]; [ reflexivity | ].
  rewrite noT_append, IH. cbn [noT andb].
  rewrite digitChar_not_T; [ reflexivity | ].
  pose proof (Z.mod_pos_bound n 10). lia.
Qed.

Lemma noT_isoText (d : IsoDate) : noT (isoText d) = true.
Proof.
  unfold isoText, yearText.
  destruct ((0 <=? isoYear d) && (isoYear d <=? 9999));
    [ | destruct (0 <=? isoYear d) ];
    rewrite ?noT_append, ?noT_pad; reflexivity.
Qed.

Lemma beforeT_append (s r : string) :
  noT s = true -> beforeT (s ++ String "T" r) = s.
Proof.
  induction s as [ | x s IH ]; cbn; intros H; [ reflexivity | ].
  apply andb_true_iff in H. destruct H as [Hx Hs].
  apply negb_true_iff in Hx. rewrite Hx. now rewrite IH.
Qed.

Lemma length_isoText (d : IsoDate) :
  0 <= isoYear d <= 9999 -> String.length (isoText d) = 10%nat.
Proof.
  intros Hy. unfold isoText, yearText.
  destruct (Z.leb_spec 0 (isoYear d)); [ | lia ].
  destruct (Z.leb_spec (isoYear d) 9999); [ | lia ].
  cbn [andb]. now rewrite !length_append, !length_pad.
Qed.

Lemma toISOString_split (t : Z) :
  exists r, toISOString t = (isoText (formatDate t) ++ String "T" r)%string.
Proof. unfold toISOString. eexists. reflexivity. Qed.

(** [date.toISOString().split('T')[0]] is the text of [formatDate date]. *)
Lemma formatDateText_isoText (date : Date) :
  formatDateText date = isoText (formatDate date).
Proof.
  unfold formatDateText. destruct (toISOString_split date) as [r ->].
  apply beforeT_append, noT_isoText.
Qed.

Lemma slice_date (t : Z) :
  0 <= YearFromTime t <= 9999 ->
  slice 0 10 (toISOString t) = isoText (formatDate t).
Proof.
  intros Hy. destruct (toISOString_split t) as [r ->].
  unfold slice. cbn [Nat.sub].
  rewrite <- (length_isoText (formatDate t)) by exact Hy.
  apply substring_prefix.
Qed.

Lemma digitChar_compare (a b : Z) :
  0 <= a <= 9 -> 0 <= b <= 9 ->
  Ascii.compare (digitChar a) (digitChar b) = (a ?= b).
Proof.
  intros Ha Hb. unfold Ascii.compare, digitChar, ascii_of_nat.
  rewrite !N_ascii_embedding by lia.
  destruct (N.compare_spec (N.of_nat (48 + Z.to_nat a)) (N.of_nat (48 + Z.to_nat b)));
    destruct (Z.compare_spec a b); try reflexivity; lia.
Qed.

(** Zero-padded numbers compare as texts the way they compare as numbers. *)
Lemma pad_compare (w : nat) :
  forall (a b : Z) (r1 r2 : string),
  0 <= a < 10 ^ Z.of_nat w -> 0 <= b < 10 ^ Z.of_nat w ->
  String.compare (pad w a ++ r1) (pad w b ++ r2)
  = match a ?= b with Eq => String.compare r1 r2 | c => c end.
Proof.
  induction w as [ | w IH ]; intros a b r1 r2 Ha Hb.
  - cbn in Ha, Hb. assert (a = 0) by lia. assert (b = 0) by lia. subst.
    reflexivity.
  - rewrite Nat2Z.inj_succ, Z.pow_succ_r in Ha, Hb by lia.
    cbn [pad]. rewrite !append_assoc. cbn [append].
    rewrite IH by (split; [ apply Z.div_pos | apply Z.div_lt_upper_bound ]; lia).
    cbn [String.compare].
    pose proof (Z.mod_pos_bound a 10 ltac:(lia)) as Hma.
    pose proof (Z.mod_pos_bound b 10 ltac:(lia)) as Hmb.
    rewrite digitChar_compare by lia.
    pose proof (Z.div_mod a 10 ltac:(lia)) as Ea.
    pose proof (Z.div_mod b 10 ltac:(lia)) as Eb.
    destruct (Z.compare_spec (a / 10) (b / 10)) as [Hq | Hq | Hq];
      destruct (Z.compare_spec (a mod 10) (b mod 10)) as [Hr | Hr | Hr];
      destruct (Z.compare_spec a b) as [Hc | Hc | Hc];
      try reflexivity; try lia.
Qed.

Lemma append_empty (s : string) : (s ++ "")%string = s.
Proof. induction s as [ | x s IH ]; cbn; [ reflexivity | now rewrite IH ]. Qed.

Lemma isoText_compare (a b : IsoDate) :
  0 <= isoYear a <= 9999 -> 0 <= isoYear b <= 9999 ->
  0 <= isoMonth a <= 99 -> 0 <= isoMonth b <= 99 ->
  0 <= isoDay a <= 99 -> 0 <= isoDay b <= 99 ->
  String.compare (isoText a) (isoText b) = IsoDate_compare a b.
Proof.
  intros Hya Hyb Hma Hmb Hda Hdb. unfold isoText, yearText, IsoDate_compare.
  destruct (Z.leb_spec 0 (isoYear a)); [ | lia ].
  destruct (Z.leb_spec (isoYear a) 9999); [ | lia ].
  destruct (Z.leb_spec 0 (isoYear b)); [ | lia ].
  destruct (Z.leb_spec (isoYear b) 9999); [ | lia ].
  cbn [andb].
  rewrite pad_compare by (cbn; lia).
  destruct (isoYear a ?= isoYear b); try reflexivity.
  cbn [append String.compare]. change (Ascii.compare "-" "-") with Eq. cbv iota.
  rewrite pad_compare by (cbn; lia).
  destruct (isoMonth a ?= isoMonth b); try reflexivity.
  cbn [append String.compare]. change (Ascii.compare "-" "-") with Eq. cbv iota.
  rewrite <- (append_empty (pad 2 (isoDay a))), <- (append_empty (pad 2 (isoDay b))).
  rewrite pad_compare by (cbn; lia).
  now destruct (isoDay a ?= isoDay b).
Qed.

Lemma DayFromYear_mono (y y' : Z) : y <= y' -> DayFromYear y <= DayFromYear y'.
Proof. unfold DayFromYear. intros H. Z.div_mod_to_equations. lia. Qed.

Lemma YearFromDay_mono (d d' : Z) : d <= d' -> YearFromDay d <= YearFromDay d'.
Proof.
  intros H. pose proof (YearFromDay_spec d) as Hd.
  pose proof (YearFromDay_spec d') as Hd'.
  destruct (Z_le_gt_dec (YearFromDay d) (YearFromDay d')) as [ | Hgt ]; [ assumption | ].
  pose proof (DayFromYear_mono (YearFromDay d' + 1) (YearFromDay d) ltac:(lia)). lia.
Qed.

Lemma monthOfDay_lt (leap n n' : Z) :
  0 <= leap <= 1 -> n < n' ->
  monthOfDay leap n < monthOfDay leap n'
  \/ (monthOfDay leap n = monthOfDay leap n'
      /\ n - monthStart leap (monthOfDay leap n)
         < n' - monthStart leap (monthOfDay leap n')).
Proof.
  intros Hl Hn. unfold monthOfDay.
  repeat match goal with
         | |- context [if ?a <? ?b then _ else _] => destruct (Z.ltb_spec a b)
         end; try (left; lia); try lia; right; (split; [ reflexivity | ]);
    cbn; lia.
Qed.

Lemma formatDate_of_day (t : Z) :
  formatDate t
  = let y := YearFromDay (Day t) in
    let leap := if isLeapYear y then 1 else 0 in
    let n := Day t - DayFromYear y in
    mkIsoDate y (monthOfDay leap n + 1)
              (n + 1 - monthStart leap (monthOfDay leap n)).
Proof. reflexivity. Qed.

Lemma formatDate_lt (a b : Z) :
  Day a < Day b -> IsoDate_compare (formatDate a) (formatDate b) = Lt.
Proof.
  intros H. rewrite !formatDate_of_day. cbv zeta. unfold IsoDate_compare.
  cbn [isoYear isoMonth isoDay].
  pose proof (YearFromDay_mono (Day a) (Day b) ltac:(lia)) as Hy.
  destruct (Z.compare_spec (YearFromDay (Day a)) (YearFromDay (Day b)))
    as [E | Hlt | Hgt]; [ | reflexivity | lia ].
  rewrite E.
  set (leap := if isLeapYear (YearFromDay (Day b)) then 1 else 0).
  assert (Hl : 0 <= leap <= 1) by (unfold leap; destruct (isLeapYear _); lia).
  destruct (monthOfDay_lt leap (Day a - DayFromYear (YearFromDay (Day b)))
              (Day b - DayFromYear (YearFromDay (Day b))) Hl ltac:(lia))
    as [Hm | [Hm Hd] ].
  - assert (E' : (monthOfDay leap (Day a - DayFromYear (YearFromDay (Day b))) + 1
                  ?= monthOfDay leap (Day b - DayFromYear (YearFromDay (Day b))) + 1)
                 = Lt) by (apply Z.compare_lt_iff; lia).
    rewrite E'. reflexivity.
  - rewrite Hm, Z.compare_refl. apply Z.compare_lt_iff. lia.
Qed.

(** The calendar date orders time values as their UTC day does. *)
Lemma formatDate_compare (a b : Z) :
  IsoDate_compare (formatDate a) (formatDate b) = (Day a ?= Day b).
Proof.
  destruct (Z.compare_spec (Day a) (Day b)) as [E | Hlt | Hgt].
  - rewrite !formatDate_of_day, E. cbv zeta. unfold IsoDate_compare.
    cbn [isoYear isoMonth isoDay]. now rewrite !Z.compare_refl.
  - now apply formatDate_lt.
  - pose proof (formatDate_lt b a Hgt) as H. revert H.
    unfold IsoDate_compare.
    rewrite (Z.compare_antisym (isoYear (formatDate a))),
            (Z.compare_antisym (isoMonth (formatDate a))),
            (Z.compare_antisym (isoDay (formatDate a))).
    destruct (isoYear (formatDate a) ?= isoYear (formatDate b));
      destruct (isoMonth (formatDate a) ?= isoMonth (formatDate b));
      destruct (isoDay (formatDate a) ?= isoDay (formatDate b));
      cbn; congruence.
Qed.

(** Time values of the years 0 to 9999 are ones a Date can hold. *)
Lemma fourDigitYear_valid (t : Z) : fourDigitYear t -> validTime t = true.
Proof.
  unfold fourDigitYear, YearFromTime, validTime. intros Hy.
  pose proof (YearFromDay_spec (Day t)) as [Hlo Hhi].
  pose proof (DayFromYear_mono 0 (YearFromDay (Day t)) ltac:(lia)) as H0.
  pose proof (DayFromYear_mono (YearFromDay (Day t) + 1) 10000 ltac:(lia)) as H1.
  assert (E0 : DayFromYear 0 = -719528) by (vm_compute; reflexivity).
  assert (E1 : DayFromYear 10000 = 2932897) by (vm_compute; reflexivity).
  rewrite E0 in H0. rewrite E1 in H1.
  apply Z.leb_le. revert Hlo Hhi H0 H1.
  generalize (DayFromYear (YearFromDay (Day t))).
  generalize (DayFromYear (YearFromDay (Day t) + 1)).
  unfold Day, msPerDay. intros a b Hlo Hhi H0 H1.
  Z.div_mod_to_equations. lia.
Qed.

(* ================================================================== *)
(** * Events per day *)
(* ================================================================== *)

(** X1.  For two events of the years 0 to 9999 the day labels
    of the chart compare as texts exactly as the UTC days of the events
    compare: sorting the labels sorts the days chronologically. *)
Theorem dayOf_compare (f g : VisFeature) :
  fourDigitYear (vtime f) -> fourDigitYear (vtime g) ->
  String.compare (dayOf f) (dayOf g) = (Day (vtime f) ?= Day (vtime g)).
Proof.
  intros Hf Hg. unfold dayOf. rewrite !slice_date by assumption.
  rewrite <- formatDate_compare.
  pose proof (MonthFromTime_range (vtime f)).
  pose proof (MonthFromTime_range (vtime g)).
  pose proof (DateFromTime_range (vtime f)).
  pose proof (DateFromTime_range (vtime g)).
  apply isoText_compare; cbn [formatDate isoYear isoMonth isoDay];
    try assumption; lia.
Qed.

Lemma dayOf_compare_witness :
  String.compare (dayOf (mkVisFeature 1.5 1709210096789))
                 (dayOf (mkVisFeature 3 1709296496789))
  = (Day 1709210096789 ?= Day 1709296496789).
Proof.
  assert (E1 : YearFromTime 1709210096789 = 2024) by (vm_compute; reflexivity).
  assert (E2 : YearFromTime 1709296496789 = 2024) by (vm_compute; reflexivity).
  apply (dayOf_compare (mkVisFeature 1.5 1709210096789)
                       (mkVisFeature 3 1709296496789));
    unfold fourDigitYear; cbn [vtime]; [ rewrite E1 | rewrite E2 ]; lia.
Defined.

(** The day labels of two time values compare as their UTC days. *)
Lemma label_compare (t u : Z) :
  fourDigitYear t -> fourDigitYear u ->
  String.compare (slice 0 10 (toISOString t)) (slice 0 10 (toISOString u))
  = (Day t ?= Day u).
Proof.
  intros Ht Hu. rewrite !slice_date by assumption.
  rewrite <- formatDate_compare.
  pose proof (MonthFromTime_range t). pose proof (MonthFromTime_range u).
  pose proof (DateFromTime_range t). pose proof (DateFromTime_range u).
  apply isoText_compare; cbn [formatDate isoYear isoMonth isoDay];
    try assumption; lia.
Qed.

Lemma dayOf_eqb (f g : VisFeature) :
  fourDigitYear (vtime f) -> fourDigitYear (vtime g) ->
  String.eqb (dayOf f) (dayOf g) = (Day (vtime f) =? Day (vtime g)).
Proof.
  intros Hf Hg. pose proof (label_compare _ _ Hf Hg) as H. fold (dayOf f) (dayOf g) in H.
  destruct (String.eqb_spec (dayOf f) (dayOf g)) as [ E | E ];
    destruct (Z.eqb_spec (Day (vtime f)) (Day (vtime g))) as [ D | D ];
    try reflexivity.
  - apply OrderedTypeEx.String_as_OT.cmp_eq in E.
    change (String.compare (dayOf f) (dayOf g) = Eq) in E.
    rewrite E in H. symmetry in H. apply Z.compare_eq_iff in H. contradiction.
  - apply Z.compare_eq_iff in D. rewrite D in H.
    apply String.compare_eq_iff in H. contradiction.
Qed.

Lemma dayOf_ltb (f g : VisFeature) :
  fourDigitYear (vtime f) -> fourDigitYear (vtime g) ->
  String.ltb (dayOf f) (dayOf g) = true -> Day (vtime f) < Day (vtime g).
Proof.
  intros Hf Hg. unfold String.ltb.
  pose proof (label_compare _ _ Hf Hg) as H. fold (dayOf f) (dayOf g) in H.
  rewrite H. destruct (Z.compare_spec (Day (vtime f)) (Day (vtime g)));
    try discriminate. intros _. assumption.
Qed.

Lemma getCount_setCount (k k' : string) (v : Z) (c : Counts) :
  getCount k' (setCount k v c)
  = if String.eqb k' k then Some v else getCount k' c.
Proof.
  induction c as [ | [k0 v0] c IH ]; cbn [setCount getCount].
  - now destruct (String.eqb k' k).
  - destruct (String.eqb_spec k k0) as [ -> | Hk ]; cbn [getCount].
    + now destruct (String.eqb k' k0).
    + rewrite IH. destruct (String.eqb_spec k' k0) as [ -> | Hk' ];
        [ | reflexivity ].
      destruct (String.eqb_spec k0 k); [ congruence | reflexivity ].
Qed.

Lemma setCount_keys (k : string) (v : Z) (c : Counts) :
  map fst (setCount k v c)
  = match getCount k c with
    | Some _ => map fst c
    | None => map fst c ++ [k]
    end.
Proof.
  induction c as [ | [k0 v0] c IH ]; cbn [setCount getCount map fst app];
    [ reflexivity | ].
  destruct (String.eqb_spec k k0) as [ -> | Hk ]; cbn [map fst];
    [ reflexivity | ].
  rewrite IH. now destruct (getCount k c).
Qed.

Lemma getCount_None (k : string) (c : Counts) :
  getCount k c = None <-> ~ In k (map fst c).
Proof.
  induction c as [ | [k0 v0] c IH ]; cbn [getCount map fst In]; [ tauto | ].
  destruct (String.eqb_spec k k0) as [ -> | Hk ].
  - split; [ discriminate | tauto ].
  - rewrite IH. split; [ intros H [E | E]; [ congruence | tauto ] | tauto ].
Qed.

Lemma getCount_In (k : string) (v : Z) (c : Counts) :
  NoDup (map fst c) -> (In (k, v) c <-> getCount k c = Some v).
Proof.
  induction c as [ | [k0 v0] c IH ]; cbn [getCount map fst In]; intros Hnd.
  - split; [ tauto | discriminate ].
  - inversion Hnd as [ | ? ? Hk0 Hnd' ]; subst.
    destruct (String.eqb_spec k k0) as [ -> | Hk ].
    + split.
      * intros [E | Hin]; [ congruence | ].
        elim Hk0. now apply (in_map fst) in Hin.
      * intros E. left. congruence.
    + rewrite <- (IH Hnd'). split; [ intros [E | Hin]; [ congruence | assumption ] | tauto ].
Qed.

Lemma total_setCount (k : string) (v : Z) (c : Counts) :
  total (setCount k v c)
  = total c + v - match getCount k c with Some n => n | None => 0 end.
Proof.
  induction c as [ | [k0 v0] c IH ]; cbn [setCount getCount total fold_right snd].
  - lia.
  - destruct (String.eqb k k0); cbn [total fold_right snd]; [ lia | ].
    fold (total (setCount k v c)). fold (total c). rewrite IH. lia.
Qed.

Lemma eventsOn_snoc (day : string) (l : list VisFeature) (f : VisFeature) :
  eventsOn day (l ++ [f])
  = eventsOn day l + if String.eqb (dayOf f) day then 1 else 0.
Proof.
  unfold eventsOn. rewrite filter_app, length_app. cbn [filter].
  destruct (String.eqb (dayOf f) day); cbn [length]; lia.
Qed.

Lemma eventsOn_nonneg (day : string) (l : list VisFeature) : 0 <= eventsOn day l.
Proof. unfold eventsOn. lia. Qed.

Lemma dayCounts_snoc (l : list VisFeature) (f : VisFeature) :
  dayCounts (l ++ [f]) = addDay (dayCounts l) f.
Proof. unfold dayCounts. now rewrite fold_left_app. Qed.

(** The table built by the loop of [byDay]: one entry per day that occurs,
    holding the number of its events. *)
Lemma dayCounts_spec (data : list VisFeature) :
  NoDup (map fst (dayCounts data))
  /\ (forall day,
        getCount day (dayCounts data)
        = if eventsOn day data =? 0 then None else Some (eventsOn day data))
  /\ total (dayCounts data) = Z.of_nat (length data).
Proof.
  induction data as [ | f l (Hnd & Hget & Htot) ] using rev_ind.
  - split; [ constructor | ]. split; [ reflexivity | reflexivity ].
  - rewrite dayCounts_snoc. unfold addDay.
    split; [ | split ].
    + rewrite setCount_keys.
      destruct (getCount (dayOf f) (dayCounts l)) eqn:E; [ assumption | ].
      apply getCount_None in E.
      apply NoDup_incl_NoDup with (l := dayOf f :: map fst (dayCounts l)).
      * now constructor.
      * rewrite length_app. cbn. lia.
      * intros x Hx. apply in_or_app. cbn in *. tauto.
    + intros day. rewrite getCount_setCount, eventsOn_snoc, Hget.
      rewrite (String.eqb_sym day).
      pose proof (eventsOn_nonneg day l) as H0.
      pose proof (eventsOn_nonneg (dayOf f) l) as H1.
      destruct (String.eqb_spec (dayOf f) day) as [ E | Hne ].
      * subst day. destruct (Z.eqb_spec (eventsOn (dayOf f) l) 0) as [ -> | Hn ].
        -- reflexivity.
        -- destruct (Z.eqb_spec (eventsOn (dayOf f) l + 1) 0); [ lia | reflexivity ].
      * now rewrite Z.add_0_r.
    + rewrite total_setCount, Htot, length_app. cbn [length].
      destruct (getCount (dayOf f) (dayCounts l)); lia.
Qed.

Lemma byLabel_positive (a b : string * Z) :
  (0 <? byLabel a b)%float = negb (String.ltb (fst a) (fst b)).
Proof. unfold byLabel. now destruct (String.ltb (fst a) (fst b)). Qed.

Lemma string_ltb_trans (a b c : string) :
  String.ltb a b = true -> String.ltb b c = true -> String.ltb a c = true.
Proof.
  unfold String.ltb. intros Hab Hbc.
  destruct (String.compare a b) eqn:Eab; try discriminate.
  destruct (String.compare b c) eqn:Ebc; try discriminate.
  apply OrderedTypeEx.String_as_OT.cmp_lt in Eab, Ebc.
  pose proof (OrderedTypeEx.String_as_OT.lt_trans _ _ _ Eab Ebc) as H.
  apply OrderedTypeEx.String_as_OT.cmp_lt in H.
  unfold OrderedTypeEx.String_as_OT.cmp in H. now rewrite H.
Qed.

Lemma string_ltb_total (a b : string) :
  a <> b -> String.ltb a b = false -> String.ltb b a = true.
Proof.
  unfold String.ltb. intros Hne. rewrite (String.compare_antisym b a).
  destruct (String.compare a b) eqn:E; try reflexivity; try discriminate.
  apply String.compare_eq_iff in E. contradiction.
Qed.

Lemma insertBy_ascending (x : string * Z) (l : list (string * Z)) :
  ~ In (fst x) (map fst l) -> ascending l -> ascending (insertBy byLabel x l).
Proof.
  unfold ascending. intros Hx Hs. induction Hs as [ | y l Hs IH Hy ];
    cbn [insertBy].
  - repeat constructor.
  - cbn [map In] in Hx. rewrite byLabel_positive.
    destruct (String.ltb (fst x) (fst y)) eqn:Hxy; cbn [negb].
    + constructor; [ now constructor | ].
      constructor; [ assumption | ].
      rewrite Forall_forall in *. intros z Hz.
      apply (string_ltb_trans _ (fst y)); [ assumption | now apply Hy ].
    + assert (Hyx : String.ltb (fst y) (fst x) = true)
        by (apply string_ltb_total; [ intros E; apply Hx; left; now symmetry | assumption ]).
      constructor; [ apply IH; tauto | ].
      apply (Permutation_Forall (Permutation_sym (insertBy_perm byLabel x l))).
      now constructor.
Qed.

Lemma Array_sort_ascending (l : list (string * Z)) :
  NoDup (map fst l) -> ascending (Array_sort byLabel l).
Proof.
  induction l as [ | x l IH ]; cbn [Array_sort fold_right map]; intros Hnd.
  - constructor.
  - fold (Array_sort byLabel l). inversion Hnd as [ | ? ? Hx Hnd' ]; subst.
    apply insertBy_ascending; [ | now apply IH ].
    intros Hin. apply Hx.
    apply (Permutation_in _ (Permutation_map fst (Array_sort_perm byLabel l))).
    exact Hin.
Qed.

Lemma total_Permutation (a b : list (string * Z)) :
  Permutation a b -> total a = total b.
Proof.
  induction 1 as [ | x a b _ IH | x y a | a b c _ IH1 _ IH2 ];
    cbn [total fold_right] in *; try fold (total a) in *; try fold (total b) in *;
    try lia.
Qed.

Lemma eventsOn_day (data : list VisFeature) (f : VisFeature) :
  Forall (fun g => fourDigitYear (vtime g)) data -> fourDigitYear (vtime f) ->
  eventsOn (dayOf f) data = eventsOnDay (Day (vtime f)) data.
Proof.
  intros Hd Hf. unfold eventsOn, eventsOnDay. do 2 f_equal.
  apply filter_ext_in. intros g Hg. rewrite Forall_forall in Hd.
  apply dayOf_eqb; [ now apply Hd | assumption ].
Qed.

Lemma eventsOn_positive (day : string) (data : list VisFeature) :
  1 <= eventsOn day data <-> exists f, In f data /\ dayOf f = day.
Proof.
  unfold eventsOn. split.
  - intros H.
    destruct (filter (fun f => String.eqb (dayOf f) day) data) as [ | f l ] eqn:E;
      [ cbn in H; lia | ].
    assert (Hin : In f (filter (fun f => String.eqb (dayOf f) day) data))
      by (rewrite E; now left).
    apply filter_In in Hin. destruct Hin as [Hin Hday].
    exists f. split; [ assumption | now apply String.eqb_eq ].
  - intros (f & Hin & Hday).
    assert (Hf : In f (filter (fun f => String.eqb (dayOf f) day) data))
      by (apply filter_In; split; [ assumption | now apply String.eqb_eq ]).
    destruct (filter (fun f => String.eqb (dayOf f) day) data);
      [ contradiction | cbn [length]; lia ].
Qed.

Lemma ascending_chronological (data : list VisFeature) (rows : list (string * Z)) :
  Forall (fun g => fourDigitYear (vtime g)) data ->
  ascending rows -> chronological data rows.
Proof.
  intros Hd. rewrite Forall_forall in Hd. unfold ascending, chronological.
  induction 1 as [ | a rows Hs IH Ha ]; constructor; [ exact IH | ].
  eapply Forall_impl; [ | exact Ha ]. cbv beta.
  intros b Hab f g Hf Hg Ef Eg. rewrite <- Ef, <- Eg in Hab.
  apply dayOf_ltb; auto.
Qed.

(** X2.  For events of the years 0 to 9999, [byDay] returns its rows in
    strictly ascending order of their day text (so no day is listed
    twice), which is the chronological order of the days; a pair
    [(day, n)] is a row exactly when [day] is the label of some event and
    [n] is the number of events on the UTC day of that event; and the
    counts add up to the number of events. *)
Theorem byDay_rows (data : list VisFeature) :
  Forall (fun f => fourDigitYear (vtime f)) data ->
  exists rows,
    byDay data = Some rows
    /\ ascending rows
    /\ chronological data rows
    /\ (forall day n,
          In (day, n) rows
          <-> exists f, In f data /\ day = dayOf f
                        /\ n = eventsOnDay (Day (vtime f)) data)
    /\ total rows = Z.of_nat (length data).
Proof.
  intros Hy.
  assert (Hv : forallb (fun f => validTime (vtime f)) data = true).
  { apply forallb_forall. intros f Hf. rewrite Forall_forall in Hy.
    now apply fourDigitYear_valid, Hy. }
  unfold byDay. rewrite Hv. eexists. split; [ reflexivity | ].
  destruct (dayCounts_spec data) as (Hnd & Hget & Htot).
  pose proof (Array_sort_perm byLabel (dayCounts data)) as Hp.
  assert (Hasc : ascending (Array_sort byLabel (dayCounts data)))
    by now apply Array_sort_ascending.
  split; [ exact Hasc | ].
  split; [ now apply ascending_chronological | ].
  split; [ | now rewrite (total_Permutation _ _ Hp) ].
  intros day n. split.
  - intros Hin. apply (Permutation_in _ Hp) in Hin.
    apply (getCount_In _ _ _ Hnd) in Hin. rewrite Hget in Hin.
    pose proof (eventsOn_nonneg day data).
    destruct (Z.eqb_spec (eventsOn day data) 0); [ discriminate | ].
    injection Hin as <-.
    destruct (proj1 (eventsOn_positive day data) ltac:(lia)) as (f & Hf & Hday).
    exists f. split; [ assumption | ]. split; [ now symmetry | ].
    rewrite <- Hday. apply eventsOn_day; [ assumption | ].
    rewrite Forall_forall in Hy. now apply Hy.
  - intros (f & Hf & -> & ->). apply (Permutation_in _ (Permutation_sym Hp)).
    apply (getCount_In _ _ _ Hnd). rewrite Hget.
    assert (Hyf : fourDigitYear (vtime f))
      by (rewrite Forall_forall in Hy; now apply Hy).
    rewrite <- (eventsOn_day data f Hy Hyf).
    pose proof (proj2 (eventsOn_positive (dayOf f) data)
                      (ex_intro _ f (conj Hf eq_refl))).
    destruct (Z.eqb_spec (eventsOn (dayOf f) data) 0); [ lia | reflexivity ].
Qed.

Lemma byDay_rows_witness :
  Forall (fun f => fourDigitYear (vtime f)) sampleDays
  /\ byDay sampleDays
     = Some [("2024-01-01", 1); ("2024-02-29", 1); ("2024-03-01", 2)]%string
  /\ exists rows,
       byDay sampleDays = Some rows
       /\ ascending rows
       /\ chronological sampleDays rows
       /\ (forall day n,
             In (day, n) rows
             <-> exists f, In f sampleDays /\ day = dayOf f
                           /\ n = eventsOnDay (Day (vtime f)) sampleDays)
       /\ total rows = Z.of_nat (length sampleDays).
Proof.
  assert (E1 : YearFromTime 1709296496789 = 2024) by (vm_compute; reflexivity).
  assert (E2 : YearFromTime 1709210096789 = 2024) by (vm_compute; reflexivity).
  assert (E3 : YearFromTime 1704067200000 = 2024) by (vm_compute; reflexivity).
  assert (E4 : YearFromTime 1709251200000 = 2024) by (vm_compute; reflexivity).
  assert (Hy : Forall (fun f => fourDigitYear (vtime f)) sampleDays).
  { unfold sampleDays, fourDigitYear. repeat constructor; cbn [vtime];
      rewrite ?E1, ?E2, ?E3, ?E4; lia. }
  split; [ exact Hy | ].
  split; [ vm_compute; reflexivity | ].
  exact (byDay_rows sampleDays Hy).
Defined.
(* ================================================================== *)
(** * The outcome of a fetch, its requests, and the pipeline run twice *)
(* ================================================================== *)

Lemma dateRange_cases (p : EarthquakeMapProps) :
  (exists startDate endDate, dateRange p = (Some startDate, Some endDate))
  \/ (forall startDate endDate, dateRange p <> (Some startDate, Some endDate)).
Proof. destruct (dateRange p) as [ [ a | ] [ b | ] ]; eauto; right; congruence. Qed.

Lemma Forall_failure_snoc (fetch : Request -> Response) (p : EarthquakeMapProps)
      (pre : list Chunk) (c : Chunk) (m : option string) :
  failure (fetch (requestOf p c)) = Some m ->
  ~ Forall (fun r => failure (fetch r) = None) (map (requestOf p) (pre ++ [c])).
Proof.
  intros Hm Hall. rewrite Forall_forall in Hall.
  specialize (Hall (requestOf p c)). rewrite Hm in Hall.
  assert (Some m = None); [ | discriminate ].
  apply Hall, in_map, in_or_app. right. now left.
Qed.

(** The outcome of a completed run. *)
Lemma run_outcome
  (tz : Z) (fetch : Request -> Response) (p : EarthquakeMapProps)
  (fuel : nat) (s : MapState) (run : Run) :
  fetchEarthquakes tz fetch p fuel s = Some run ->
  loading (state run) = false
  /\ (error (state run) = None
      <-> Forall (fun r => failure (fetch r) = None) (issued run))
  /\ (error (state run) = None ->
      earthquakes (state run)
      = (match dateRange p with
         | (Some _, Some _) => filterRange p
         | _ => filterFeed p
         end) (flat_map (fun r => featuresOf (fetch r)) (issued run))
      /\ countUpdates run
         = if onEarthquakeCountUpdate p
           then [Z.of_nat (length (earthquakes (state run)))] else []).
Proof.
  intros Hrun.
  assert (Hload : loading (state run) = false).
  { unfold fetchEarthquakes in Hrun.
    destruct (tryBlock tz fetch p fuel) as [reqs [ filtered | m | ] ];
      [ | | discriminate ]; now injection Hrun as <-. }
  assert (Hiff : error (state run) = None
                 <-> Forall (fun r => failure (fetch r) = None) (issued run)).
  { split; [ intros Herr; now apply (fetchEarthquakes_success tz fetch p fuel s run) | ].
    intros Hall. unfold fetchEarthquakes in Hrun.
    destruct (dateRange_cases p) as [ (startDate & endDate & Hp) | Hp ].
    - destruct (tryBlock_range tz fetch p fuel startDate endDate Hp)
        as (l & Hl & _ & Hr).
      destruct (tryBlock tz fetch p fuel) as [reqs res]. cbn [fst snd] in *.
      subst reqs. destruct res as [ filtered | m | ]; [ | | discriminate ];
        injection Hrun as <-; [ reflexivity | ].
      destruct Hr as (pre & c & -> & _ & Hm).
      now elim (Forall_failure_snoc fetch p pre c m Hm).
    - rewrite (tryBlock_feed tz fetch p fuel Hp) in Hrun. cbv zeta in Hrun.
      destruct (failure (fetch (SummaryFeed (feedFile (timeWindow p)))))
        as [ m | ] eqn:Hm; injection Hrun as <-; [ | reflexivity ].
      cbn [issued] in Hall. inversion Hall as [ | ? ? H1 _ ]; subst. congruence. }
  split; [ exact Hload | ]. split; [ exact Hiff | ].
  intros Herr.
  destruct (fetchEarthquakes_success tz fetch p fuel s run Hrun Herr)
    as (_ & Hcount & _ & Hset).
  split; [ | exact Hcount ].
  rewrite Hset. now destruct (dateRange p) as [ [ a | ] [ b | ] ].
Qed.

(** X4.  With fuel for every pass, [fetchEarthquakes] completes; the run
    ends with [loading] reset, and it leaves no error exactly when none of
    the requests it issued failed; the working set is then the pipeline
    applied to the answers in request order, and its length is the count
    reported (once, if the callback is given). *)
Theorem fetchEarthquakes_outcome
  (tz : Z) (fetch : Request -> Response) (p : EarthquakeMapProps)
  (fuel : nat) (s : MapState) :
  (fuelFor p <= fuel)%nat ->
  exists run,
    fetchEarthquakes tz fetch p fuel s = Some run
    /\ loading (state run) = false
    /\ (error (state run) = None
        <-> Forall (fun r => failure (fetch r) = None) (issued run))
    /\ (error (state run) = None ->
        earthquakes (state run)
        = (match dateRange p with
           | (Some _, Some _) => filterRange p
           | _ => filterFeed p
           end) (flat_map (fun r => featuresOf (fetch r)) (issued run))
        /\ countUpdates run
           = if onEarthquakeCountUpdate p
             then [Z.of_nat (length (earthquakes (state run)))] else []).
Proof.
  intros Hfuel.
  destruct (fetchEarthquakes_runs tz fetch p fuel s Hfuel) as (run & Hrun).
  exists run. split; [ exact Hrun | ].
  exact (run_outcome tz fetch p fuel s run Hrun).
Qed.

Lemma fetchEarthquakes_outcome_witness :
  let p := moderateProps (Some (utcMidnight 2024 1 1), Some (utcMidnight 2024 1 15)) in
  (fuelFor p <= 1)%nat
  /\ exists run,
       fetchEarthquakes 0 greatQuakeService p 1 initialState = Some run
       /\ run = mkRun (mkState [greatQuake] false None)
                      [QueryRange (mkIsoDate 2024 1 1) (mkIsoDate 2024 1 15)
                                  0 5 10000]
                      [1]
       /\ loading (state run) = false
       /\ (error (state run) = None
           <-> Forall (fun r => failure (greatQuakeService r) = None) (issued run))
       /\ (error (state run) = None ->
           earthquakes (state run)
           = (match dateRange p with
              | (Some _, Some _) => filterRange p
              | _ => filterFeed p
              end) (flat_map (fun r => featuresOf (greatQuakeService r)) (issued run))
           /\ countUpdates run
              = if onEarthquakeCountUpdate p
                then [Z.of_nat (length (earthquakes (state run)))] else []).
Proof.
  intros p.
  assert (Hfuel : (fuelFor p <= 1)%nat) by (vm_compute; apply le_n).
  split; [ exact Hfuel | ].
  destruct (fetchEarthquakes_outcome 0 greatQuakeService p 1 initialState Hfuel)
    as (run & Hrun & Hout).
  exists run. split; [ exact Hrun | ]. split; [ | exact Hout ].
  assert (E : fetchEarthquakes 0 greatQuakeService p 1 initialState
              = Some (mkRun (mkState [greatQuake] false None)
                            [QueryRange (mkIsoDate 2024 1 1) (mkIsoDate 2024 1 15)
                                        0 5 10000]
                            [1]))
    by (vm_compute; reflexivity).
  rewrite E in Hrun. now injection Hrun as <-.
Defined.

(** X5.  [fetchEarthquakes] never mixes its two sources.
    With both ends of the date range set, every request it issues is a
    range query with the same magnitude bounds and the limit 10000;
    otherwise it issues exactly one request, for the week feed when the
    time window is [week] and for the day feed for every other window
    (also [custom] while the range is incomplete). *)
Theorem issued_requests
  (tz : Z) (fetch : Request -> Response) (p : EarthquakeMapProps)
  (fuel : nat) (s : MapState) (run : Run) :
  fetchEarthquakes tz fetch p fuel s = Some run ->
  match dateRange p with
  | (Some _, Some _) =>
      Forall (fun r => exists a b,
                r = QueryRange a b (lowerMag p) (upperMag p) 10000) (issued run)
  | _ =>
      issued run
      = [SummaryFeed (if String.eqb (timeWindow p) "week"
                      then "all_week.geojson" else "all_day.geojson")]
  end.
Proof.
  intros Hrun. unfold fetchEarthquakes in Hrun.
  assert (Hreqs : issued run = fst (tryBlock tz fetch p fuel)).
  { destruct (tryBlock tz fetch p fuel) as [reqs [ filtered | m | ] ];
      [ | | discriminate ]; now injection Hrun as <-. }
  rewrite Hreqs. clear Hrun Hreqs.
  destruct (dateRange_cases p) as [ (startDate & endDate & Hp) | Hp ].
  - destruct (tryBlock_range tz fetch p fuel startDate endDate Hp)
      as (l & -> & _). rewrite Hp.
    apply Forall_forall. intros r Hr. apply in_map_iff in Hr.
    destruct Hr as (c & <- & _). unfold requestOf. eauto.
  - rewrite (tryBlock_feed tz fetch p fuel Hp). cbv zeta. cbn [fst].
    assert (Hf : feedFile (timeWindow p)
                 = if String.eqb (timeWindow p) "week"
                   then "all_week.geojson"%string else "all_day.geojson"%string).
    { unfold feedFile. destruct (String.eqb_spec (timeWindow p) "day") as [ -> | ];
        reflexivity. }
    rewrite Hf.
    destruct (dateRange p) as [ [ a | ] [ b | ] ]; try reflexivity.
    now elim (Hp a b).
Qed.

Lemma issued_requests_witness :
  issued (mkRun (mkState [] false None) [SummaryFeed "all_day.geojson"] [0])
  = [SummaryFeed "all_day.geojson"].
Proof.
  apply (issued_requests 0 emptyService (indexProps (None, None)) 1 initialState).
  vm_compute. reflexivity.
Defined.

Lemma filter_all {A : Type} (f : A -> bool) (l : list A) :
  (forall x, In x l -> f x = true) -> filter f l = l.
Proof.
  induction l as [ | x l IH ]; cbn [filter]; intros H; [ reflexivity | ].
  rewrite (H x (or_introl eq_refl)). f_equal. apply IH.
  intros y Hy. apply H. now right.
Qed.

Lemma capCount_twice (p : EarthquakeMapProps) (l : list Feature) :
  capCount p (capCount p l) = capCount p l.
Proof.
  unfold capCount. destruct (maxCount p) as [ n | ]; [ | reflexivity ].
  destruct (Z.gtb_spec n 0) as [Hn | Hn]; cbn [andb]; [ | reflexivity ].
  destruct (Z.gtb_spec (Z.of_nat (length l)) n) as [Hl | Hl].
  - rewrite length_firstn.
    destruct (Z.gtb_spec (Z.of_nat (Nat.min (Z.to_nat n) (length l))) n);
      [ lia | reflexivity ].
  - destruct (Z.gtb_spec (Z.of_nat (length l)) n); [ lia | reflexivity ].
Qed.

Lemma filterDepth_capCount (p : EarthquakeMapProps) (l : list Feature) :
  filterDepth p (capCount p (filterDepth p l)) = capCount p (filterDepth p l).
Proof.
  unfold filterDepth at 1. destruct (depthRange p) as [ [lo hi] | ] eqn:E;
    [ | reflexivity ].
  apply filter_all. intros x Hx. apply capCount_incl in Hx.
  unfold filterDepth in Hx. rewrite E in Hx.
  now apply filter_In in Hx.
Qed.

(** X6.  Running either filtering pipeline on its own
    output changes nothing: a working set that went through the filters
    and the cap is a fixed point of them. *)
Theorem pipeline_idempotent (p : EarthquakeMapProps) (l : list Feature) :
  filterRange p (filterRange p l) = filterRange p l
  /\ filterFeed p (filterFeed p l) = filterFeed p l.
Proof.
  unfold filterFeed, filterRange. split.
  - now rewrite filterDepth_capCount, capCount_twice.
  - set (inMag := magnitudeInRange (lowerMag p) (upperMag p)).
    assert (E : filter inMag (capCount p (filterDepth p (filter inMag l)))
                = capCount p (filterDepth p (filter inMag l))).
    { apply filter_all. intros x Hx.
      apply capCount_incl, filterDepth_incl in Hx. now apply filter_In in Hx. }
    now rewrite E, filterDepth_capCount, capCount_twice.
Qed.

(** X7.  While the date range is incomplete the
    chart dialog and the map ask for the same thing: the one request
    [fetchData] sends is the one [fetchEarthquakes] sends. *)
Theorem chart_reads_the_map_feed
  (tz : Z) (fetch : Request -> Response) (p : EarthquakeMapProps)
  (fuel : nat) (s : MapState)
  (service : Request -> VisResponse) (vs : VisState) :
  (forall startDate endDate, dateRange p <> (Some startDate, Some endDate)) ->
  exists run,
    fetchEarthquakes tz fetch p fuel s = Some run
    /\ issued run
       = fst (fetchData service true (dateRange p) (timeWindow p) (magRange p) vs)
    /\ length (issued run) = 1%nat.
Proof.
  intros Hp. unfold fetchEarthquakes.
  rewrite (tryBlock_feed tz fetch p fuel Hp). cbv zeta.
  assert (Hf : feedFile (timeWindow p)
               = if String.eqb (timeWindow p) "week"
                 then "all_week.geojson"%string else "all_day.geojson"%string).
  { unfold feedFile. destruct (String.eqb_spec (timeWindow p) "day") as [ -> | ];
      reflexivity. }
  assert (Hd : fst (fetchData service true (dateRange p) (timeWindow p) (magRange p) vs)
               = [SummaryFeed (feedFile (timeWindow p))]).
  { unfold fetchData. cbn [negb]. rewrite Hf.
    destruct (dateRange p) as [ [ a | ] [ b | ] ]; try reflexivity.
    now elim (Hp a b). }
  rewrite Hd.
  destruct (failure (fetch (SummaryFeed (feedFile (timeWindow p)))));
    eexists; (split; [ reflexivity | split; reflexivity ]).
Qed.

Lemma chart_reads_the_map_feed_witness :
  exists run,
    fetchEarthquakes 0 emptyService (indexProps (None, None)) 1 initialState
    = Some run
    /\ issued run
       = fst (fetchData (fun _ => VisThrown) true
                (dateRange (indexProps (None, None)))
                (timeWindow (indexProps (None, None)))
                (magRange (indexProps (None, None))) (mkVisState [] false))
    /\ length (issued run) = 1%nat.
Proof.
  apply (chart_reads_the_map_feed 0 emptyService (indexProps (None, None)) 1
           initialState (fun _ => VisThrown) (mkVisState [] false)).
  intros startDate endDate. discriminate.
Defined.

(* ================================================================== *)
(** * The marker click and the dialog *)
(* ================================================================== *)

Section ClickFacts.

Variable math : MathLib.

(** A row carries the distance of its event from the reference. *)
Lemma byDistance_rows (base : Feature) (l : list Feature) :
  Forall (rowOf math base) (byDistance math base l).
Proof.
  unfold byDistance.
  eapply Permutation_Forall; [ symmetry; apply Array_sort_perm | ].
  apply withDistance_rowOf.
Qed.

Lemma withDistance_events (base : Feature) (rows : list Row) :
  Forall (rowOf math base) rows -> withDistance math base (map e rows) = rows.
Proof.
  induction 1 as [ | r rows Hr _ IH ]; cbn [map withDistance]; [ reflexivity | ].
  fold (withDistance math base (map e rows)). rewrite IH. f_equal.
  symmetry. exact Hr.
Qed.

Lemma byDistance_numbers (base : Feature) (l : list Feature) :
  distancesAreNumbers math base l ->
  Forall (fun r => isReal (distKm r) = true) (byDistance math base l).
Proof.
  intros H. unfold byDistance.
  eapply Permutation_Forall; [ symmetry; apply Array_sort_perm | exact H ].
Qed.

Lemma rows_of_nearest (base : Feature) (feats : list Feature) :
  distancesAreNumbers math base feats ->
  InsightsTable_rows math base (nearestFromApi math base feats)
  = InsightsTable_rows math base feats.
Proof.
  intros Hnum. unfold InsightsTable_rows, nearestFromApi.
  set (rows := firstn 10 (byDistance math base feats)).
  assert (Hrows : withDistance math base (map e rows) = rows).
  { apply withDistance_events. apply Forall_forall. intros r Hr.
    apply firstn_subset in Hr.
    pose proof (byDistance_rows base feats) as H. rewrite Forall_forall in H.
    now apply H. }
  unfold byDistance at 1. rewrite Hrows.
  rewrite (Array_sort_sorted_id distKm).
  - unfold rows. rewrite firstn_firstn. reflexivity.
  - apply Forall_forall. intros r Hr. apply firstn_subset in Hr.
    pose proof (byDistance_numbers base feats Hnum) as H.
    rewrite Forall_forall in H. now apply H.
  - apply StronglySorted_firstn. apply (Array_sort_sorted distKm). exact Hnum.
Qed.

End ClickFacts.

(** X8.  The click handler stores the ten nearest events of the regional
    answer, and the dialog ranks what is stored once more: when the
    computed distances of the answer's events are numbers, the rows shown
    are exactly the ten nearest of the regional answer, in the same order,
    and the stored events are the events of these rows. *)
Theorem reranking_changes_nothing
        (math : MathLib) (base : Feature) (feats : list Feature) :
  distancesAreNumbers math base feats ->
  InsightsTable_rows math base (nearestFromApi math base feats)
  = InsightsTable_rows math base feats
  /\ nearestFromApi math base feats
     = map e (InsightsTable_rows math base (nearestFromApi math base feats)).
Proof.
  intros Hnum. rewrite rows_of_nearest by exact Hnum. split; reflexivity.
Qed.

Lemma reranking_changes_nothing_witness :
  distancesAreNumbers recordedMath origin [pointX; pointY; origin]
  /\ nearestFromApi recordedMath origin [pointX; pointY; origin]
     = [origin; pointY; pointX]
  /\ InsightsTable_rows recordedMath origin [origin; pointY; pointX]
     = InsightsTable_rows recordedMath origin [pointX; pointY; origin]
  /\ InsightsTable_rows recordedMath origin
       (nearestFromApi recordedMath origin [pointX; pointY; origin])
     = InsightsTable_rows recordedMath origin [pointX; pointY; origin]
  /\ nearestFromApi recordedMath origin [pointX; pointY; origin]
     = map e (InsightsTable_rows recordedMath origin
                (nearestFromApi recordedMath origin [pointX; pointY; origin])).
Proof.
  assert (Hnum : distancesAreNumbers recordedMath origin [pointX; pointY; origin])
    by (repeat constructor).
  assert (Hnear : nearestFromApi recordedMath origin [pointX; pointY; origin]
                  = [origin; pointY; pointX]) by (vm_compute; reflexivity).
  pose proof (reranking_changes_nothing recordedMath origin
                [pointX; pointY; origin] Hnum) as H.
  split; [ exact Hnum | ]. split; [ exact Hnear | ].
  split; [ | exact H ].
  rewrite <- Hnear. exact (proj1 H).
Defined.


(* ================================================================== *)
(** * Magnitude colours, the marker icon, the magnitude slider *)
(* ================================================================== *)

(** For numbers, [x < y] is the negation of [y <= x]. *)
Lemma ltb_negb_leb (x y : float) :
  Prim2SF x <> S754_nan -> Prim2SF y <> S754_nan ->
  (x <? y)%float = negb (y <=? x)%float.
Proof.
  intros Hx Hy. destruct (x <? y)%float eqn:E.
  - now rewrite (ltb_leb_false x y E).
  - now rewrite (ltb_false_leb x y Hx Hy E).
Qed.

(** X10.  For a real magnitude the colour class of the
    popup badge and of the filter panel are the same and follow the bands
    of the magnitude chart: low below 2, medium from 2 to below 4, high
    from 4 to below 6, extreme from 6. *)
Theorem colour_follows_band (m : float) :
  isReal m = true ->
  getMagnitudeBadgeColor m = getMagnitudeColor m
  /\ getMagnitudeBadgeColor m
     = (if inBucket m band1 then "seismic-low"
        else if inBucket m band2 then "seismic-medium"
        else if inBucket m band3 then "seismic-high"
        else "seismic-extreme")%string
  /\ (getMagnitudeBadgeColor m = "seismic-extreme"%string
      <-> inBucket m band4 = true).
Proof.
  intros Hm. destruct (isReal_spec m Hm) as [Hn _].
  destruct (bands_cover m Hm) as (H1 & H4 & _).
  assert (Hc : forall c : float, Prim2SF c <> S754_nan ->
                 (c <=? m)%float = negb (m <? c)%float).
  { intros c Hc. rewrite (ltb_negb_leb m c Hn Hc). now rewrite negb_involutive. }
  assert (N2 : Prim2SF 2 <> S754_nan) by (vm_compute; discriminate).
  assert (N4 : Prim2SF 4 <> S754_nan) by (vm_compute; discriminate).
  assert (N6 : Prim2SF 6 <> S754_nan) by (vm_compute; discriminate).
  assert (H2 : inBucket m band2 = negb (m <? 2)%float && (m <? 4)%float)
    by (unfold inBucket, band2; cbn [min max]; now rewrite (Hc 2%float N2)).
  assert (H3 : inBucket m band3 = negb (m <? 4)%float && (m <? 6)%float)
    by (unfold inBucket, band3; cbn [min max]; now rewrite (Hc 4%float N4)).
  rewrite H1, H2, H3, H4, (Hc 6%float N6).
  unfold getMagnitudeBadgeColor, getMagnitudeColor.
  assert (T24 : (m <? 2)%float = true -> (m <? 4)%float = true)
    by (intros H; apply (ltb_trans m 2 4 H); reflexivity).
  assert (T46 : (m <? 4)%float = true -> (m <? 6)%float = true)
    by (intros H; apply (ltb_trans m 4 6 H); reflexivity).
  destruct (m <? 2)%float eqn:E2, (m <? 4)%float eqn:E4, (m <? 6)%float eqn:E6;
    cbn [negb andb];
    try (specialize (T24 eq_refl); discriminate);
    try (specialize (T46 eq_refl); discriminate);
    repeat split; try discriminate; reflexivity.
Qed.

Lemma colour_follows_band_witness :
  getMagnitudeBadgeColor 5.5 = getMagnitudeColor 5.5
  /\ getMagnitudeBadgeColor 5.5
     = (if inBucket 5.5 band1 then "seismic-low"
        else if inBucket 5.5 band2 then "seismic-medium"
        else if inBucket 5.5 band3 then "seismic-high"
        else "seismic-extreme")%string
  /\ (getMagnitudeBadgeColor 5.5 = "seismic-extreme"%string
      <-> inBucket 5.5 band4 = true).
Proof. apply (colour_follows_band 5.5%float). reflexivity. Defined.

(** [Math.max] of two numbers is one of them and not below either. *)
Lemma Math_max_numbers (a b : float) :
  is_nan a = false -> is_nan b = false ->
  (Math_max a b = a \/ Math_max a b = b)
  /\ (a <=? Math_max a b)%float = true
  /\ (b <=? Math_max a b)%float = true.
Proof.
  intros Ha Hb. unfold Math_max. rewrite Ha, Hb. cbn [orb].
  pose proof (is_nan_false a Ha) as Na. pose proof (is_nan_false b Hb) as Nb.
  destruct (a <? b)%float eqn:Eab.
  - split; [ now right | ]. split; [ now apply ltb_leb | now apply leb_refl ].
  - destruct (b <? a)%float eqn:Eba.
    + split; [ now left | ]. split; [ now apply leb_refl | now apply ltb_leb ].
    + pose proof (ltb_false_leb a b Na Nb Eab) as Hba.
      pose proof (ltb_false_leb b a Nb Na Eba) as Hab.
      destruct (is_zero a && get_sign a).
      * split; [ now right | ]. split; [ assumption | now apply leb_refl ].
      * split; [ now left | ]. split; [ now apply leb_refl | assumption ].
Qed.

Lemma Math_max_nan (a b : float) :
  is_nan a || is_nan b = true -> is_nan (Math_max a b) = true.
Proof. intros H. unfold Math_max. rewrite H. reflexivity. Qed.

(** X11.  Whatever the magnitude, the marker is never
    drawn smaller than its minimum: the radius is at least 4 and the font
    size at least 8, unless the computation yields no number at all; and
    the fill colour is green below 3, blue below 4, amber below 6 and red
    otherwise (also for a magnitude that is not a number). *)
Theorem icon_minimum_size (magnitude : float) :
  let icon := createEarthquakeIcon magnitude in
  (is_nan (iconRadius icon) = true \/ (4 <=? iconRadius icon)%float = true)
  /\ (is_nan (iconFontSize icon) = true \/ (8 <=? iconFontSize icon)%float = true)
  /\ (iconColor icon = "#22c55e"%string <-> (magnitude <? 3)%float = true)
  /\ (iconColor icon = "#ef4444"%string <-> (magnitude <? 6)%float = false).
Proof.
  cbv zeta. unfold createEarthquakeIcon.
  cbn [iconRadius iconFontSize iconColor].
  assert (Hmax : forall c x : float, is_nan c = false ->
            is_nan (Math_max c x) = true \/ (c <=? Math_max c x)%float = true).
  { intros c x Hc. destruct (is_nan x) eqn:Hx.
    - left. apply Math_max_nan. now rewrite Hx, orb_true_r.
    - right. now apply Math_max_numbers. }
  split; [ apply Hmax; reflexivity | ].
  split; [ apply Hmax; reflexivity | ].
  assert (T34 : (magnitude <? 3)%float = true -> (magnitude <? 4)%float = true)
    by (intros H; apply (ltb_trans magnitude 3 4 H); reflexivity).
  assert (T46 : (magnitude <? 4)%float = true -> (magnitude <? 6)%float = true)
    by (intros H; apply (ltb_trans magnitude 4 6 H); reflexivity).
  destruct (magnitude <? 3)%float eqn:E3, (magnitude <? 4)%float eqn:E4,
           (magnitude <? 6)%float eqn:E6;
    try (specialize (T34 eq_refl); discriminate);
    try (specialize (T46 eq_refl); discriminate);
    repeat split; try discriminate; reflexivity.
Qed.

(** X12.  Moving the minimum-magnitude
    slider to [v] sets the minimum magnitude and the lower end of the
    magnitude range to [v], and the upper end to the larger of [v] and the
    old upper end: the range stays ordered, and its upper end is never
    lowered. *)
Theorem magnitude_slider_keeps_range_ordered (st : IndexState) (v : float) :
  is_nan v = false -> is_nan (snd (ixMagRange st)) = false ->
  let st' := applyCalls (handleMagnitudeChange true (Some (ixMagRange st)) v) st in
  ixMinMagnitude st' = v
  /\ fst (ixMagRange st') = v
  /\ (fst (ixMagRange st') <=? snd (ixMagRange st'))%float = true
  /\ (snd (ixMagRange st) <=? snd (ixMagRange st'))%float = true
  /\ (snd (ixMagRange st') = v \/ snd (ixMagRange st') = snd (ixMagRange st))
  /\ lowerMag (mapProps st') = v
  /\ upperMag (mapProps st') = snd (ixMagRange st').
Proof.
  intros Hv Hu. cbv zeta. unfold applyCalls, handleMagnitudeChange, mapProps.
  cbn [minMagnitudeChange magRangeChange timeWindowChange dateRangeChange
       ixMinMagnitude ixMagRange fst snd].
  unfold lowerMag, upperMag. cbn [magRange fst snd].
  destruct (Math_max_numbers v (snd (ixMagRange st)) Hv Hu) as (H1 & H2 & H3).
  repeat split; try reflexivity; assumption.
Qed.

Lemma magnitude_slider_keeps_range_ordered_witness :
  let st' := applyCalls (handleMagnitudeChange true (Some (ixMagRange indexInitial)) 3)
                        indexInitial in
  ixMinMagnitude st' = 3%float
  /\ fst (ixMagRange st') = 3%float
  /\ (fst (ixMagRange st') <=? snd (ixMagRange st'))%float = true
  /\ (snd (ixMagRange indexInitial) <=? snd (ixMagRange st'))%float = true
  /\ (snd (ixMagRange st') = 3%float
      \/ snd (ixMagRange st') = snd (ixMagRange indexInitial))
  /\ lowerMag (mapProps st') = 3%float
  /\ upperMag (mapProps st') = snd (ixMagRange st').
Proof.
  apply (magnitude_slider_keeps_range_ordered indexInitial 3%float); reflexivity.
Defined.

(* ================================================================== *)
(** * The date handlers of the filter panel *)
(* ================================================================== *)

Lemma MakeDay_carry (y m d : Z) :
  MakeDay y m d = MakeDay (y + m / 12) (m mod 12) d.
Proof.
  unfold MakeDay. cbv zeta.
  pose proof (Z.mod_pos_bound m 12 ltac:(lia)) as H.
  rewrite (Z.div_small (m mod 12)), (Z.mod_small (m mod 12)) by lia.
  now rewrite Z.add_0_r.
Qed.

(** Every month, also one carried into another year, has 28 to 31 days. *)
Lemma daysInMonth_any (y m : Z) : 28 <= daysInMonth y m <= 31.
Proof.
  assert (E : daysInMonth y m = daysInMonth (y + m / 12) (m mod 12)).
  { unfold daysInMonth.
    assert (A : MakeDay y (m + 1) 1 = MakeDay (y + m / 12) (m mod 12 + 1) 1).
    { rewrite (MakeDay_carry y (m + 1)), (MakeDay_carry (y + m / 12) (m mod 12 + 1)).
      f_equal; Z.div_mod_to_equations; lia. }
    now rewrite A, (MakeDay_carry y m). }
  rewrite E. apply daysInMonth_range.
  pose proof (Z.mod_pos_bound m 12 ltac:(lia)). lia.
Qed.

Lemma MakeDay_five_months (y m d : Z) :
  exists k, 140 <= k <= 155 /\ MakeDay y (m + 5) d = MakeDay y m d + k.
Proof.
  replace (m + 5) with (m + 1 + 1 + 1 + 1 + 1) by lia.
  rewrite !MakeDay_next_month.
  pose proof (daysInMonth_any y m).
  pose proof (daysInMonth_any y (m + 1)).
  pose proof (daysInMonth_any y (m + 1 + 1)).
  pose proof (daysInMonth_any y (m + 1 + 1 + 1)).
  pose proof (daysInMonth_any y (m + 1 + 1 + 1 + 1)).
  exists (daysInMonth y m + daysInMonth y (m + 1) + daysInMonth y (m + 1 + 1)
          + daysInMonth y (m + 1 + 1 + 1) + daysInMonth y (m + 1 + 1 + 1 + 1)).
  split; lia.
Qed.

Lemma formatDate_same_day (a b : Z) : Day a = Day b -> formatDate a = formatDate b.
Proof. intros H. now rewrite !formatDate_of_day, H. Qed.

Section CalendarFacts.

Variable LocalTZA : Z.

Lemma setMonth_five (d : Date) :
  exists k, 140 <= k <= 155
    /\ setMonth LocalTZA d (getMonth LocalTZA d + 5) = d + k * msPerDay.
Proof.
  unfold setMonth, getMonth, UTC. cbv zeta.
  destruct (MakeDay_five_months (YearFromTime (LocalTime LocalTZA d))
              (MonthFromTime (LocalTime LocalTZA d))
              (DateFromTime (LocalTime LocalTZA d))) as (k & Hk & ->).
  exists k. split; [ exact Hk | ].
  rewrite MakeDay_fields.
  pose proof (Day_split (LocalTime LocalTZA d)) as H.
  unfold MakeDate, LocalTime in *. lia.
Qed.

Lemma setDate_previous (d : Date) :
  setDate LocalTZA d (getDate LocalTZA d - 1) = d - msPerDay.
Proof.
  unfold setDate, getDate, UTC. cbv zeta.
  replace (DateFromTime (LocalTime LocalTZA d) - 1)
    with (DateFromTime (LocalTime LocalTZA d) + -1) by lia.
  rewrite MakeDay_date, MakeDay_fields.
  pose proof (Day_split (LocalTime LocalTZA d)) as H.
  unfold MakeDate, LocalTime in *. lia.
Qed.

Lemma maxEndDateOf_span (startDate : Date) :
  exists k, 139 <= k <= 154
    /\ maxEndDateOf LocalTZA startDate = startDate + k * msPerDay.
Proof.
  unfold maxEndDateOf. cbv zeta. rewrite setDate_previous.
  destruct (setMonth_five startDate) as (k & Hk & ->).
  exists (k - 1). split; lia.
Qed.

Lemma setHoursEndOfDay_spec (d : Date) :
  d <= setHoursEndOfDay LocalTZA d < d + msPerDay
  /\ Day (LocalTime LocalTZA (setHoursEndOfDay LocalTZA d))
     = Day (LocalTime LocalTZA d)
  /\ TimeWithinDay (LocalTime LocalTZA (setHoursEndOfDay LocalTZA d))
     = msPerDay - 1.
Proof.
  unfold setHoursEndOfDay, UTC, LocalTime, MakeDate, Day, TimeWithinDay, msPerDay.
  remember (d + LocalTZA) as t eqn:Ht. split; [ | split ]; Z.div_mod_to_equations; lia.
Qed.


End CalendarFacts.

(** X14.  Two clicks on days, starting from a range
    that is empty or complete, leave the range from the earlier to the
    later of the two days, in whichever order they were clicked; the first
    click opens the range at its day, the second clears the temporary
    date; no other filter changes. *)
Theorem two_clicks_make_a_range (st : IndexState) (d1 d2 : Date) :
  (forall start, ixDateRange st <> (Some start, None)) ->
  let click1 := handleDateSelect (ixDateRange st) (Some d1) in
  let st1 := applyCalls (fst click1) st in
  let click2 := handleDateSelect (ixDateRange st1) (Some d2) in
  let st2 := applyCalls (fst click2) st1 in
  ixDateRange st1 = (Some d1, None)
  /\ snd click1 = Some (Some d1)
  /\ ixDateRange st2 = (Some (Z.min d1 d2), Some (Z.max d1 d2))
  /\ snd click2 = Some None
  /\ ixTimeWindow st2 = ixTimeWindow st
  /\ ixMinMagnitude st2 = ixMinMagnitude st
  /\ ixMagRange st2 = ixMagRange st.
Proof.
  intros Hst. cbv zeta.
  assert (H1 : handleDateSelect (ixDateRange st) (Some d1)
               = (mkCalls (Some (Some d1, None)) None None None, Some (Some d1))).
  { unfold handleDateSelect.
    destruct (ixDateRange st) as [ [ a | ] [ b | ] ] eqn:E; try reflexivity.
    now elim (Hst a). }
  rewrite H1. unfold applyCalls at 2 4 6 8 10.
  cbn [fst snd dateRangeChange timeWindowChange minMagnitudeChange magRangeChange
       ixDateRange ixTimeWindow ixMinMagnitude ixMagRange].
  unfold handleDateSelect.
  cbn [fst snd dateRangeChange timeWindowChange minMagnitudeChange magRangeChange].
  unfold applyCalls.
  cbn [fst snd dateRangeChange timeWindowChange minMagnitudeChange magRangeChange
       ixDateRange ixTimeWindow ixMinMagnitude ixMagRange].
  repeat split; try reflexivity.
  destruct (Z.ltb_spec d2 d1) as [Hlt | Hge].
  - now rewrite Z.min_r, Z.max_l by lia.
  - now rewrite Z.min_l, Z.max_r by lia.
Qed.

Lemma two_clicks_make_a_range_witness :
  let click1 := handleDateSelect (ixDateRange indexInitial) (Some 86400000) in
  let st1 := applyCalls (fst click1) indexInitial in
  let click2 := handleDateSelect (ixDateRange st1) (Some 0) in
  let st2 := applyCalls (fst click2) st1 in
  ixDateRange st1 = (Some 86400000, None)
  /\ snd click1 = Some (Some 86400000)
  /\ ixDateRange st2 = (Some (Z.min 86400000 0), Some (Z.max 86400000 0))
  /\ snd click2 = Some None
  /\ ixTimeWindow st2 = ixTimeWindow indexInitial
  /\ ixMinMagnitude st2 = ixMinMagnitude indexInitial
  /\ ixMagRange st2 = ixMagRange indexInitial.
Proof.
  apply (two_clicks_make_a_range indexInitial 86400000 0).
  intros start. discriminate.
Defined.

(** X15.  Choosing a time window other than
    [custom] in the select clears the date range, so the map goes back to
    the summary feed of that window, with exactly one request; choosing
    [custom] leaves the date range as it is. *)
Theorem preset_window_returns_to_feed
  (tz : Z) (fetch : Request -> Response) (fuel : nat)
  (st : IndexState) (value : string) :
  let st' := applyCalls (timeWindowSelect value) st in
  ixTimeWindow st' = value
  /\ (value = "custom"%string -> ixDateRange st' = ixDateRange st)
  /\ (value <> "custom"%string ->
      ixDateRange st' = (None, None)
      /\ fst (tryBlock tz fetch (mapProps st') fuel)
         = [SummaryFeed (feedFile value)]).
Proof.
  cbv zeta. unfold timeWindowSelect, applyCalls.
  cbn [dateRangeChange timeWindowChange minMagnitudeChange magRangeChange
       ixTimeWindow ixDateRange].
  split; [ reflexivity | ].
  destruct (String.eqb_spec value "custom") as [ -> | Hne ].
  - split; [ reflexivity | ]. intros H. now elim H.
  - split; [ intros H; now elim Hne | ]. intros _. split; [ reflexivity | ].
    rewrite tryBlock_feed; [ reflexivity | ].
    intros a b. unfold mapProps. cbn [dateRange ixDateRange]. discriminate.
Qed.

(* ================================================================== *)
(** * Region search, the map target, the plate overlay *)
(* ================================================================== *)

Section RegionFacts.

Variable parseFloat : string -> float.
Variable trim : string -> string.
Variable geocode : GeoRequest -> GeoResponse.

(** X16.  When a geocoder answers with at least one hit, the map is sent
    to it: to the hit's bounding box, whose texts
    [[south, north, west, east]] arrive at [fitBounds] as the corners
    [(south, west)] and [(north, east)], and otherwise to the hit's
    position at zoom 4 for a country and 6 for anything else.  When one of
    the texts used does not parse to a number, Leaflet throws instead and
    the map is not moved. *)
Theorem geocoded_target (url : GeoRequest) (hit : Hit) (others : list Hit) :
  geocode url = GeoJson (Some (hit :: others)) ->
  exists target,
    tryGeocode parseFloat geocode url = Some (Some target)
    /\ flyToEffect true (Some target)
       = match boundingbox hit with
         | Some [south; north; west; east] =>
             if validLatLng (parseFloat south) (parseFloat west)
                && validLatLng (parseFloat north) (parseFloat east)
             then Told (FitBounds (parseFloat south) (parseFloat west)
                                  (parseFloat north) (parseFloat east))
             else InvalidLatLng
         | _ =>
             if validLatLng (parseFloat (hitLat hit)) (parseFloat (hitLon hit))
             then Told (SetView (parseFloat (hitLat hit)) (parseFloat (hitLon hit))
                                (if String.eqb (hitType hit) "country"
                                 then 4%float else 6%float))
             else InvalidLatLng
         end.
Proof.
  intros Hg. unfold tryGeocode. rewrite Hg.
  destruct (boundingbox hit)
    as [ [ | s [ | n [ | w [ | e' [ | x rest ] ] ] ] ] | ];
    eexists; (split; [ reflexivity | reflexivity ]).
Qed.

(** X17.  A region search never touches the filters.
    A blank query sends nothing; otherwise the first geocoder is asked,
    and the second one exactly when the first answered without a result
    (not when it failed).  The state changes only when the geocoder asked
    last gave a target: then that target is stored and the map key goes up
    by one. *)
Theorem region_search_outcome (q : option string) (st : IndexState) :
  let query := trim (match q with Some s => s | None => EmptyString end) in
  let sent := fst (onRegionSearch parseFloat trim geocode q st) in
  let st' := snd (onRegionSearch parseFloat trim geocode q st) in
  mapProps st' = mapProps st
  /\ (sent = [] <-> query = EmptyString)
  /\ (sent = [] \/ sent = [NominatimSearch query]
      \/ sent = [NominatimSearch query; MapsCoSearch query])
  /\ (In (MapsCoSearch query) sent
      <-> query <> EmptyString
          /\ tryGeocode parseFloat geocode (NominatimSearch query) = Some None)
  /\ (st' = st
      \/ exists target,
           tryGeocode parseFloat geocode (last sent (NominatimSearch query))
           = Some (Some target)
           /\ ixFlyTo st' = Some target
           /\ ixMapKey st' = ixMapKey st + 1).
Proof.
  cbv zeta. unfold onRegionSearch. cbv zeta.
  set (query := trim (match q with Some s => s | None => EmptyString end)).
  destruct (String.eqb_spec query EmptyString) as [ E | Hne ].
  - cbn [fst snd]. split; [ reflexivity | ]. split; [ tauto | ].
    split; [ now left | ]. split; [ | now left ].
    split; [ intros [] | tauto ].
  - destruct (tryGeocode parseFloat geocode (NominatimSearch query))
      as [ [ r | ] | ] eqn:E1; cbn [fst snd].
    + split; [ reflexivity | ]. split; [ split; [ discriminate | tauto ] | ].
      split; [ right; now left | ].
      split; [ split; [ intros [ H | [] ]; discriminate | intros [_ H]; discriminate ] | ].
      right. exists r. cbn [last ixFlyTo ixMapKey]. now rewrite E1.
    + destruct (tryGeocode parseFloat geocode (MapsCoSearch query))
        as [ [ r | ] | ] eqn:E2; cbn [fst snd];
        (split; [ reflexivity | ]);
        (split; [ split; [ discriminate | tauto ] | ]);
        (split; [ right; now right | ]);
        (split; [ split; [ tauto | intros _; right; now left ] | ]);
        [ right; exists r; cbn [last ixFlyTo ixMapKey]; now rewrite E2
        | now left | now left ].
    + split; [ reflexivity | ]. split; [ split; [ discriminate | tauto ] | ].
      split; [ right; now left | ].
      split; [ split; [ intros [ H | [] ]; discriminate | intros [_ H]; discriminate ] | ].
      now left.
Qed.

End RegionFacts.

Lemma geocoded_target_witness :
  (exists target,
     tryGeocode sampleParseFloat (fun _ => GeoJson (Some [sampleHit]))
                (NominatimSearch "Japan")
     = Some (Some target)
     /\ flyToEffect true (Some target)
        = Told (FitBounds 24.5 122.75 45.5 153.75))
  /\ (exists target,
        tryGeocode sampleParseFloat (fun _ => GeoJson (Some [brokenHit]))
                   (NominatimSearch "Japan")
        = Some (Some target)
        /\ flyToEffect true (Some target) = InvalidLatLng).
Proof.
  split.
  - exact (geocoded_target sampleParseFloat
             (fun _ => GeoJson (Some [sampleHit]))
             (NominatimSearch "Japan") sampleHit [] eq_refl).
  - exact (geocoded_target sampleParseFloat
             (fun _ => GeoJson (Some [brokenHit]))
             (NominatimSearch "Japan") brokenHit [] eq_refl).
Defined.

(** X18.  The plate boundaries are fetched at most once per run of the
    effect and never again once a truthy body is there: from then on no run
    of the effect sends a request or replaces the data.  While the overlay
    is switched off nothing is requested at all.  A stored body that is
    falsy counts as absent: with the overlay on it is requested again. *)
Theorem plate_overlay_cache (PlateData : Type) (truthy : PlateData -> bool)
        (steps : list (bool * bool * PlateResponse PlateData)) (sent : nat) :
  (forall gj, truthy gj = true ->
              plateRuns PlateData truthy steps sent (Some gj) = (sent, Some gj))
  /\ (Forall (fun step => fst (fst step) = false) steps ->
      forall plateData,
        plateRuns PlateData truthy steps sent plateData = (sent, plateData))
  /\ (forall plateData,
        (sent <= fst (plateRuns PlateData truthy steps sent plateData)
         <= sent + length steps)%nat)
  /\ (forall gj cancelled answer,
        truthy gj = false ->
        fst (fetchPlates PlateData truthy true (Some gj) cancelled answer) = true
        /\ fst (fetchPlates PlateData truthy true None cancelled answer) = true
        /\ plateRuns PlateData truthy [(true, cancelled, answer)] sent (Some gj)
           = (S sent,
              match answer with
              | PlateJson gj' => if cancelled then Some gj else Some gj'
              | _ => Some gj
              end)).
Proof.
  split; [ | split; [ | split ] ].
  - intros gj Hgj. revert sent.
    induction steps as [ | [ [showPlates cancelled] answer ] rest IH ];
      intros sent; cbn [plateRuns]; [ reflexivity | ].
    unfold fetchPlates, loaded. rewrite Hgj, orb_true_r. apply IH.
  - intros Hoff plateData. revert sent.
    induction Hoff as [ | [ [showPlates cancelled] answer ] rest Hs _ IH ];
      intros sent; cbn [plateRuns]; [ reflexivity | ].
    cbn [fst] in Hs. subst showPlates. unfold fetchPlates. cbn [negb orb].
    apply IH.
  - revert sent.
    induction steps as [ | [ [showPlates cancelled] answer ] rest IH ];
      intros sent plateData; cbn [plateRuns length]; [ cbn; lia | ].
    destruct (fetchPlates PlateData truthy showPlates plateData cancelled answer)
      as [ [ | ] pd ].
    + specialize (IH (S sent) pd). lia.
    + specialize (IH sent pd). lia.
  - intros gj cancelled answer Hgj.
    unfold plateRuns, fetchPlates, loaded. rewrite Hgj. cbn [negb orb fst].
    repeat split.
Qed.
(* ================================================================== *)
(** * One date text; the requests after a capped selection *)
(* ================================================================== *)

(** X19.  For a time value of the years 0 to 9999 the popup's
    UTC date, the day label of the chart and the date sent in a range
    query are one and the same text, ten characters long: the UTC calendar
    date of the time value as year-month-day. *)
Theorem one_date_text (t : Z) (m : float) :
  fourDigitYear t ->
  formatUtcDate (Some t) = isoText (formatDate t)
  /\ dayOf (mkVisFeature m t) = isoText (formatDate t)
  /\ formatDateText t = isoText (formatDate t)
  /\ String.length (isoText (formatDate t)) = 10%nat.
Proof.
  intros Hy. unfold formatUtcDate, dayOf. cbn [vtime].
  rewrite (fourDigitYear_valid t Hy), (slice_date t Hy), formatDateText_isoText.
  repeat split. now apply length_isoText.
Qed.

Lemma one_date_text_witness :
  formatUtcDate (Some 1709210096789) = isoText (formatDate 1709210096789)
  /\ dayOf (mkVisFeature 5.5 1709210096789) = isoText (formatDate 1709210096789)
  /\ formatDateText 1709210096789 = isoText (formatDate 1709210096789)
  /\ String.length (isoText (formatDate 1709210096789)) = 10%nat.
Proof.
  apply (one_date_text 1709210096789 5.5%float).
  unfold fourDigitYear.
  assert (E : YearFromTime 1709210096789 = 2024) by (vm_compute; reflexivity).
  rewrite E. lia.
Defined.

Section CappedSelection.

Variable LocalTZA : Z.
Variable fetch : Request -> Response.

(** X20.  A calendar selection of more than five
    calendar months is cut before it reaches the map, so that the fetch
    loop makes at most six requests for it, whatever the service answers,
    and six passes of fuel always suffice. *)
Theorem capped_selection_requests
  (st : IndexState) (startDate endDate : Date) (fuel : nat) :
  monthDiff LocalTZA startDate endDate > 5 ->
  let st' := applyCalls
               (handleDateRangeSelect LocalTZA (Some (Some startDate, Some endDate)))
               st in
  ixTimeWindow st' = "custom"%string
  /\ (length (fst (tryBlock LocalTZA fetch (mapProps st') fuel)) <= 6)%nat
  /\ ((6 <= fuel)%nat ->
      snd (tryBlock LocalTZA fetch (mapProps st') fuel) <> OutOfFuel).
Proof.
  intros Hgt. cbv zeta.
  destruct (maxEndDateOf_span LocalTZA startDate) as (k & Hk & Hend).
  set (st' := applyCalls _ st).
  assert (Hrange : dateRange (mapProps st')
                   = (Some startDate, Some (maxEndDateOf LocalTZA startDate))).
  { unfold st', applyCalls, handleDateRangeSelect, mapProps.
    cbn [dateRange dateRangeChange ixDateRange].
    destruct (Z.gtb_spec (monthDiff LocalTZA startDate endDate) 5);
      [ reflexivity | lia ]. }
  assert (Hbound : (fuelBound startDate (maxEndDateOf LocalTZA startDate) <= 6)%nat).
  { unfold fuelBound. rewrite Hend.
    replace (startDate + k * msPerDay - startDate) with (k * msPerDay) by lia.
    assert (k * msPerDay / (29 * msPerDay) <= 5)
      by (unfold msPerDay; Z.div_mod_to_equations; lia).
    assert (0 <= k * msPerDay / (29 * msPerDay))
      by (unfold msPerDay; Z.div_mod_to_equations; lia).
    lia. }
  split; [ reflexivity | ].
  split.
  - destruct (tryBlock_range LocalTZA fetch (mapProps st') fuel _ _ Hrange)
      as (l & -> & Hch & _).
    rewrite length_map.
    destruct (chunkSizeOf_cases LocalTZA startDate (maxEndDateOf LocalTZA startDate))
      as [ [Hcs _] | [Hcs _] ]; rewrite Hcs in Hch.
    + pose proof (chunksFrom_chunked_length LocalTZA _ _ _ Hch). lia.
    + destruct (chunksFrom_single LocalTZA _ _ _ Hch) as [ -> | -> ]; cbn; lia.
  - intros Hfuel. unfold tryBlock. rewrite Hrange.
    pose proof (doWhile_fuel_enough LocalTZA fetch (mapProps st') fuel
                  (chunkSizeOf LocalTZA startDate (maxEndDateOf LocalTZA startDate))
                  (maxEndDateOf LocalTZA startDate) startDate [] []) as Hf.
    destruct (doWhile LocalTZA fetch (mapProps st') fuel _ _ _ [] [])
      as [sent r]. cbn [snd] in *.
    assert (Hr : r <> OutOfFuel).
    { apply Hf.
      - destruct (chunkSizeOf_cases LocalTZA startDate
                    (maxEndDateOf LocalTZA startDate)) as [ [-> _] | [-> _] ]; auto.
      - unfold fuelBound in Hbound. lia. }
    destruct r; [ discriminate | discriminate | now elim Hr ].
Qed.

End CappedSelection.

Lemma capped_selection_requests_witness :
  let st' := applyCalls
               (handleDateRangeSelect 0
                  (Some (Some (utcMidnight 2024 1 1), Some (utcMidnight 2024 12 1))))
               indexInitial in
  ixTimeWindow st' = "custom"%string
  /\ (length (fst (tryBlock 0 emptyService (mapProps st') 6)) <= 6)%nat
  /\ ((6 <= 6)%nat ->
      snd (tryBlock 0 emptyService (mapProps st') 6) <> OutOfFuel).
Proof.
  apply (capped_selection_requests 0 emptyService indexInitial
           (utcMidnight 2024 1 1) (utcMidnight 2024 12 1) 6).
  vm_compute. reflexivity.
Defined.

(* ================================================================== *)
(** * The minimum magnitude under a magnitude range; the popup's time *)
(* ================================================================== *)

Section MinimumFacts.

Variable LocalTZA : Z.
Variable fetch : Request -> Response.

Lemma requestOf_withMinMagnitude (v : float) (p : EarthquakeMapProps) (c : Chunk) :
  magRange p <> None ->
  requestOf (withMinMagnitude v p) c = requestOf p c.
Proof.
  intros Hm. unfold requestOf, lowerMag, upperMag, withMinMagnitude.
  cbn [magRange minMagnitude]. destruct (magRange p); [ reflexivity | now elim Hm ].
Qed.

Lemma doWhile_withMinMagnitude (v : float) (p : EarthquakeMapProps) (fuel : nat) :
  magRange p <> None ->
  forall cs endDate cur all sent,
    doWhile LocalTZA fetch (withMinMagnitude v p) fuel cs endDate cur all sent
    = doWhile LocalTZA fetch p fuel cs endDate cur all sent.
Proof.
  intros Hm. induction fuel as [ | fuel IH ]; intros cs endDate cur all sent;
    cbn [doWhile]; [ reflexivity | ].
  cbv zeta. rewrite (requestOf_withMinMagnitude v p _ Hm).
  destruct (fetch _) as [ m | | data ]; try reflexivity.
  destruct (cs >? 0); [ | reflexivity ].
  destruct (_ <? endDate); [ apply IH | reflexivity ].
Qed.

(** X21.  With a magnitude range in the
    props, as [Index] always passes one, the minimum magnitude is never
    read: a run of [fetchEarthquakes] issues the same requests, keeps the
    same events and reports the same count whatever the minimum magnitude
    is. *)
Theorem magnitude_range_overrides_minimum
  (p : EarthquakeMapProps) (v : float) (fuel : nat) (s : MapState) :
  magRange p <> None ->
  fetchEarthquakes LocalTZA fetch (withMinMagnitude v p) fuel s
  = fetchEarthquakes LocalTZA fetch p fuel s.
Proof.
  intros Hm.
  assert (Ht : tryBlock LocalTZA fetch (withMinMagnitude v p) fuel
               = tryBlock LocalTZA fetch p fuel).
  { unfold tryBlock. change (dateRange (withMinMagnitude v p)) with (dateRange p).
    change (timeWindow (withMinMagnitude v p)) with (timeWindow p).
    destruct (dateRange p) as [ [ startDate | ] [ endDate | ] ].
    - rewrite (doWhile_withMinMagnitude v p fuel Hm).
      destruct (doWhile LocalTZA fetch p fuel _ endDate startDate [] [])
        as [sent r].
      f_equal.
      induction sent as [ | c sent IH ]; cbn [map]; [ reflexivity | ].
      now rewrite IH, (requestOf_withMinMagnitude v p c Hm).
    - f_equal. destruct (fetch _); try reflexivity. f_equal.
      unfold filterFeed, lowerMag, upperMag, withMinMagnitude. cbn [magRange].
      destruct (magRange p); [ reflexivity | now elim Hm ].
    - f_equal. destruct (fetch _); try reflexivity. f_equal.
      unfold filterFeed, lowerMag, upperMag, withMinMagnitude. cbn [magRange].
      destruct (magRange p); [ reflexivity | now elim Hm ].
    - f_equal. destruct (fetch _); try reflexivity. f_equal.
      unfold filterFeed, lowerMag, upperMag, withMinMagnitude. cbn [magRange].
      destruct (magRange p); [ reflexivity | now elim Hm ]. }
  unfold fetchEarthquakes. rewrite Ht. reflexivity.
Qed.

End MinimumFacts.

Lemma magnitude_range_overrides_minimum_witness :
  fetchEarthquakes 0 smallFeed (withMinMagnitude 7 (mapProps indexInitial)) 1
                   initialState
  = fetchEarthquakes 0 smallFeed (mapProps indexInitial) 1 initialState.
Proof.
  apply (magnitude_range_overrides_minimum 0 smallFeed (mapProps indexInitial)
           7%float 1 initialState).
  discriminate.
Defined.

Lemma substring_8 (a b c r : string) :
  String.length a = 2%nat -> String.length b = 2%nat -> String.length c = 2%nat ->
  substring 0 8 (a ++ ":" ++ b ++ ":" ++ c ++ r) = (a ++ ":" ++ b ++ ":" ++ c)%string.
Proof.
  intros Ha Hb Hc.
  destruct a as [ | a1 [ | a2 [ | ] ] ]; try discriminate.
  destruct b as [ | b1 [ | b2 [ | ] ] ]; try discriminate.
  destruct c as [ | c1 [ | c2 [ | ] ] ]; try discriminate.
  cbn. now destruct r.
Qed.

(** X22.  For a time value of the years 0 to 9999 the
    popup's UTC time is the hour, minute and second of the time value in
    UTC, two digits each, followed by [Z]: the milliseconds are cut off,
    not rounded. *)
Theorem popup_time_text (t : Z) :
  fourDigitYear t ->
  formatUtcTime (Some t)
  = (pad 2 (HourFromTime t) ++ ":" ++ pad 2 (MinFromTime t) ++ ":"
     ++ pad 2 (SecFromTime t) ++ "Z")%string
  /\ String.length (formatUtcTime (Some t)) = 9%nat.
Proof.
  intros Hy. unfold formatUtcTime. rewrite (fourDigitYear_valid t Hy).
  assert (E : slice 11 19 (toISOString t)
              = (pad 2 (HourFromTime t) ++ ":" ++ pad 2 (MinFromTime t) ++ ":"
                 ++ pad 2 (SecFromTime t))%string).
  { unfold slice, toISOString. cbn [Nat.sub].
    change 11%nat with (S 10). rewrite <- (length_isoText (formatDate t) Hy).
    change ("T" ++ pad 2 (HourFromTime t) ++ ":" ++ pad 2 (MinFromTime t) ++ ":"
            ++ pad 2 (SecFromTime t) ++ "." ++ pad 3 (msFromTime t) ++ "Z")%string
      with (String "T" (pad 2 (HourFromTime t) ++ ":" ++ pad 2 (MinFromTime t) ++ ":"
            ++ pad 2 (SecFromTime t) ++ "." ++ pad 3 (msFromTime t) ++ "Z"))%string.
    generalize (isoText (formatDate t)). intros s.
    induction s as [ | x s IH ]; cbn [append String.length substring];
      [ | exact IH ].
    apply substring_8; apply length_pad. }
  rewrite E. split.
  - now rewrite !append_assoc.
  - rewrite !length_append, !length_pad. reflexivity.
Qed.

Lemma popup_time_text_witness :
  formatUtcTime (Some 1709210096789)
  = (pad 2 (HourFromTime 1709210096789) ++ ":"
     ++ pad 2 (MinFromTime 1709210096789) ++ ":"
     ++ pad 2 (SecFromTime 1709210096789) ++ "Z")%string
  /\ String.length (formatUtcTime (Some 1709210096789)) = 9%nat.
Proof.
  apply (popup_time_text 1709210096789).
  unfold fourDigitYear.
  assert (E : YearFromTime 1709210096789 = 2024) by (vm_compute; reflexivity).
  rewrite E. lia.
Defined.
